(** * Reflection helper of the fulfillment command line tool

    A shallow embedding of the Go package [reflection] (the [Helper] that
    scans the protocol buffers registry for services following the
    Get/List/Update/Delete convention, and the [ObjectHelper] that invokes
    those methods through a gRPC connection), together with the properties
    that the specification states about it.

    Conventions of the embedding:
    - descriptors are plain records; a message descriptor is identified by
      its full name, which is unique inside one registry, so the interface
      comparison [a != b] of two message descriptors is the comparison of
      their full names;
    - a Go interface value that may be [nil] is an [option];
    - messages live in a heap and are referred to by location, because the
      code clones templates and then mutates the clones in place;
    - a Go panic is the [Panic] outcome of the monad [M];
    - the gRPC connection, the pluralizer and the Unicode functions of the
      [strings] package are interfaces (type classes) of the embedding. *)

From Stdlib Require Import Ascii String.
From stdpp Require Import base option list gmap strings sorting.
From stdpp Require Import pretty.

Set Default Proof Using "Type".
Open Scope string_scope.

(** ** Names *)

Definition Name := string.
Definition FullName := string.

Definition isDot (c : ascii) : bool := bool_decide (c = "."%char).

Fixpoint hasDot (s : string) : bool :=
  match s with
  | EmptyString => false
  | String c rest => isDot c || hasDot rest
  end.

(** [protoreflect.FullName.Name]: the part after the last dot. *)
Fixpoint FullName_Name (n : FullName) : Name :=
  match n with
  | EmptyString => EmptyString
  | String c rest =>
      if hasDot rest then FullName_Name rest
      else if isDot c then rest else n
  end.

(** [protoreflect.FullName.Parent]: the part before the last dot. *)
Fixpoint FullName_Parent (n : FullName) : FullName :=
  match n with
  | EmptyString => EmptyString
  | String c rest =>
      if hasDot rest then String c (FullName_Parent rest) else EmptyString
  end.

(** ** Descriptors *)

Inductive Cardinality := Optional | Required | Repeated.

Inductive Kind :=
| BoolKind | EnumKind | Int32Kind | Sint32Kind | Uint32Kind
| Int64Kind | Sint64Kind | Uint64Kind | Sfixed32Kind | Fixed32Kind
| FloatKind | Sfixed64Kind | Fixed64Kind | DoubleKind
| StringKind | BytesKind | MessageKind | GroupKind.

Global Instance Cardinality_eq_dec : EqDecision Cardinality.
Proof. solve_decision. Defined.
Global Instance Kind_eq_dec : EqDecision Kind.
Proof. solve_decision. Defined.

(** A field descriptor. [fd_type_name] is the full name of the message type
    of a message or group field; it is not looked at for other kinds. *)
Record FieldDescriptor := {
  fd_name : Name;
  fd_cardinality : Cardinality;
  fd_kind : Kind;
  fd_type_name : FullName
}.

(** [FieldDescriptor.Message]: the descriptor of the message type of the
    field, [nil] when the field is not of message or group kind. *)
Definition FieldDescriptor_Message (fd : FieldDescriptor) : option FullName :=
  match fd_kind fd with
  | MessageKind | GroupKind => Some (fd_type_name fd)
  | _ => None
  end.

Record MessageDescriptor := {
  md_full_name : FullName;
  md_fields : list FieldDescriptor
}.

Record MethodDescriptor := {
  mth_full_name : FullName;
  mth_input : MessageDescriptor;
  mth_output : MessageDescriptor
}.

Record ServiceDescriptor := {
  svc_full_name : FullName;
  svc_methods : list MethodDescriptor
}.

Record FileDescriptor := {
  file_path : string;
  file_services : list ServiceDescriptor
}.

Definition MethodDescriptor_Name (m : MethodDescriptor) : Name :=
  FullName_Name (mth_full_name m).

(** [FieldDescriptors.ByName] and [MethodDescriptors.ByName]. *)
Definition Fields_ByName (fields : list FieldDescriptor) (n : Name)
  : option FieldDescriptor :=
  List.find (fun f => String.eqb (fd_name f) n) fields.

Definition Methods_ByName (methods : list MethodDescriptor) (n : Name)
  : option MethodDescriptor :=
  List.find (fun m => String.eqb (MethodDescriptor_Name m) n) methods.

(** The two global registries of the protocol buffers runtime.
    [GlobalFiles] lists the files in the order in which [RangeFiles] visits
    them; [GlobalTypes] lists the names of the message types that
    [FindMessageByName] resolves. *)
Class Registry := {
  GlobalFiles : list FileDescriptor;
  GlobalTypes : list FullName
}.

(** ** Messages *)

#[warnings="-register-all"]
Inductive Value :=
| ValueOfString (s : string)
| ValueOfScalar (z : Z)
| ValueOfMessage (m : Message)
| ValueOfList (items : list Value)
with Message :=
| MkMessage (type : FullName) (fields : gmap Name Value).

Definition msg_type (m : Message) : FullName :=
  match m with MkMessage t _ => t end.

Definition msg_fields (m : Message) : gmap Name Value :=
  match m with MkMessage _ fs => fs end.

(** [MessageType.New]: a blank message. *)
Definition Message_New (type : FullName) : Message := MkMessage type ∅.

(** The value that [Message.Get] gives for a field that is not populated:
    an empty list for a repeated field, an empty message for a message
    field, and the zero of the scalar otherwise. *)
Definition Value_default (fd : FieldDescriptor) : Value :=
  match fd_cardinality fd with
  | Repeated => ValueOfList []
  | _ =>
      match FieldDescriptor_Message fd with
      | Some type => ValueOfMessage (Message_New type)
      | None =>
          match fd_kind fd with
          | StringKind | BytesKind => ValueOfString ""
          | _ => ValueOfScalar 0
          end
      end
  end.

Definition Message_Get (m : Message) (fd : FieldDescriptor) : Value :=
  default (Value_default fd) (msg_fields m !! fd_name fd).

Definition Message_Set (m : Message) (fd : FieldDescriptor) (v : Value)
  : Message :=
  MkMessage (msg_type m) (<[fd_name fd := v]> (msg_fields m)).

(** ** Errors *)

(** An error is what the transport returned, or an error wrapped by
    [fmt.Errorf] with the verb [%w]. *)
Inductive Error :=
| TransportError (text : string)
| Wrapped (prefix : string) (cause : Error).

Fixpoint Error_Error (e : Error) : string :=
  match e with
  | TransportError text => text
  | Wrapped prefix cause => prefix ++ Error_Error cause
  end.

Definition Error_Unwrap (e : Error) : option Error :=
  match e with
  | TransportError _ => None
  | Wrapped _ cause => Some cause
  end.

(** ** Interfaces of the collaborators *)

(** The gRPC connection: [Invoke] reads the request, may change the state of
    the server and the content of the response, and returns an error or
    [nil]. *)
Class Transport := {
  Server : Type;
  Invoke : Server -> string -> Message -> Message
           -> Server * Message * option Error
}.

(** [pluralize.Client.Plural]. *)
Class Pluralizer := { Plural : string -> string }.

(** [strings.ToLower] and [strings.EqualFold]. *)
Class Strings := {
  ToLower : string -> string;
  EqualFold : string -> string -> bool
}.

(** ** The object helper and the state of the program *)

(** Location of a message in the heap: the value of a [proto.Message]
    pointer. *)
Definition loc := nat.

Record methodInfo := {
  mi_path : string;
  mi_request : loc;
  mi_response : loc
}.

Record getInfo := {
  gi_methodInfo : methodInfo;
  gi_id : FieldDescriptor;
  gi_object : FieldDescriptor
}.

Record listInfo := {
  li_methodInfo : methodInfo;
  li_filter : FieldDescriptor;
  li_items : FieldDescriptor
}.

Record updateInfo := {
  ui_methodInfo : methodInfo;
  ui_in : FieldDescriptor;
  ui_out : FieldDescriptor
}.

Record deleteInfo := {
  di_methodInfo : methodInfo;
  di_id : FieldDescriptor
}.

(** The field [parent] is left out: the state below holds one [Helper], the
    parent of all its object helpers. *)
Record ObjectHelper := {
  oh_descriptor : FullName;
  oh_template : loc;
  oh_list : listInfo;
  oh_get : getInfo;
  oh_update : updateInfo;
  oh_delete : deleteInfo
}.

(** The mutable part of [Helper]: [scanOnce] tells whether the
    [sync.Once] has already run. *)
Record Helper := {
  scanOnce : bool;
  helpers : list ObjectHelper
}.

(** One remote invocation, as the transport saw it. *)
Record Call := {
  call_path : string;
  call_request : Message;
  call_response : Message
}.

Inductive Outcome (A : Type) :=
| Done (a : A)
| Panic (reason : string).
Arguments Done {A} a.
Arguments Panic {A} reason.

Section Program.
Context `{!Transport}.

Record World := {
  heap : list Message;
  server : Server;
  calls : list Call;
  this : Helper
}.

(** Computations that read and write the state and may panic. *)
Definition M (A : Type) : Type := World -> Outcome (A * World).

Global Instance M_ret : MRet M := fun A a w => Done (a, w).

Global Instance M_bind : MBind M := fun A B f m w =>
  match m w with
  | Done (a, w') => f a w'
  | Panic reason => Panic reason
  end.

Definition panic {A} (reason : string) : M A := fun _ => Panic reason.

Definition alloc (m : Message) : M loc := fun w =>
  Done (length (heap w),
        {| heap := heap w ++ [m]; server := server w;
           calls := calls w; this := this w |}).

Definition load (l : loc) : M Message := fun w =>
  match heap w !! l with
  | Some m => Done (m, w)
  | None => Panic "invalid memory address or nil pointer dereference"
  end.

Definition store (l : loc) (m : Message) : M unit := fun w =>
  Done (tt, {| heap := <[l := m]> (heap w); server := server w;
               calls := calls w; this := this w |}).

Definition getThis : M Helper := fun w => Done (this w, w).

Definition setThis (h : Helper) : M unit := fun w =>
  Done (tt, {| heap := heap w; server := server w;
               calls := calls w; this := h |}).

(** [proto.Clone]: a deep copy in a fresh location. *)
Definition Clone (l : loc) : M loc := m ← load l; alloc m.

(** [Message.Set]. Storing a message in a field of another message type
    panics in the protocol buffers runtime. *)
Definition Set_ (l : loc) (fd : FieldDescriptor) (v : Value) : M unit :=
  m ← load l;
  match v with
  | ValueOfMessage o =>
      if bool_decide (FieldDescriptor_Message fd = Some (msg_type o))
      then store l (Message_Set m fd v)
      else panic "invalid type"
  | _ => store l (Message_Set m fd v)
  end.

(** [Message.Get]. *)
Definition Get_ (l : loc) (fd : FieldDescriptor) : M Value :=
  m ← load l; mret (Message_Get m fd).

(** [Value.Message] and [Value.List] panic on a value of another type. *)
Definition Value_Message (v : Value) : M Message :=
  match v with
  | ValueOfMessage m => mret m
  | _ => panic "type mismatch: cannot convert to message"
  end.

Definition Value_List (v : Value) : M (list Value) :=
  match v with
  | ValueOfList items => mret items
  | _ => panic "type mismatch: cannot convert to list"
  end.

(** [grpc.ClientConn.Invoke]: one remote invocation. The request is read,
    the response is overwritten with what the transport leaves in it, and
    the invocation is recorded in [calls]. *)
Definition connection_Invoke (path : string) (request response : loc)
  : M (option Error) := fun w =>
  match heap w !! request, heap w !! response with
  | Some req, Some resp =>
      let '(srv, resp', err) := Invoke (server w) path req resp in
      Done (err,
            {| heap := <[response := resp']> (heap w);
               server := srv;
               calls := calls w ++ [{| call_path := path;
                                       call_request := req;
                                       call_response := resp |}];
               this := this w |})
  | _, _ => Panic "invalid memory address or nil pointer dereference"
  end.
End Program.

(** ** Discovery of the object types *)

Definition deleteMethodName : Name := "Delete".
Definition getMethodName : Name := "Get".
Definition listMethodName : Name := "List".
Definition updateMethodName : Name := "Update".

Definition filterFieldName : Name := "filter".
Definition idFieldName : Name := "id".
Definition itemsFieldName : Name := "items".
Definition objectFieldName : Name := "object".

Definition getIdField (messageDesc : MessageDescriptor)
  : option FieldDescriptor :=
  match Fields_ByName (md_fields messageDesc) idFieldName with
  | None => None
  | Some fieldDesc =>
      if bool_decide (fd_cardinality fieldDesc ≠ Optional) then None
      else if bool_decide (fd_kind fieldDesc ≠ StringKind) then None
      else Some fieldDesc
  end.

Definition getObjectField (messageDesc : MessageDescriptor)
  : option FieldDescriptor :=
  match Fields_ByName (md_fields messageDesc) objectFieldName with
  | None => None
  | Some fieldDesc =>
      if bool_decide (fd_cardinality fieldDesc ≠ Optional) then None
      else if bool_decide (fd_kind fieldDesc ≠ MessageKind) then None
      else Some fieldDesc
  end.

Definition getFilterField (messageDesc : MessageDescriptor)
  : option FieldDescriptor :=
  match Fields_ByName (md_fields messageDesc) filterFieldName with
  | None => None
  | Some fieldDesc =>
      if bool_decide (fd_cardinality fieldDesc = Repeated) then None
      else if bool_decide (fd_kind fieldDesc ≠ StringKind) then None
      else Some fieldDesc
  end.

Definition getItemsField (messageDesc : MessageDescriptor)
  : option FieldDescriptor :=
  match Fields_ByName (md_fields messageDesc) itemsFieldName with
  | None => None
  | Some fieldDesc =>
      if bool_decide (fd_cardinality fieldDesc ≠ Repeated) then None
      else if bool_decide (fd_kind fieldDesc ≠ MessageKind) then None
      else Some fieldDesc
  end.

Definition makeMethodPath (methodDesc : MethodDescriptor) : string :=
  "/" ++ FullName_Parent (mth_full_name methodDesc)
      ++ "/" ++ MethodDescriptor_Name methodDesc.

Definition nilDereference : string :=
  "invalid memory address or nil pointer dereference".

Section Discovery.
Context `{!Transport} `{!Registry}.

Definition makeTemplate (messageDesc : FullName) : M loc :=
  if bool_decide (messageDesc ∈ GlobalTypes)
  then alloc (Message_New messageDesc)
  else panic "proto: not found".

Definition makeMethodTemplates (methodDesc : MethodDescriptor)
  : M (loc * loc) :=
  requestTemplate ← makeTemplate (md_full_name (mth_input methodDesc));
  responseTemplate ← makeTemplate (md_full_name (mth_output methodDesc));
  mret (requestTemplate, responseTemplate).

Definition appendHelper (helper : ObjectHelper) : M unit :=
  h ← getThis;
  setThis {| scanOnce := scanOnce h; helpers := helpers h ++ [helper] |}.

(** The early [return]s of the Go function are the [mret tt] branches.
    The result of [getObjectField] on the response of [Get] is used
    without a test for [nil]: calling [Message] on it panics. A field
    that [getObjectField] accepts is of message kind, hence the [None]
    branch of the match on its message descriptor is never taken. *)
Definition scanService (serviceDesc : ServiceDescriptor) : M unit :=
  let methodDescs := svc_methods serviceDesc in
  match Methods_ByName methodDescs listMethodName with
  | None => mret tt
  | Some listDesc =>
  match Methods_ByName methodDescs getMethodName with
  | None => mret tt
  | Some getDesc =>
  match Methods_ByName methodDescs updateMethodName with
  | None => mret tt
  | Some updateDesc =>
  match Methods_ByName methodDescs deleteMethodName with
  | None => mret tt
  | Some deleteDesc =>
  match getIdField (mth_input getDesc) with
  | None => mret tt
  | Some getRequestIdFieldDesc =>
  match getObjectField (mth_output getDesc) with
  | None => panic nilDereference
  | Some getResponseObjectFieldDesc =>
  match FieldDescriptor_Message getResponseObjectFieldDesc with
  | None => panic nilDereference
  | Some objectDesc =>
  match getFilterField (mth_input listDesc) with
  | None => mret tt
  | Some listRequestFilterFieldDesc =>
  match getItemsField (mth_output listDesc) with
  | None => mret tt
  | Some listResponseItemsFieldDesc =>
  if bool_decide (FieldDescriptor_Message listResponseItemsFieldDesc
                  ≠ Some objectDesc) then mret tt else
  match getObjectField (mth_input updateDesc) with
  | None => mret tt
  | Some updateRequestObjectFieldDesc =>
  if bool_decide (FieldDescriptor_Message updateRequestObjectFieldDesc
                  ≠ Some objectDesc) then mret tt else
  match getObjectField (mth_output updateDesc) with
  | None => mret tt
  | Some updateResponseObjectFieldDesc =>
  if bool_decide (FieldDescriptor_Message updateResponseObjectFieldDesc
                  ≠ Some objectDesc) then mret tt else
  match getIdField (mth_input deleteDesc) with
  | None => mret tt
  | Some deleteRequestIdFieldDesc =>
    objectTemplate ← makeTemplate objectDesc;
    '(getRequestTemplate, getResponseTemplate)
      ← makeMethodTemplates getDesc;
    '(listRequestTemplate, listResponseTemplate)
      ← makeMethodTemplates listDesc;
    '(updateRequestTemplate, updateResponseTemplate)
      ← makeMethodTemplates updateDesc;
    '(deleteRequestTemplate, deleteResponseTemplate)
      ← makeMethodTemplates deleteDesc;
    appendHelper {|
      oh_descriptor := objectDesc;
      oh_template := objectTemplate;
      oh_get := {|
        gi_methodInfo := {|
          mi_path := makeMethodPath getDesc;
          mi_request := getRequestTemplate;
          mi_response := getResponseTemplate |};
        gi_id := getRequestIdFieldDesc;
        gi_object := getResponseObjectFieldDesc |};
      oh_list := {|
        li_methodInfo := {|
          mi_path := makeMethodPath listDesc;
          mi_request := listRequestTemplate;
          mi_response := listResponseTemplate |};
        li_filter := listRequestFilterFieldDesc;
        li_items := listResponseItemsFieldDesc |};
      oh_update := {|
        ui_methodInfo := {|
          mi_path := makeMethodPath updateDesc;
          mi_request := updateRequestTemplate;
          mi_response := updateResponseTemplate |};
        ui_in := updateRequestObjectFieldDesc;
        ui_out := updateResponseObjectFieldDesc |};
      oh_delete := {|
        di_methodInfo := {|
          mi_path := makeMethodPath deleteDesc;
          mi_request := deleteRequestTemplate;
          mi_response := deleteResponseTemplate |};
        di_id := deleteRequestIdFieldDesc |}
    |}
  end end end end end end end end end end end end.

Fixpoint scanServices (serviceDescs : list ServiceDescriptor) : M unit :=
  match serviceDescs with
  | [] => mret tt
  | serviceDesc :: rest => scanService serviceDesc;; scanServices rest
  end.

Definition scanFile (fileDesc : FileDescriptor) : M bool :=
  scanServices (file_services fileDesc);; mret true.

(** [protoregistry.Files.RangeFiles]: visits the files while the
    function returns [true]. *)
Fixpoint RangeFiles (files : list FileDescriptor)
         (f : FileDescriptor -> M bool) : M unit :=
  match files with
  | [] => mret tt
  | fileDesc :: rest =>
      continue ← f fileDesc;
      if continue : bool then RangeFiles rest f else mret tt
  end.

Definition scan : M unit := RangeFiles GlobalFiles scanFile.

(** [sync.Once.Do]: runs the function only the first time. *)
Definition scanIfNeeded : M unit :=
  h ← getThis;
  if scanOnce h then mret tt
  else
    scan;;
    h' ← getThis;
    setThis {| scanOnce := true; helpers := helpers h' |}.
End Discovery.

(** ** Enumeration and lookup of the object types *)

(** The order of Go strings: bytes compared from left to right. *)
Definition string_le (a b : string) : Prop := String.leb a b = true.

Global Instance string_le_dec : RelDecision string_le.
Proof. intros a b. unfold string_le. apply _. Defined.

(** [sort.Strings]. *)
Definition sort_Strings (l : list string) : list string :=
  merge_sort string_le l.

Section Enumeration.
Context `{!Transport} `{!Registry} `{!Pluralizer} `{!Strings}.

Definition singularOf (objectInfo : ObjectHelper) : string :=
  ToLower (FullName_Name (oh_descriptor objectInfo)).

Definition pluralOf (objectInfo : ObjectHelper) : string :=
  Plural (ToLower (FullName_Name (oh_descriptor objectInfo))).

(** The name [objectType] designates the object type of [objectInfo]. *)
Definition designates (objectType : string) (objectInfo : ObjectHelper)
  : Prop :=
  EqualFold objectType (singularOf objectInfo) = true
  ∨ EqualFold objectType (pluralOf objectInfo) = true.

Definition Singulars : M (list string) :=
  scanIfNeeded;;
  h ← getThis;
  let results := singularOf <$> helpers h in
  mret (sort_Strings results).

Definition Plurals : M (list string) :=
  scanIfNeeded;;
  a ← getThis;
  let results := pluralOf <$> helpers a in
  mret (sort_Strings results).

(** The loop of [Lookup] from index [i] on. The result is the index of
    the element of [helpers] that the returned pointer refers to. *)
Fixpoint lookupFrom (objectType : string) (i : nat)
         (rest : list ObjectHelper) : option nat :=
  match rest with
  | [] => None
  | objectInfo :: rest' =>
      let singular := ToLower (FullName_Name (oh_descriptor objectInfo)) in
      if EqualFold objectType singular then Some i
      else
        let plural := Plural singular in
        if EqualFold objectType plural then Some i
        else lookupFrom objectType (S i) rest'
  end.

Definition Lookup (objectType : string) : M (option nat) :=
  scanIfNeeded;;
  a ← getThis;
  mret (lookupFrom objectType 0 (helpers a)).
End Enumeration.

(** ** Operations of the object helper *)

Record ListOptions := { Filter : string }.

Definition updateFailure : string := "failed to update object: ".

Section Operations.
Context `{!Transport}.

Definition Descriptor (h : ObjectHelper) : FullName := oh_descriptor h.

Definition Instance_ (h : ObjectHelper) : M loc := Clone (oh_template h).

Definition setId (message : loc) (field : FieldDescriptor) (value : string)
  : M unit :=
  Set_ message field (ValueOfString value).

Definition setObject (message : loc) (field : FieldDescriptor)
           (value : Message) : M unit :=
  Set_ message field (ValueOfMessage value).

Definition getObject (message : loc) (field : FieldDescriptor)
  : M Message :=
  v ← Get_ message field; Value_Message v.

Fixpoint messagesOf (items : list Value) : M (list Message) :=
  match items with
  | [] => mret []
  | v :: rest =>
      m ← Value_Message v;
      ms ← messagesOf rest;
      mret (m :: ms)
  end.

(** The results are [(results, err)] as in Go; [None] is [nil]. *)
Definition List_ (h : ObjectHelper) (options : ListOptions)
  : M (option (list Message) * option Error) :=
  request ← Clone (mi_request (li_methodInfo (oh_list h)));
  (if bool_decide (Filter options ≠ "")
   then Set_ request (li_filter (oh_list h))
              (ValueOfString (Filter options))
   else mret tt);;
  response ← Clone (mi_response (li_methodInfo (oh_list h)));
  err ← connection_Invoke (mi_path (li_methodInfo (oh_list h)))
                          request response;
  match err with
  | Some e => mret (None, Some e)
  | None =>
      v ← Get_ response (li_items (oh_list h));
      items ← Value_List v;
      results ← messagesOf items;
      mret (Some results, None)
  end.

Definition Get (c : ObjectHelper) (id : string)
  : M (option Message * option Error) :=
  request ← Clone (mi_request (gi_methodInfo (oh_get c)));
  setId request (gi_id (oh_get c)) id;;
  response ← Clone (mi_response (gi_methodInfo (oh_get c)));
  err ← connection_Invoke (mi_path (gi_methodInfo (oh_get c)))
                          request response;
  match err with
  | Some e => mret (None, Some e)
  | None =>
      result ← getObject response (gi_object (oh_get c));
      mret (Some result, None)
  end.

Definition Update (c : ObjectHelper) (object : Message)
  : M (option Message * option Error) :=
  request ← Clone (mi_request (ui_methodInfo (oh_update c)));
  setObject request (ui_in (oh_update c)) object;;
  response ← Clone (mi_response (ui_methodInfo (oh_update c)));
  err ← connection_Invoke (mi_path (ui_methodInfo (oh_update c)))
                          request response;
  let err :=
    match err with
    | Some e => Some (Wrapped updateFailure e)
    | None => None
    end in
  result ← getObject response (ui_out (oh_update c));
  mret (Some result, err).
End Operations.

(** ** A concrete registry, transport and pluralizer

    The registry has the shape of the API that the tests of the package
    use: the services [Clusters], [ClusterOrders], [ClusterTemplates] and
    [HostClasses] of the package [fulfillment.v1], each with the methods
    [List], [Get], [Create], [Update] and [Delete], and the service
    [Events], which has none of them. *)
Module Fulfillment.

Definition field (name : Name) (cardinality : Cardinality) (kind : Kind)
           (type : FullName) : FieldDescriptor :=
  {| fd_name := name; fd_cardinality := cardinality;
     fd_kind := kind; fd_type_name := type |}.

Definition message (name : FullName) (fields : list FieldDescriptor)
  : MessageDescriptor :=
  {| md_full_name := name; md_fields := fields |}.

Definition method (service : FullName) (name : Name)
           (input output : MessageDescriptor) : MethodDescriptor :=
  {| mth_full_name := service ++ "." ++ name;
     mth_input := input; mth_output := output |}.

Definition idField := field "id" Optional StringKind "".
Definition objectField (object : FullName) :=
  field "object" Optional MessageKind object.

Definition getMethod (package service object : string) :=
  method (package ++ "." ++ service) "Get"
    (message (package ++ "." ++ service ++ "GetRequest") [idField])
    (message (package ++ "." ++ service ++ "GetResponse")
       [objectField object]).

Definition listMethod (package service object : string) :=
  method (package ++ "." ++ service) "List"
    (message (package ++ "." ++ service ++ "ListRequest")
       [field "offset" Optional Int32Kind "";
        field "limit" Optional Int32Kind "";
        field "filter" Optional StringKind ""])
    (message (package ++ "." ++ service ++ "ListResponse")
       [field "size" Optional Int32Kind "";
        field "total" Optional Int32Kind "";
        field "items" Repeated MessageKind object]).

Definition createMethod (package service object : string) :=
  method (package ++ "." ++ service) "Create"
    (message (package ++ "." ++ service ++ "CreateRequest")
       [objectField object])
    (message (package ++ "." ++ service ++ "CreateResponse")
       [objectField object]).

Definition updateMethod (package service object : string) :=
  method (package ++ "." ++ service) "Update"
    (message (package ++ "." ++ service ++ "UpdateRequest")
       [objectField object;
        field "update_mask" Optional MessageKind
              "google.protobuf.FieldMask"])
    (message (package ++ "." ++ service ++ "UpdateResponse")
       [objectField object]).

Definition deleteMethod (package service : string) :=
  method (package ++ "." ++ service) "Delete"
    (message (package ++ "." ++ service ++ "DeleteRequest") [idField])
    (message (package ++ "." ++ service ++ "DeleteResponse") []).

(** A service that follows the convention for the object type [object]. *)
Definition objectService (package service object : string)
  : ServiceDescriptor :=
  {| svc_full_name := package ++ "." ++ service;
     svc_methods :=
       [listMethod package service (package ++ "." ++ object);
        getMethod package service (package ++ "." ++ object);
        createMethod package service (package ++ "." ++ object);
        updateMethod package service (package ++ "." ++ object);
        deleteMethod package service] |}.

Definition eventsService : ServiceDescriptor :=
  {| svc_full_name := "fulfillment.v1.Events";
     svc_methods :=
       [method "fulfillment.v1.Events" "Watch"
          (message "fulfillment.v1.EventsWatchRequest"
             [field "filter" Optional StringKind ""])
          (message "fulfillment.v1.EventsWatchResponse"
             [field "event" Optional MessageKind "fulfillment.v1.Event"])]
  |}.

Definition clusters := objectService "fulfillment.v1" "Clusters" "Cluster".
Definition clusterOrders :=
  objectService "fulfillment.v1" "ClusterOrders" "ClusterOrder".
Definition clusterTemplates :=
  objectService "fulfillment.v1" "ClusterTemplates" "ClusterTemplate".
Definition hostClasses :=
  objectService "fulfillment.v1" "HostClasses" "HostClass".

Definition files : list FileDescriptor :=
  [{| file_path := "fulfillment/v1/cluster_orders_service.proto";
      file_services := [clusterOrders] |};
   {| file_path := "fulfillment/v1/cluster_templates_service.proto";
      file_services := [clusterTemplates] |};
   {| file_path := "fulfillment/v1/clusters_service.proto";
      file_services := [clusters] |};
   {| file_path := "fulfillment/v1/events_service.proto";
      file_services := [eventsService] |};
   {| file_path := "fulfillment/v1/host_classes_service.proto";
      file_services := [hostClasses] |}].

(** The names of the message types that a list of files needs: the input
    and the output of every method, and the type of every message
    field. *)
Definition typesOfMessage (m : MessageDescriptor) : list FullName :=
  md_full_name m :: omap FieldDescriptor_Message (md_fields m).

Definition typesOfMethod (m : MethodDescriptor) : list FullName :=
  typesOfMessage (mth_input m) ++ typesOfMessage (mth_output m).

Definition typesOfFiles (fs : list FileDescriptor) : list FullName :=
  fs ≫= (fun f => file_services f ≫= (fun s =>
    svc_methods s ≫= typesOfMethod)).

Definition registry : Registry :=
  {| GlobalFiles := files; GlobalTypes := typesOfFiles files |}.

(** ASCII versions of [strings.ToLower] and [strings.EqualFold]; they
    agree with the Go functions on ASCII strings. *)
Definition lowerChar (c : ascii) : ascii :=
  let n := N_of_ascii c in
  if (65 <=? n)%N && (n <=? 90)%N then ascii_of_N (n + 32) else c.

Fixpoint lower (s : string) : string :=
  match s with
  | EmptyString => EmptyString
  | String c rest => String (lowerChar c) (lower rest)
  end.

Definition asciiStrings : Strings :=
  {| ToLower := lower;
     EqualFold := fun s t => String.eqb (lower s) (lower t) |}.

(** A pluralizer that agrees with [pluralize.Client.Plural] on the names
    of the tests: [es] is added after a final [s], and [s] otherwise. *)
Fixpoint endsWithS (s : string) : bool :=
  match s with
  | EmptyString => false
  | String c EmptyString => bool_decide (c = "s"%char)
  | String _ rest => endsWithS rest
  end.

Definition pluralizer : Pluralizer :=
  {| Plural := fun s => if endsWithS s then s ++ "es" else s ++ "s" |}.

(** The server of the tests. Its state tells whether it is reachable.
    When it is not, every call fails and leaves the response as it is.
    Otherwise [List] answers two clusters, [Get] answers the cluster with
    the identifier of the request, [Update] and [Create] answer the
    object of the request, and every other method answers nothing. *)
Definition cluster (id : string) : Message :=
  MkMessage "fulfillment.v1.Cluster" {[ "id" := ValueOfString id ]}.

Definition unavailable : Error :=
  TransportError "rpc error: code = Unavailable desc = connection refused".

Definition respond (path : string) (request response : Message)
  : Message :=
  if String.eqb path "/fulfillment.v1.Clusters/List" then
    MkMessage (msg_type response)
      (<["items" := ValueOfList [ValueOfMessage (cluster "123");
                                 ValueOfMessage (cluster "456")]]>
         (<["size" := ValueOfScalar 2]>
            (<["total" := ValueOfScalar 2]> (msg_fields response))))
  else if String.eqb path "/fulfillment.v1.Clusters/Get" then
    match msg_fields request !! "id" with
    | Some (ValueOfString id) =>
        MkMessage (msg_type response)
          (<["object" := ValueOfMessage (cluster id)]>
             (msg_fields response))
    | _ => response
    end
  else if String.eqb path "/fulfillment.v1.Clusters/Update"
          || String.eqb path "/fulfillment.v1.Clusters/Create" then
    match msg_fields request !! "object" with
    | Some object =>
        MkMessage (msg_type response)
          (<["object" := object]> (msg_fields response))
    | None => response
    end
  else response.

Definition transport : Transport :=
  {| Server := bool;
     Invoke := fun reachable path request response =>
       if reachable then (reachable, respond path request response, None)
       else (reachable, response, Some unavailable) |}.
End Fulfillment.

(** The state after [Build]. *)
Definition newWorld `{!Transport} (srv : Server) : World :=
  {| heap := []; server := srv; calls := [];
     this := {| scanOnce := false; helpers := [] |} |}.

(** The states after [Build] with the server of the tests, reachable or
    not. *)
Definition reachable : @World Fulfillment.transport :=
  @newWorld Fulfillment.transport true.

Definition unreachable : @World Fulfillment.transport :=
  @newWorld Fulfillment.transport false.

(** ** The convention, as the specification words it *)

(** The message [m] has a field called [name] that satisfies [P]. *)
Definition hasField (m : MessageDescriptor) (name : Name)
           (P : FieldDescriptor -> Prop) : Prop :=
  ∃ f, Fields_ByName (md_fields m) name = Some f ∧ P f.

Definition singularString (f : FieldDescriptor) : Prop :=
  fd_cardinality f = Optional ∧ fd_kind f = StringKind.

Definition nonRepeatedString (f : FieldDescriptor) : Prop :=
  fd_cardinality f ≠ Repeated ∧ fd_kind f = StringKind.

Definition singularMessage (object : FullName) (f : FieldDescriptor) : Prop :=
  fd_cardinality f = Optional ∧ fd_kind f = MessageKind
  ∧ fd_type_name f = object.

Definition repeatedMessage (object : FullName) (f : FieldDescriptor) : Prop :=
  fd_cardinality f = Repeated ∧ fd_kind f = MessageKind
  ∧ fd_type_name f = object.

(** The four mandatory methods of a service. *)
Record Methods := {
  m_get : MethodDescriptor;
  m_list : MethodDescriptor;
  m_update : MethodDescriptor;
  m_delete : MethodDescriptor
}.

Definition declares (s : ServiceDescriptor) (ms : Methods) : Prop :=
  Methods_ByName (svc_methods s) "Get" = Some (m_get ms) ∧
  Methods_ByName (svc_methods s) "List" = Some (m_list ms) ∧
  Methods_ByName (svc_methods s) "Update" = Some (m_update ms) ∧
  Methods_ByName (svc_methods s) "Delete" = Some (m_delete ms).

(** The conditions on the shape of the fields, for the object type
    [object]. *)
Definition wellShaped (ms : Methods) (object : FullName) : Prop :=
  hasField (mth_input (m_get ms)) "id" singularString ∧
  hasField (mth_output (m_get ms)) "object" (singularMessage object) ∧
  hasField (mth_input (m_list ms)) "filter" nonRepeatedString ∧
  hasField (mth_output (m_list ms)) "items" (repeatedMessage object) ∧
  hasField (mth_input (m_update ms)) "object" (singularMessage object) ∧
  hasField (mth_output (m_update ms)) "object" (singularMessage object) ∧
  hasField (mth_input (m_delete ms)) "id" singularString.

Definition followsConvention (s : ServiceDescriptor) (object : FullName)
  : Prop :=
  ∃ ms, declares s ms ∧ wellShaped ms object.

(** The services on which the missing test for [nil] matters: the four
    methods are there and the request of [Get] is as expected, but the
    response of [Get] has no singular message field called [object]. *)
Definition unguarded (s : ServiceDescriptor) : Prop :=
  ∃ ms, declares s ms ∧
        hasField (mth_input (m_get ms)) "id" singularString ∧
        ¬ ∃ object,
            hasField (mth_output (m_get ms)) "object" (singularMessage object).

(** The message types for which [scanService] makes templates, in the
    order in which it makes them. *)
Definition templateTypes (ms : Methods) (object : FullName) : list FullName :=
  [object;
   md_full_name (mth_input (m_get ms));
   md_full_name (mth_output (m_get ms));
   md_full_name (mth_input (m_list ms));
   md_full_name (mth_output (m_list ms));
   md_full_name (mth_input (m_update ms));
   md_full_name (mth_output (m_update ms));
   md_full_name (mth_input (m_delete ms));
   md_full_name (mth_output (m_delete ms))].

Definition resolves `{!Registry} (ms : Methods) (object : FullName) : Prop :=
  Forall (fun type => type ∈ GlobalTypes) (templateTypes ms object).

(** The schema is consistent for the service [s]: when the service follows
    the convention, the message types of its templates, which the registry
    of files declares, are found in the registry of types. *)
Definition consistent `{!Registry} (s : ServiceDescriptor) : Prop :=
  ∀ ms object, declares s ms -> wellShaped ms object -> resolves ms object.

(** ** The two halves of [scanService]

    [inspect] is the part of [scanService] that looks at the descriptors,
    and [register] is the part that makes the templates and appends the
    object helper. They are used to reason about [scanService], which is
    equal to their composition (lemma [scanService_inspect]). *)
Record Shape := {
  sh_get : MethodDescriptor;
  sh_list : MethodDescriptor;
  sh_update : MethodDescriptor;
  sh_delete : MethodDescriptor;
  sh_getId : FieldDescriptor;
  sh_getObject : FieldDescriptor;
  sh_filter : FieldDescriptor;
  sh_items : FieldDescriptor;
  sh_in : FieldDescriptor;
  sh_out : FieldDescriptor;
  sh_deleteId : FieldDescriptor;
  sh_object : FullName
}.

Definition methodsOf (sh : Shape) : Methods :=
  {| m_get := sh_get sh; m_list := sh_list sh;
     m_update := sh_update sh; m_delete := sh_delete sh |}.

Inductive Verdict := Excluded | Crashes | Accepted (sh : Shape).

Definition inspect (serviceDesc : ServiceDescriptor) : Verdict :=
  let methodDescs := svc_methods serviceDesc in
  match Methods_ByName methodDescs listMethodName with
  | None => Excluded
  | Some listDesc =>
  match Methods_ByName methodDescs getMethodName with
  | None => Excluded
  | Some getDesc =>
  match Methods_ByName methodDescs updateMethodName with
  | None => Excluded
  | Some updateDesc =>
  match Methods_ByName methodDescs deleteMethodName with
  | None => Excluded
  | Some deleteDesc =>
  match getIdField (mth_input getDesc) with
  | None => Excluded
  | Some getRequestIdFieldDesc =>
  match getObjectField (mth_output getDesc) with
  | None => Crashes
  | Some getResponseObjectFieldDesc =>
  match FieldDescriptor_Message getResponseObjectFieldDesc with
  | None => Crashes
  | Some objectDesc =>
  match getFilterField (mth_input listDesc) with
  | None => Excluded
  | Some listRequestFilterFieldDesc =>
  match getItemsField (mth_output listDesc) with
  | None => Excluded
  | Some listResponseItemsFieldDesc =>
  if bool_decide (FieldDescriptor_Message listResponseItemsFieldDesc
                  ≠ Some objectDesc) then Excluded else
  match getObjectField (mth_input updateDesc) with
  | None => Excluded
  | Some updateRequestObjectFieldDesc =>
  if bool_decide (FieldDescriptor_Message updateRequestObjectFieldDesc
                  ≠ Some objectDesc) then Excluded else
  match getObjectField (mth_output updateDesc) with
  | None => Excluded
  | Some updateResponseObjectFieldDesc =>
  if bool_decide (FieldDescriptor_Message updateResponseObjectFieldDesc
                  ≠ Some objectDesc) then Excluded else
  match getIdField (mth_input deleteDesc) with
  | None => Excluded
  | Some deleteRequestIdFieldDesc =>
      Accepted {|
        sh_get := getDesc; sh_list := listDesc;
        sh_update := updateDesc; sh_delete := deleteDesc;
        sh_getId := getRequestIdFieldDesc;
        sh_getObject := getResponseObjectFieldDesc;
        sh_filter := listRequestFilterFieldDesc;
        sh_items := listResponseItemsFieldDesc;
        sh_in := updateRequestObjectFieldDesc;
        sh_out := updateResponseObjectFieldDesc;
        sh_deleteId := deleteRequestIdFieldDesc;
        sh_object := objectDesc |}
  end end end end end end end end end end end end.

(** The object helper that [scanService] appends when the first free
    location of the heap is [n]. *)
Definition helperOf (sh : Shape) (n : loc) : ObjectHelper :=
  {| oh_descriptor := sh_object sh;
     oh_template := n;
     oh_get := {|
       gi_methodInfo := {| mi_path := makeMethodPath (sh_get sh);
                           mi_request := n + 1; mi_response := n + 2 |};
       gi_id := sh_getId sh; gi_object := sh_getObject sh |};
     oh_list := {|
       li_methodInfo := {| mi_path := makeMethodPath (sh_list sh);
                           mi_request := n + 3; mi_response := n + 4 |};
       li_filter := sh_filter sh; li_items := sh_items sh |};
     oh_update := {|
       ui_methodInfo := {| mi_path := makeMethodPath (sh_update sh);
                           mi_request := n + 5; mi_response := n + 6 |};
       ui_in := sh_in sh; ui_out := sh_out sh |};
     oh_delete := {|
       di_methodInfo := {| mi_path := makeMethodPath (sh_delete sh);
                           mi_request := n + 7; mi_response := n + 8 |};
       di_id := sh_deleteId sh |} |}.

Section Register.
Context `{!Transport} `{!Registry}.

Definition register (sh : Shape) : M unit :=
  objectTemplate ← makeTemplate (sh_object sh);
  '(getRequestTemplate, getResponseTemplate)
    ← makeMethodTemplates (sh_get sh);
  '(listRequestTemplate, listResponseTemplate)
    ← makeMethodTemplates (sh_list sh);
  '(updateRequestTemplate, updateResponseTemplate)
    ← makeMethodTemplates (sh_update sh);
  '(deleteRequestTemplate, deleteResponseTemplate)
    ← makeMethodTemplates (sh_delete sh);
  appendHelper {|
    oh_descriptor := sh_object sh;
    oh_template := objectTemplate;
    oh_get := {|
      gi_methodInfo := {|
        mi_path := makeMethodPath (sh_get sh);
        mi_request := getRequestTemplate;
        mi_response := getResponseTemplate |};
      gi_id := sh_getId sh;
      gi_object := sh_getObject sh |};
    oh_list := {|
      li_methodInfo := {|
        mi_path := makeMethodPath (sh_list sh);
        mi_request := listRequestTemplate;
        mi_response := listResponseTemplate |};
      li_filter := sh_filter sh;
      li_items := sh_items sh |};
    oh_update := {|
      ui_methodInfo := {|
        mi_path := makeMethodPath (sh_update sh);
        mi_request := updateRequestTemplate;
        mi_response := updateResponseTemplate |};
      ui_in := sh_in sh;
      ui_out := sh_out sh |};
    oh_delete := {|
      di_methodInfo := {|
        mi_path := makeMethodPath (sh_delete sh);
        mi_request := deleteRequestTemplate;
        mi_response := deleteResponseTemplate |};
      di_id := sh_deleteId sh |}
  |}.

(** The state after a successful [register]. *)
Definition registered (sh : Shape) (w : World) : World :=
  {| heap := heap w
             ++ (Message_New
                   <$> templateTypes (methodsOf sh) (sh_object sh));
     server := server w; calls := calls w;
     this := {| scanOnce := scanOnce (this w);
                helpers := helpers (this w)
                           ++ [helperOf sh (length (heap w))] |} |}.
End Register.

(** ** Delete and Create

    The command line calls [Delete] and [Create] on the object helper.
    The package at hand records the [Delete] method of a service in
    [deleteInfo] but has no function that invokes it, and it does not look
    at the [Create] method at all. *)

Definition createMethodName : Name := "Create".

Record createInfo := {
  ci_methodInfo : methodInfo;
  ci_in : FieldDescriptor;
  ci_out : FieldDescriptor
}.

Definition createFailure : string := "failed to create object: ".

Section DeleteAndCreate.
Context `{!Transport} `{!Registry}.

(** Modelled from the spec: the operation [Delete] of the object helper,
    which is missing from the package. It is symmetric to [Get]: it
    clones the request template of the [Delete] method, sets its [id]
    field and invokes the method. The result is the error of the
    invocation, as the callers of [Delete] expect. *)
Definition Delete (c : ObjectHelper) (id : string) : M (option Error) :=
  request ← Clone (mi_request (di_methodInfo (oh_delete c)));
  setId request (di_id (oh_delete c)) id;;
  response ← Clone (mi_response (di_methodInfo (oh_delete c)));
  connection_Invoke (mi_path (di_methodInfo (oh_delete c)))
                    request response.

(** Modelled from the spec: the discovery of the optional [Create]
    method, which is missing from the package. The method is recorded
    when the service has it and its request and its response have an
    [object] field of the object type; otherwise nothing is recorded. *)
Definition scanCreate (serviceDesc : ServiceDescriptor)
           (objectDesc : FullName) : M (option createInfo) :=
  match Methods_ByName (svc_methods serviceDesc) createMethodName with
  | None => mret None
  | Some createDesc =>
  match getObjectField (mth_input createDesc) with
  | None => mret None
  | Some createRequestObjectFieldDesc =>
  if bool_decide (FieldDescriptor_Message createRequestObjectFieldDesc
                  ≠ Some objectDesc) then mret None else
  match getObjectField (mth_output createDesc) with
  | None => mret None
  | Some createResponseObjectFieldDesc =>
  if bool_decide (FieldDescriptor_Message createResponseObjectFieldDesc
                  ≠ Some objectDesc) then mret None else
    '(createRequestTemplate, createResponseTemplate)
      ← makeMethodTemplates createDesc;
    mret (Some {|
      ci_methodInfo := {|
        mi_path := makeMethodPath createDesc;
        mi_request := createRequestTemplate;
        mi_response := createResponseTemplate |};
      ci_in := createRequestObjectFieldDesc;
      ci_out := createResponseObjectFieldDesc |})
  end end end.

(** Modelled from the spec: the operation [Create] of the object helper,
    which is missing from the package. It is symmetric to [Update]: it
    clones the request template of the [Create] method, sets its
    [object] field, invokes the method and returns the [object] field of
    the response. What it does when the invocation fails is taken from
    [Update]; the specification does not describe it. *)
Definition Create (c : createInfo) (object : Message)
  : M (option Message * option Error) :=
  request ← Clone (mi_request (ci_methodInfo c));
  setObject request (ci_in c) object;;
  response ← Clone (mi_response (ci_methodInfo c));
  err ← connection_Invoke (mi_path (ci_methodInfo c)) request response;
  let err :=
    match err with
    | Some e => Some (Wrapped createFailure e)
    | None => None
    end in
  result ← getObject response (ci_out c);
  mret (Some result, err).
End DeleteAndCreate.

(** ** Readings of the specification *)

Section Readings.
Context `{!Transport} `{!Registry} `{!Pluralizer} `{!Strings}.

(** [scanService] appends an object helper for the type [object]. *)
Definition appends (s : ServiceDescriptor) (w : World) (object : FullName)
  : Prop :=
  ∃ helper w',
    scanService s w = Done (tt, w')
    ∧ oh_descriptor helper = object
    ∧ helpers (this w') = (helpers (this w) ++ [helper])%list.

(** A helper is appended exactly when the convention is followed, with no
    other condition. *)
Definition appendsIffConvention (s : ServiceDescriptor) (w : World) : Prop :=
  ∀ object, appends s w object ↔ followsConvention s object.

(** The result of [Singulars] has no duplicates. *)
Definition singularsDeduplicated (w : World) : Prop :=
  ∀ names w', Singulars w = Done (names, w') -> NoDup names.

(** The entries of [Plurals] are the plurals of the entries of
    [Singulars], position by position. *)
Definition pluralsFollowSingulars (w : World) : Prop :=
  ∀ singulars plurals w1 w2,
    Singulars w = Done (singulars, w1) ->
    Plurals w = Done (plurals, w2) ->
    ∀ i, plurals !! i = Plural <$> singulars !! i.
End Readings.

(** ** More registries *)

Module Registries.
Import Fulfillment.

(** A service with the four methods whose [Get] answers the object in a
    field called [user]. *)
Definition users : ServiceDescriptor :=
  {| svc_full_name := "accounts.v1.Users";
     svc_methods :=
       [listMethod "accounts.v1" "Users" "accounts.v1.User";
        method "accounts.v1.Users" "Get"
          (message "accounts.v1.UsersGetRequest" [idField])
          (message "accounts.v1.UsersGetResponse"
             [field "user" Optional MessageKind "accounts.v1.User"]);
        updateMethod "accounts.v1" "Users" "accounts.v1.User";
        deleteMethod "accounts.v1" "Users"] |}.

Definition accountsFiles : list FileDescriptor :=
  files ++ [{| file_path := "accounts/v1/users_service.proto";
               file_services := [users] |}].

Definition accounts : Registry :=
  {| GlobalFiles := accountsFiles;
     GlobalTypes := typesOfFiles accountsFiles |}.

(** Two packages that both have a message called [Cluster]. *)
Definition twoPackagesFiles : list FileDescriptor :=
  [{| file_path := "fulfillment/v1/clusters_service.proto";
      file_services := [clusters] |};
   {| file_path := "private/v1/clusters_service.proto";
      file_services :=
        [objectService "private.v1" "Clusters" "Cluster"] |}].

Definition twoPackages : Registry :=
  {| GlobalFiles := twoPackagesFiles;
     GlobalTypes := typesOfFiles twoPackagesFiles |}.

(** The files of the API, with no message type registered. *)
Definition untyped : Registry :=
  {| GlobalFiles := files; GlobalTypes := [] |}.

(** The service [Clusters] without its [Create] method. *)
Definition clustersWithoutCreate : ServiceDescriptor :=
  {| svc_full_name := "fulfillment.v1.Clusters";
     svc_methods :=
       [listMethod "fulfillment.v1" "Clusters" "fulfillment.v1.Cluster";
        getMethod "fulfillment.v1" "Clusters" "fulfillment.v1.Cluster";
        updateMethod "fulfillment.v1" "Clusters" "fulfillment.v1.Cluster";
        deleteMethod "fulfillment.v1" "Clusters"] |}.
End Registries.

(** ** The state after one remote invocation *)

Section Invoked.
Context `{!Transport}.

(** The state [w] with another heap. *)
Definition withHeap (w : World) (hp : list Message) : World :=
  {| heap := hp; server := server w; calls := calls w; this := this w |}.

(** The state in which an operation leaves [w]: the heap has two more
    messages, the request that was sent and the response as the transport
    left it, and the invocation is recorded. *)
Definition invoked (w : World) (path : string) (request : Message)
           (blank : Message) (srv : Server) (response : Message) : World :=
  {| heap := heap w ++ [request; response];
     server := srv;
     calls := calls w ++ [{| call_path := path;
                             call_request := request;
                             call_response := blank |}];
     this := this w |}.
End Invoked.

(** The message in the field [fd] of [m], when there is one: what
    [Message.Get] followed by [Value.Message] gives without a panic. *)
Definition objectOf (m : Message) (fd : FieldDescriptor) : option Message :=
  match Message_Get m fd with
  | ValueOfMessage o => Some o
  | _ => None
  end.

(** The wrapping that [Update] puts around the error of the transport. *)
Definition wrapUpdate (err : option Error) : option Error :=
  match err with
  | Some e => Some (Wrapped updateFailure e)
  | None => None
  end.

(** The wrapping that [Create] puts around the error of the transport. *)
Definition wrapCreate (err : option Error) : option Error :=
  match err with
  | Some e => Some (Wrapped createFailure e)
  | None => None
  end.

(** ** The service [Clusters] after the discovery *)

Definition clustersMethods : Methods :=
  {| m_get := Fulfillment.getMethod "fulfillment.v1" "Clusters"
                "fulfillment.v1.Cluster";
     m_list := Fulfillment.listMethod "fulfillment.v1" "Clusters"
                 "fulfillment.v1.Cluster";
     m_update := Fulfillment.updateMethod "fulfillment.v1" "Clusters"
                   "fulfillment.v1.Cluster";
     m_delete := Fulfillment.deleteMethod "fulfillment.v1" "Clusters" |}.

Definition clustersShape : Shape :=
  {| sh_get := m_get clustersMethods;
     sh_list := m_list clustersMethods;
     sh_update := m_update clustersMethods;
     sh_delete := m_delete clustersMethods;
     sh_getId := Fulfillment.idField;
     sh_getObject := Fulfillment.objectField "fulfillment.v1.Cluster";
     sh_filter := Fulfillment.field "filter" Optional StringKind "";
     sh_items :=
       Fulfillment.field "items" Repeated MessageKind "fulfillment.v1.Cluster";
     sh_in := Fulfillment.objectField "fulfillment.v1.Cluster";
     sh_out := Fulfillment.objectField "fulfillment.v1.Cluster";
     sh_deleteId := Fulfillment.idField;
     sh_object := "fulfillment.v1.Cluster" |}.

(** The state after the discovery in the registry of the API, with the
    server reachable or not. The services [ClusterOrders] and
    [ClusterTemplates] come first and take nine templates each, so that
    the templates of [Clusters] start at location 18. *)
Definition discovered (w : @World Fulfillment.transport)
  : @World Fulfillment.transport :=
  match @scanIfNeeded Fulfillment.transport Fulfillment.registry w with
  | Done (_, w') => w'
  | Panic _ => w
  end.

Definition scanned : @World Fulfillment.transport :=
  Eval cbv -[Fulfillment.transport] in discovered reachable.

Definition scannedDown : @World Fulfillment.transport :=
  Eval cbv -[Fulfillment.transport] in discovered unreachable.

(** The state after the discovery in the registry of the two packages. *)
Definition scannedTwoPackages : @World Fulfillment.transport :=
  Eval cbv -[Fulfillment.transport] in
  match @scanIfNeeded Fulfillment.transport Registries.twoPackages reachable
  with
  | Done (_, w') => w'
  | Panic _ => reachable
  end.

Definition clusterHelper : ObjectHelper := helperOf clustersShape 18.

(** The templates of the methods of [Clusters]. *)
Definition listRequest : Message :=
  Message_New "fulfillment.v1.ClustersListRequest".
Definition listResponse : Message :=
  Message_New "fulfillment.v1.ClustersListResponse".
Definition getRequest : Message :=
  Message_New "fulfillment.v1.ClustersGetRequest".
Definition getResponse : Message :=
  Message_New "fulfillment.v1.ClustersGetResponse".
Definition updateRequest : Message :=
  Message_New "fulfillment.v1.ClustersUpdateRequest".
Definition updateResponse : Message :=
  Message_New "fulfillment.v1.ClustersUpdateResponse".
Definition deleteRequest : Message :=
  Message_New "fulfillment.v1.ClustersDeleteRequest".
Definition deleteResponse : Message :=
  Message_New "fulfillment.v1.ClustersDeleteResponse".
Definition createRequest : Message :=
  Message_New "fulfillment.v1.ClustersCreateRequest".
Definition createResponse : Message :=
  Message_New "fulfillment.v1.ClustersCreateResponse".

(** The state after the discovery and the recording of the [Create]
    method of [Clusters]. *)
Definition scannedWithCreate : @World Fulfillment.transport :=
  withHeap scanned (heap scanned ++ [createRequest; createResponse]).

(** The same state when the server cannot be reached. *)
Definition scannedDownWithCreate : @World Fulfillment.transport :=
  withHeap scannedDown (heap scannedDown ++ [createRequest; createResponse]).


(** The record of the [Create] method of [Clusters], with its templates at
    the first two free locations after the discovery. *)
Definition clustersCreate : createInfo :=
  {| ci_methodInfo :=
       {| mi_path := "/fulfillment.v1.Clusters/Create";
          mi_request := 36; mi_response := 37 |};
     ci_in := Fulfillment.objectField "fulfillment.v1.Cluster";
     ci_out := Fulfillment.objectField "fulfillment.v1.Cluster" |}.

(** ** The services of the registry and the command that reads objects *)

(** The services of all the files, in the order of the scan. *)
Definition allServices `{!Registry} : list ServiceDescriptor :=
  GlobalFiles ≫= file_services.

(** The object type for which [scanService] appends a helper, if any. *)
Definition objectTypeOf (s : ServiceDescriptor) : option FullName :=
  match inspect s with
  | Accepted sh => Some (sh_object sh)
  | _ => None
  end.

(** The nine template locations of an object helper. *)
Definition templatesOfHelper (h : ObjectHelper) : list loc :=
  [oh_template h;
   mi_request (gi_methodInfo (oh_get h));
   mi_response (gi_methodInfo (oh_get h));
   mi_request (li_methodInfo (oh_list h));
   mi_response (li_methodInfo (oh_list h));
   mi_request (ui_methodInfo (oh_update h));
   mi_response (ui_methodInfo (oh_update h));
   mi_request (di_methodInfo (oh_delete h));
   mi_response (di_methodInfo (oh_delete h))].

(** The services that the discovery can handle: the missing test for
    [nil] does not matter for them, and if they follow the convention the
    types of their templates resolve. *)
Definition scannable `{!Registry} (s : ServiceDescriptor) : Prop :=
  ¬ unguarded s
  ∧ ∀ ms object, declares s ms -> wellShaped ms object -> resolves ms object.

(** ** The command that reads objects *)

(** The part of the [runnerContext] of the command [get] that its
    functions [get] and [list] use. *)
Record runnerContext := {
  rc_filter : string;
  rc_includeDeleted : bool;
  rc_helper : ObjectHelper
}.

(** The request that [Get] sends for an identifier. *)
Definition requestFor (c : runnerContext) (requestTemplate : Message)
           (id : string) : Message :=
  Message_Set requestTemplate (gi_id (oh_get (rc_helper c)))
              (ValueOfString id).

Definition notDeletedFilter : string :=
  "!has(this.metadata.deletion_timestamp)".

Section GetCommand.
Context `{!Transport}.

(** The loop of [get] from the index [i] on. [objects] is the slice that
    the loop fills; an element that is [None] is a [nil] message. *)
Fixpoint getFrom (c : runnerContext) (i : nat) (ids : list string)
         (objects : list (option Message))
  : M (option (list (option Message)) * option Error) :=
  match ids with
  | [] => mret (Some objects, None)
  | id :: rest =>
      '(object, err) ← Get (rc_helper c) id;
      let objects := <[i := object]> objects in
      match err with
      | Some e => mret (None, Some e)
      | None => getFrom c (S i) rest objects
      end
  end.

Definition runnerContext_get (c : runnerContext) (ids : list string)
  : M (option (list (option Message)) * option Error) :=
  getFrom c 0 ids (replicate (length ids) None).

(** The server after it has answered the requests of [Get] for the
    identifiers [ids], one after the other and all without an error;
    [None] when one of them is answered with an error. *)
Fixpoint answerAll (c : runnerContext) (requestTemplate blank : Message)
         (srv : Server) (ids : list string) : option Server :=
  match ids with
  | [] => Some srv
  | id :: rest =>
      match Invoke srv (mi_path (gi_methodInfo (oh_get (rc_helper c))))
                   (requestFor c requestTemplate id) blank with
      | (srv', _, None) => answerAll c requestTemplate blank srv' rest
      | (_, _, Some _) => None
      end
  end.

(** The options with which [list] calls [List]. *)
Definition listOptions (c : runnerContext) : ListOptions :=
  let options := {| Filter := "" |} in
  let options :=
    if bool_decide (rc_filter c ≠ "")
    then {| Filter := rc_filter c |} else options in
  if negb (rc_includeDeleted c) then
    if bool_decide (Filter options ≠ "")
    then {| Filter := notDeletedFilter +:+ " && (" +:+ Filter options +:+ ")" |}
    else {| Filter := notDeletedFilter |}
  else options.

Definition runnerContext_list (c : runnerContext)
  : M (option (list Message) * option Error) :=
  List_ (rc_helper c) (listOptions c).
End GetCommand.

(** ** The token source that runs a script *)

(** [oauth2.Token]: the access token and its expiry, which is [None] when
    it is not known. Times are seconds since the epoch. *)
Record Token := {
  AccessToken : string;
  Expiry : option Z
}.

(** What the token source is built from, and what it finds in its
    environment: the functions that load and save the token, the execution
    of the script by the shell, the parser of JSON web tokens and the
    clock. The storage and the script share the state [Store].
    [ParseUnverified] gives the claims of a token or an error;
    [GetExpirationTime] gives the expiration time that the claims hold,
    which is [None] (the [nil] date) when they hold none, or an error when
    what they hold is not a time. *)
Class TokenEnvironment := {
  Store : Type;
  loadTokenFunc : Store -> Store * (string * option Error);
  saveTokenFunc : string -> Store -> Store * option Error;
  runScript : string -> Store -> Store * (string * option Error);
  Claims : Type;
  ParseUnverified : string -> Claims + Error;
  GetExpirationTime : Claims -> option Z + Error;
  TrimSpace : string -> string;
  now : Z
}.

(** The state of the token source, with the record of what it did: the
    tokens that it saved, latest last, and how often it ran the script. *)
Record TokenWorld `{!TokenEnvironment} := {
  tw_store : Store;
  tw_saved : list string;
  tw_runs : nat
}.

Section ScriptTokenSource.
Context `{!TokenEnvironment}.

Definition T (A : Type) : Type := TokenWorld -> Outcome (A * TokenWorld).

Global Instance T_ret : MRet T := fun A a w => Done (a, w).

Global Instance T_bind : MBind T := fun A B f m w =>
  match m w with
  | Done (a, w') => f a w'
  | Panic reason => Panic reason
  end.

(** The result of a step that does not touch the state. *)
Definition outcome {A} (o : Outcome A) : T A := fun w =>
  match o with
  | Done a => Done (a, w)
  | Panic reason => Panic reason
  end.

Definition loadToken : T (string * option Error) := fun w =>
  let '(st, result) := loadTokenFunc (tw_store w) in
  Done (result,
        {| tw_store := st; tw_saved := tw_saved w; tw_runs := tw_runs w |}).

Definition saveToken (token : string) : T (option Error) := fun w =>
  let '(st, err) := saveTokenFunc token (tw_store w) in
  Done (err,
        {| tw_store := st; tw_saved := tw_saved w ++ [token];
           tw_runs := tw_runs w |}).

Definition generateToken (script : string) : T (string * option Error) :=
  fun w =>
    let '(st, (out, err)) := runScript script (tw_store w) in
    let w' := {| tw_store := st; tw_saved := tw_saved w;
                 tw_runs := S (tw_runs w) |} in
    match err with
    | Some e =>
        Done (("",
               Some (Wrapped ("failed to execute token generation script '"
                                +:+ script +:+ "': ") e)), w')
    | None => Done ((TrimSpace out, None), w')
    end.

(** [scriptTokenSource.parseToken]. When the claims hold no expiration
    time, [GetExpirationTime] returns the [nil] date with no error, and the
    function panics when it reads the time of that date. *)
Definition parseToken (tokenText : string) : Outcome (Token + Error) :=
  match ParseUnverified tokenText with
  | inr e => Done (inr e)
  | inl tokenClaims =>
      match GetExpirationTime tokenClaims with
      | inr e => Done (inr e)
      | inl None => Panic nilDereference
      | inl (Some tokenEpirationTime) =>
          Done (inl {| AccessToken := tokenText;
                       Expiry := Some tokenEpirationTime |})
      end
  end.

(** [Time.Before] on the expiry of a token; a token without expiry has the
    zero time, which is before every moment. *)
Definition expired (token : Token) : bool :=
  match Expiry token with
  | Some t => bool_decide (t < now)%Z
  | None => true
  end.

(** [scriptTokenSource.Token]. *)
Definition Token_ (script : string) : T (option Token * option Error) :=
  '(rawToken, err) ← loadToken;
  match err with
  | Some e => mret (None, Some e)
  | None =>
  '(rawToken, err) ←
     (if bool_decide (rawToken = "")
      then generateToken script else mret (rawToken, None));
  match err with
  | Some e => mret (None, Some e)
  | None =>
  parsed ← outcome (parseToken rawToken);
  match parsed with
  | inr _ =>
      '(rawToken, err) ← generateToken script;
      match err with
      | Some e => mret (None, Some e)
      | None =>
          mret (Some {| AccessToken := rawToken; Expiry := None |}, None)
      end
  | inl parsedToken =>
      if expired parsedToken then
        '(rawToken, err) ← generateToken script;
        match err with
        | Some e => mret (None, Some e)
        | None =>
            parsed ← outcome (parseToken rawToken);
            match parsed with
            | inr _ =>
                mret (Some {| AccessToken := rawToken; Expiry := None |},
                      None)
            | inl parsedToken =>
                err ← saveToken rawToken;
                match err with
                | Some e => mret (None, Some e)
                | None => mret (Some parsedToken, None)
                end
            end
        end
      else
        err ← saveToken rawToken;
        match err with
        | Some e => mret (None, Some e)
        | None => mret (Some parsedToken, None)
        end
  end
  end
  end.
End ScriptTokenSource.
(** ** A concrete token environment *)

(** The storage holds the text of the token and the number of times the
    script has run. The claims of a token are its expiration time, if it
    has one. The script [mint] prints a token that is valid until the
    moment 200, surrounded by white space that [TrimSpace] removes; every
    other script prints a word that is not a token. The clock shows the
    moment 100. *)
Module Tokens.

Definition parse (text : string) : option Z + Error :=
  if String.eqb text "jwt-until-200" then inl (Some 200%Z)
  else if String.eqb text "jwt-until-50" then inl (Some 50%Z)
  else if String.eqb text "jwt-without-exp" then inl None
  else inr (TransportError "token is malformed").

Definition trim (text : string) : string :=
  if String.eqb text " jwt-until-200 " then "jwt-until-200" else text.

Definition environment : TokenEnvironment :=
  {| Store := string * nat;
     loadTokenFunc := fun st => (st, (fst st, None));
     saveTokenFunc := fun token st => ((token, snd st), None);
     runScript := fun script st =>
       ((fst st, S (snd st)),
        (if String.eqb script "mint" then " jwt-until-200 "
         else "opaque", None));
     Claims := option Z;
     ParseUnverified := parse;
     GetExpirationTime := inl;
     TrimSpace := trim;
     now := 100%Z |}.

Definition holding (text : string) : @TokenWorld environment :=
  @Build_TokenWorld environment (text, 0) [] 0.

End Tokens.

(** ** More concrete states *)

(** The state after the scan of the registry of the API, before the
    [sync.Once] is marked as done. *)
Definition scannedOnly : @World Fulfillment.transport :=
  Eval cbv -[Fulfillment.transport] in
  match @scan Fulfillment.transport Fulfillment.registry reachable with
  | Done (_, w') => w'
  | Panic _ => reachable
  end.

(** The command [get] on the clusters, with and without the deleted
    ones. *)
Definition getClusters (filter : string) (includeDeleted : bool)
  : runnerContext :=
  {| rc_filter := filter; rc_includeDeleted := includeDeleted;
     rc_helper := clusterHelper |}.

(** The result of a computation, when it is not a panic. *)
Definition fst_of `{!Transport} {A} (o : Outcome (A * World)) : option A :=
  match o with
  | Done (a, _) => Some a
  | Panic _ => None
  end.


(** ** The cells of the table that show a value of an enumerated type *)

(** The part of an enum value descriptor that the rendering uses. *)
Record EnumValueDescriptor := {
  ev_name : Name;
  ev_number : Z
}.

(** [EnumValueDescriptors.ByNumber]: the first value that has the number,
    or [nil]. *)
Definition ByNumber (valueDescs : list EnumValueDescriptor) (n : Z)
  : option EnumValueDescriptor :=
  List.find (fun v => bool_decide (ev_number v = n)) valueDescs.

(** The conversion [protoreflect.EnumNumber(val)] of the 64 bit integer of
    the expression language to the 32 bit number of an enum value. *)
Definition EnumNumber (val : Z) : Z :=
  ((val + 2 ^ 31) `mod` 2 ^ 32 - 2 ^ 31)%Z.

(** [strings.LastIndex] for a separator of one byte; [None] is the result
    [-1]. *)
Fixpoint LastIndex (s : string) (sep : ascii) : option nat :=
  match s with
  | "" => None
  | String c rest =>
      match LastIndex rest sep with
      | Some i => Some (S i)
      | None => if bool_decide (c = sep) then Some 0 else None
      end
  end.

(** [strings.HasPrefix]. *)
Definition HasPrefix (s prefix : string) : bool := String.prefix prefix s.

(** The slices [s[0:i]] and [s[i:]] of a string; [None] when the index is
    out of range, where Go panics. *)
Fixpoint sliceTo (i : nat) (s : string) : option string :=
  match i, s with
  | 0, _ => Some ""
  | S i, String c rest => String c <$> sliceTo i rest
  | S _, "" => None
  end.

Fixpoint sliceFrom (i : nat) (s : string) : option string :=
  match i, s with
  | 0, _ => Some s
  | S i, String _ rest => sliceFrom i rest
  | S _, "" => None
  end.

Definition sliceOutOfRange : string := "slice bounds out of range".

(** The [io.Writer] that receives the text of the cell: [Fprintf] is
    [fmt.Fprintf] on it, applied to the text already formatted. *)
Class Writer := {
  Sink : Type;
  Fprintf : string -> Sink -> Sink * option Error
}.

(** [renderTableCellEnumType] of the command [get]. The value [val] is a
    64 bit integer. When the number is not one of the enum the function
    writes [UNKNOWN:] and the number, and then goes on to ask the [nil]
    descriptor for its name. *)
Definition renderTableCellEnumType `{!Writer} (writer : Sink) (val : Z)
           (valueDescs : list EnumValueDescriptor)
  : Outcome (option Error * Sink) :=
  match ByNumber valueDescs (EnumNumber val) with
  | None =>
      let '(writer, err) := Fprintf ("UNKNOWN:" +:+ pretty val) writer in
      match err with
      | Some e => Done (Some e, writer)
      | None => Panic nilDereference
      end
  | Some valueDesc =>
      let valueTxt := ev_name valueDesc in
      match ByNumber valueDescs 0 with
      | None => Panic nilDereference
      | Some unspecifiedDesc =>
          let unspecifiedText := ev_name unspecifiedDesc in
          let stripped : Outcome string :=
            match LastIndex unspecifiedText "_" with
            | Some prefixIndex =>
                match sliceTo prefixIndex unspecifiedText with
                | None => Panic sliceOutOfRange
                | Some prefixTxt =>
                    if HasPrefix valueTxt prefixTxt then
                      match sliceFrom (prefixIndex + 1) valueTxt with
                      | Some rest => Done rest
                      | None => Panic sliceOutOfRange
                      end
                    else Done valueTxt
                end
            | None => Done valueTxt
            end in
          match stripped with
          | Done valueTxt =>
              let '(writer, err) := Fprintf valueTxt writer in
              Done (err, writer)
          | Panic reason => Panic reason
          end
      end
  end.

(** What a cell is when the text [text] is written to [writer]. *)
Definition written `{!Writer} (writer : Sink) (text : string)
  : Outcome (option Error * Sink) :=
  let '(writer, err) := Fprintf text writer in Done (err, writer).

(** A writer that appends to a buffer and never fails, and the states of
    a cluster as an enum that follows the style guide, but for its last
    value, whose name is the bare prefix. *)
Module Cells.

Definition buffer : Writer :=
  {| Sink := string; Fprintf := fun text sink => (sink +:+ text, None) |}.

Definition clusterStates : list EnumValueDescriptor :=
  [{| ev_name := "CLUSTER_STATE_UNSPECIFIED"; ev_number := 0 |};
   {| ev_name := "CLUSTER_STATE_PROGRESSING"; ev_number := 1 |};
   {| ev_name := "CLUSTER_STATE_READY"; ev_number := 2 |};
   {| ev_name := "CLUSTER_STATE"; ev_number := 3 |}].

End Cells.
(** * Properties *)

Open Scope nat_scope.
Open Scope list_scope.

(** A proof that a concrete message has a field of a given shape. *)
Ltac field_shape :=
  eexists; split; [reflexivity|]; repeat split; (reflexivity || discriminate).

Ltac in_registry :=
  cbv beta; apply (bool_decide_unpack _); vm_cast_no_check I.

(** A proof of a closed equation by evaluation of its left side. *)
Ltac by_computation :=
  match goal with
  | |- ?lhs = ?rhs => vm_cast_no_check (@eq_refl _ rhs)
  end.

(** ** The order of strings *)

Lemma ascii_compare_Lt_trans (x y z : ascii) :
  Ascii.compare x y = Lt -> Ascii.compare y z = Lt -> Ascii.compare x z = Lt.
Proof. unfold Ascii.compare. rewrite !N.compare_lt_iff. lia. Qed.

Lemma string_compare_refl (a : string) : String.compare a a = Eq.
Proof.
  induction a as [|x a IH]; simpl; [done|].
  unfold Ascii.compare. by rewrite N.compare_refl.
Qed.

Lemma string_compare_trans (a b c : string) :
  String.compare a b ≠ Gt -> String.compare b c ≠ Gt ->
  String.compare a c ≠ Gt.
Proof.
  revert b c. induction a as [|x a IH]; intros [|y b] [|z c]; simpl; try done.
  destruct (Ascii.compare x y) eqn:Hxy; [| |done].
  - apply Ascii.compare_eq_iff in Hxy as ->.
    destruct (Ascii.compare y z) eqn:Hyz; [|done..].
    apply IH.
  - destruct (Ascii.compare y z) eqn:Hyz; [| |done].
    + apply Ascii.compare_eq_iff in Hyz as <-. by rewrite Hxy.
    + by rewrite (ascii_compare_Lt_trans x y z).
Qed.

Global Instance string_le_refl : Reflexive string_le.
Proof.
  intros a. unfold string_le, String.leb. by rewrite string_compare_refl.
Qed.

Global Instance string_le_trans : Transitive string_le.
Proof.
  intros a b c. unfold string_le, String.leb.
  pose proof (string_compare_trans a b c) as Habc.
  destruct (String.compare a b), (String.compare b c), (String.compare a c);
    try done; intros _ _; exfalso; by apply Habc.
Qed.

Global Instance string_le_total : Total string_le.
Proof. intros a b. apply String.leb_total. Qed.

Global Instance string_le_antisym : AntiSymm eq string_le.
Proof. intros a b. apply String.leb_antisym. Qed.

Lemma sort_Strings_Sorted (l : list string) :
  StronglySorted string_le (sort_Strings l).
Proof. apply StronglySorted_merge_sort; apply _. Qed.

Lemma sort_Strings_Permutation (l : list string) : sort_Strings l ≡ₚ l.
Proof. apply merge_sort_Permutation. Qed.

(** Sorting has one possible result, so that [sort_Strings] gives what the
    sorting algorithm of the Go library gives. *)
Lemma sort_Strings_unique (l sorted : list string) :
  StronglySorted string_le sorted -> sorted ≡ₚ l -> sorted = sort_Strings l.
Proof.
  intros Hsorted Hperm.
  apply (StronglySorted_unique string_le); [done| |].
  - apply sort_Strings_Sorted.
  - by rewrite sort_Strings_Permutation.
Qed.

(** ** The tests on the fields *)

Lemma getIdField_Some m f :
  getIdField m = Some f ↔
  Fields_ByName (md_fields m) "id" = Some f ∧ singularString f.
Proof.
  unfold getIdField, singularString, idFieldName.
  destruct (Fields_ByName _ _) as [g|]; [|by split; [|intros [? _]]].
  repeat case_bool_decide; split; try done;
    try (intros [[= ->] ?]; intuition congruence);
    try (intros [= ->]; intuition congruence).
Qed.

Lemma getObjectField_Some m f :
  getObjectField m = Some f ↔
  Fields_ByName (md_fields m) "object" = Some f ∧
  fd_cardinality f = Optional ∧ fd_kind f = MessageKind.
Proof.
  unfold getObjectField, objectFieldName.
  destruct (Fields_ByName _ _) as [g|]; [|by split; [|intros [? _]]].
  repeat case_bool_decide; split; try done;
    try (intros [[= ->] ?]; intuition congruence);
    try (intros [= ->]; intuition congruence).
Qed.

Lemma getFilterField_Some m f :
  getFilterField m = Some f ↔
  Fields_ByName (md_fields m) "filter" = Some f ∧ nonRepeatedString f.
Proof.
  unfold getFilterField, nonRepeatedString, filterFieldName.
  destruct (Fields_ByName _ _) as [g|]; [|by split; [|intros [? _]]].
  repeat case_bool_decide; split; try done;
    try (intros [[= ->] ?]; intuition congruence);
    try (intros [= ->]; intuition congruence).
Qed.

Lemma getItemsField_Some m f :
  getItemsField m = Some f ↔
  Fields_ByName (md_fields m) "items" = Some f ∧
  fd_cardinality f = Repeated ∧ fd_kind f = MessageKind.
Proof.
  unfold getItemsField, itemsFieldName.
  destruct (Fields_ByName _ _) as [g|]; [|by split; [|intros [? _]]].
  repeat case_bool_decide; split; try done;
    try (intros [[= ->] ?]; intuition congruence);
    try (intros [= ->]; intuition congruence).
Qed.

(** A field of message kind has a message descriptor. *)
Lemma Message_of_MessageKind f :
  fd_kind f = MessageKind ->
  FieldDescriptor_Message f = Some (fd_type_name f).
Proof. unfold FieldDescriptor_Message. by intros ->. Qed.

Lemma getObjectField_typed m f object :
  getObjectField m = Some f ∧ FieldDescriptor_Message f = Some object ↔
  Fields_ByName (md_fields m) "object" = Some f ∧ singularMessage object f.
Proof.
  rewrite getObjectField_Some. unfold singularMessage. split.
  - intros [(Hf & Hc & Hk) Hm]. rewrite Message_of_MessageKind in Hm by done.
    by injection Hm as <-.
  - intros (Hf & Hc & Hk & <-). by rewrite Message_of_MessageKind.
Qed.

Lemma getItemsField_typed m f object :
  getItemsField m = Some f ∧ FieldDescriptor_Message f = Some object ↔
  Fields_ByName (md_fields m) "items" = Some f ∧ repeatedMessage object f.
Proof.
  rewrite getItemsField_Some. unfold repeatedMessage. split.
  - intros [(Hf & Hc & Hk) Hm]. rewrite Message_of_MessageKind in Hm by done.
    by injection Hm as <-.
  - intros (Hf & Hc & Hk & <-). by rewrite Message_of_MessageKind.
Qed.

(** ** What [inspect] decides *)

Lemma inspect_Accepted s sh :
  inspect s = Accepted sh ->
  declares s (methodsOf sh) ∧ wellShaped (methodsOf sh) (sh_object sh).
Proof.
  unfold inspect, getMethodName, listMethodName, updateMethodName,
    deleteMethodName.
  intros Hs. repeat case_match; try discriminate.
  repeat case_bool_decide; try discriminate.
  injection Hs as <-. cbn.
  repeat match goal with
         | Hnn : ¬ _ ≠ _ |- _ => apply dec_stable in Hnn
         end.
  split; [done|]. unfold wellShaped, hasField. cbn.
  repeat split.
  - eexists; by apply getIdField_Some.
  - eexists; by apply getObjectField_typed.
  - eexists; by apply getFilterField_Some.
  - eexists; by apply getItemsField_typed.
  - eexists; by apply getObjectField_typed.
  - eexists; by apply getObjectField_typed.
  - eexists; by apply getIdField_Some.
Qed.

Lemma followsConvention_inspect s ms object :
  declares s ms -> wellShaped ms object ->
  ∃ sh, inspect s = Accepted sh ∧ methodsOf sh = ms ∧ sh_object sh = object.
Proof.
  intros (Hget & Hlist & Hupdate & Hdelete).
  intros ((fi & Hfi) & (fo & Hfo) & (ff & Hff) & (ft & Hft)
            & (fu & Hfu) & (fv & Hfv) & (fd & Hfd)).
  apply getIdField_Some in Hfi, Hfd. apply getFilterField_Some in Hff.
  apply getObjectField_typed in Hfo as [Hfo Hmo], Hfu as [Hfu Hmu],
    Hfv as [Hfv Hmv].
  apply getItemsField_typed in Hft as [Hft Hmt].
  unfold inspect, getMethodName, listMethodName, updateMethodName,
    deleteMethodName.
  rewrite Hget, Hlist, Hupdate, Hdelete, Hfi, Hfo, Hmo, Hff, Hft, Hmt,
    Hfu, Hmu, Hfv, Hmv, Hfd.
  rewrite !bool_decide_eq_false_2 by (by intros []).
  eexists. split; [done|]. by destruct ms.
Qed.

Lemma inspect_Crashes s : inspect s = Crashes ↔ unguarded s.
Proof.
  split.
  - unfold inspect, getMethodName, listMethodName, updateMethodName,
      deleteMethodName.
    intros Hs. repeat case_match; try discriminate;
                 repeat case_bool_decide; try discriminate.
    + match goal with
      | Hf : getObjectField _ = Some ?f,
        Hm : FieldDescriptor_Message ?f = None |- _ =>
          apply getObjectField_Some in Hf as (_ & _ & Hk);
          rewrite Message_of_MessageKind in Hm by done; discriminate
      end.
    + match goal with
      | Hg : Methods_ByName _ "Get" = Some ?g,
        Hl : Methods_ByName _ "List" = Some ?l,
        Hu : Methods_ByName _ "Update" = Some ?u,
        Hd : Methods_ByName _ "Delete" = Some ?d |- _ =>
          exists {| m_get := g; m_list := l; m_update := u; m_delete := d |}
      end.
      split; [done|]. cbn. split.
      * eexists; by apply getIdField_Some.
      * intros (object & fo & Hfo).
        apply getObjectField_typed in Hfo as [Hfo _]. congruence.
  - intros (ms & (Hget & Hlist & Hupdate & Hdelete) & (fi & Hfi) & Hno).
    apply getIdField_Some in Hfi.
    unfold inspect, getMethodName, listMethodName, updateMethodName,
      deleteMethodName.
    rewrite Hget, Hlist, Hupdate, Hdelete, Hfi.
    destruct (getObjectField _) as [f|] eqn:Hf; [|done].
    destruct (FieldDescriptor_Message f) as [object|] eqn:Hm; [|done].
    destruct Hno. exists object, f. by apply getObjectField_typed.
Qed.

Lemma declares_unique s ms ms' : declares s ms -> declares s ms' -> ms = ms'.
Proof.
  intros (Hg & Hl & Hu & Hd) (Hg' & Hl' & Hu' & Hd').
  destruct ms, ms'; cbn in *. congruence.
Qed.

(** ** What [register] does *)

Section RegisterFacts.
Context `{!Transport} `{!Registry}.

Lemma scanService_inspect s :
  scanService s =
  match inspect s with
  | Excluded => mret tt
  | Crashes => panic nilDereference
  | Accepted sh => register sh
  end.
Proof.
  unfold scanService, inspect.
  repeat (case_match; try reflexivity).
Qed.

Lemma makeTemplate_found t w :
  t ∈ GlobalTypes ->
  makeTemplate t w =
  Done (length (heap w),
        {| heap := heap w ++ [Message_New t]; server := server w;
           calls := calls w; this := this w |}).
Proof.
  intros Ht. unfold makeTemplate. by rewrite bool_decide_eq_true_2.
Qed.

Lemma makeTemplate_missing t w :
  t ∉ GlobalTypes -> makeTemplate t w = Panic "proto: not found".
Proof.
  intros Ht. unfold makeTemplate. by rewrite bool_decide_eq_false_2.
Qed.

Lemma register_resolves sh w :
  resolves (methodsOf sh) (sh_object sh) ->
  register sh w = Done (tt, registered sh w).
Proof.
  unfold resolves, templateTypes. rewrite !Forall_cons. cbn.
  intros (Ht0 & Ht1 & Ht2 & Ht3 & Ht4 & Ht5 & Ht6 & Ht7 & Ht8 & _).
  unfold register, makeMethodTemplates, mbind, M_bind.
  repeat (rewrite makeTemplate_found by assumption; cbn [heap mret M_ret]).
  unfold appendHelper, mbind, M_bind, getThis, setThis, helperOf,
    registered.
  cbn. rewrite <- !app_assoc. cbn. rewrite !length_app. cbn.
  repeat f_equal; lia.
Qed.

Lemma register_unresolved sh w :
  ¬ resolves (methodsOf sh) (sh_object sh) ->
  register sh w = Panic "proto: not found".
Proof.
  unfold resolves, templateTypes. rewrite !Forall_cons. cbn. intros Hn.
  unfold register, makeMethodTemplates, mbind, M_bind.
  repeat
    match goal with
    | |- context [makeTemplate ?t ?w] =>
        destruct (decide (t ∈ GlobalTypes));
        [rewrite (makeTemplate_found t w) by assumption;
         cbn [heap mret M_ret]
        |by rewrite (makeTemplate_missing t w) by assumption]
    end.
  exfalso. apply Hn. repeat split; try assumption. constructor.
Qed.
End RegisterFacts.

(** ** Discovery of one service *)

Section ScanService.
Context `{!Transport} `{!Registry}.

Global Instance resolves_dec ms object : Decision (resolves ms object).
Proof. unfold resolves. apply _. Defined.

Lemma not_appended (hs : list ObjectHelper) helper :
  hs ≠ (hs ++ [helper])%list.
Proof.
  intros Heq. apply (f_equal length) in Heq.
  rewrite length_app in Heq. cbn in Heq. lia.
Qed.

(** C1 (what the code does instead): when a service declares the four
    methods and the request of [Get] has its [id] field, but the response
    of [Get] has no singular message field called [object], scanning the
    service does not skip it: it panics, because the result of
    [getObjectField] is used without a test for [nil]. *)
Theorem scanService_panics_without_object s w :
  unguarded s -> scanService s w = Panic nilDereference.
Proof.
  intros Hs. rewrite scanService_inspect.
  by apply inspect_Crashes in Hs as ->.
Qed.

(** What [scanService] does in any registry: it appends a descriptor for
    an object type exactly when the service declares [Get], [List],
    [Update] and [Delete], the fields have the shapes of the convention
    for that object type, and the message types of the templates resolve
    in the type registry. When the convention is followed but a type does
    not resolve, the scan panics. A service that does not follow the
    convention is left out without any other effect, provided that the
    failed test is not the unguarded one on the response of [Get]. *)
Lemma scanService_characterisation s w :
  (∀ object,
      appends s w object ↔
      ∃ ms, declares s ms ∧ wellShaped ms object ∧ resolves ms object)
  ∧ (∀ ms object,
        declares s ms -> wellShaped ms object -> ¬ resolves ms object ->
        scanService s w = Panic "proto: not found")
  ∧ (¬ unguarded s -> (∀ object, ¬ followsConvention s object) ->
     scanService s w = Done (tt, w)).
Proof.
  split; [|split].
  - intros object. split.
    + intros (helper & w' & Hscan & Hobject & Hhelpers).
      rewrite scanService_inspect in Hscan.
      destruct (inspect s) as [| |sh] eqn:Hs; [| done |].
      * injection Hscan as <-. by apply not_appended in Hhelpers.
      * destruct (decide (resolves (methodsOf sh) (sh_object sh)))
          as [Hr|Hr].
        -- rewrite register_resolves in Hscan by done.
           injection Hscan as <-. cbn in Hhelpers.
           apply app_inv_head in Hhelpers. injection Hhelpers as <-.
           cbn in Hobject. subst object.
           apply inspect_Accepted in Hs as [Hd Hw]. eauto.
        -- by rewrite register_unresolved in Hscan.
    + intros (ms & Hd & Hw & Hr).
      destruct (followsConvention_inspect s ms object Hd Hw)
        as (sh & Hs & <- & <-).
      exists (helperOf sh (length (heap w))), (registered sh w).
      rewrite scanService_inspect, Hs. by rewrite register_resolves.
  - intros ms object Hd Hw Hr.
    destruct (followsConvention_inspect s ms object Hd Hw)
      as (sh & Hs & <- & <-).
    rewrite scanService_inspect, Hs. by apply register_unresolved.
  - intros Hguarded Hnone. rewrite scanService_inspect.
    destruct (inspect s) as [| |sh] eqn:Hs; [done| |].
    + by apply inspect_Crashes in Hs.
    + apply inspect_Accepted in Hs as [Hd Hw].
      destruct (Hnone (sh_object sh)). by exists (methodsOf sh).
Qed.

Lemma unguarded_not_followsConvention s object :
  unguarded s -> ¬ followsConvention s object.
Proof.
  intros (ms & Hd & _ & Hnone) (ms' & Hd' & Hw).
  rewrite (declares_unique s ms ms' Hd Hd') in Hnone.
  apply Hnone. exists object. apply Hw.
Qed.

(** C3 (where the code differs): in a schema whose message types
    resolve, scanning a service appends a descriptor for an object type
    exactly when the service declares [Get], [List], [Update] and
    [Delete] and the fields have the shapes of the convention for that
    object type. A service that fails a check is left out with no other
    effect, except when the check that fails is the one on the response
    of [Get]: that check has no test for [nil], and for such a service,
    which does not follow the convention, the scan panics instead of
    leaving the service out. *)
Theorem scanService_exclusion s w :
  consistent s ->
  appendsIffConvention s w
  ∧ (¬ unguarded s -> (∀ object, ¬ followsConvention s object) ->
     scanService s w = Done (tt, w))
  ∧ (unguarded s ->
     (∀ object, ¬ followsConvention s object)
     ∧ scanService s w = Panic nilDereference).
Proof.
  intros Hconsistent.
  destruct (scanService_characterisation s w) as (Happends & _ & Hsilent).
  split; [|split].
  - intros object. rewrite Happends. split.
    + intros (ms & Hd & Hw & _). by exists ms.
    + intros (ms & Hd & Hw). exists ms. eauto.
  - exact Hsilent.
  - intros Hu. split.
    + intros object. by apply unguarded_not_followsConvention.
    + rewrite scanService_inspect. by apply inspect_Crashes in Hu as ->.
Qed.
End ScanService.


(** ** Discovery happens once *)

Section ScanOnce.
Context `{!Transport} `{!Registry}.

Lemma scanIfNeeded_scanned w :
  scanOnce (this w) = true -> scanIfNeeded w = Done (tt, w).
Proof.
  intros Honce. unfold scanIfNeeded, mbind, M_bind, getThis.
  by rewrite Honce.
Qed.

Lemma scanIfNeeded_scanOnce w w' :
  scanIfNeeded w = Done (tt, w') -> scanOnce (this w') = true.
Proof.
  unfold scanIfNeeded, mbind, M_bind, getThis, setThis.
  destruct (scanOnce (this w)) eqn:Honce.
  - by intros [= <-].
  - destruct (scan w) as [[[] w1]|]; [|done]. by intros [= <-].
Qed.

(** Once the discovery has been done, it is not done again: the next call
    changes nothing. *)
Lemma scanIfNeeded_idempotent w w' :
  scanIfNeeded w = Done (tt, w') -> scanIfNeeded w' = Done (tt, w').
Proof. intros Hscan. eapply scanIfNeeded_scanned, scanIfNeeded_scanOnce, Hscan. Qed.
End ScanOnce.

(** ** Enumeration and lookup *)

Section EnumerationFacts.
Context `{!Transport} `{!Registry} `{!Pluralizer} `{!Strings}.

Lemma Singulars_run w w' :
  scanIfNeeded w = Done (tt, w') ->
  Singulars w = Done (sort_Strings (singularOf <$> helpers (this w')), w').
Proof.
  intros Hscan. unfold Singulars, mbind, M_bind. by rewrite Hscan.
Qed.

Lemma Plurals_run w w' :
  scanIfNeeded w = Done (tt, w') ->
  Plurals w = Done (sort_Strings (pluralOf <$> helpers (this w')), w').
Proof.
  intros Hscan. unfold Plurals, mbind, M_bind. by rewrite Hscan.
Qed.

Lemma Lookup_run objectType w w' :
  scanIfNeeded w = Done (tt, w') ->
  Lookup objectType w
  = Done (lookupFrom objectType 0 (helpers (this w')), w').
Proof.
  intros Hscan. unfold Lookup, mbind, M_bind. by rewrite Hscan.
Qed.

Lemma lookupFrom_Some objectType i rest j :
  lookupFrom objectType i rest = Some j ->
  ∃ found, (i ≤ j)%nat ∧ rest !! (j - i)%nat = Some found
           ∧ designates objectType found
           ∧ ∀ k other, (k < j - i)%nat -> rest !! k = Some other ->
                        ¬ designates objectType other.
Proof.
  revert i. induction rest as [|objectInfo rest IH]; intros i; cbn; [done|].
  destruct (EqualFold objectType (ToLower _)) eqn:Hsingular.
  { intros [= <-]. exists objectInfo. rewrite Nat.sub_diag.
    repeat split; [lia|by left|lia]. }
  destruct (EqualFold objectType (Plural _)) eqn:Hplural.
  { intros [= <-]. exists objectInfo. rewrite Nat.sub_diag.
    repeat split; [lia|by right|lia]. }
  intros Hrest. apply IH in Hrest as (found & Hle & Hfound & Hd & Hfirst).
  exists found. replace (j - i)%nat with (S (j - S i)) by lia.
  repeat split; [lia|done|done|].
  intros [|k] other Hk; cbn.
  - intros [= <-] [Hs|Hp].
    + unfold singularOf in Hs. congruence.
    + unfold pluralOf in Hp. congruence.
  - apply Hfirst. lia.
Qed.

Lemma lookupFrom_None objectType i rest :
  lookupFrom objectType i rest = None ↔
  ∀ other, other ∈ rest -> ¬ designates objectType other.
Proof.
  revert i. induction rest as [|objectInfo rest IH]; intros i; cbn.
  { split; [|done]. intros _ other Hin. by apply elem_of_nil in Hin. }
  destruct (EqualFold objectType (ToLower _)) eqn:Hsingular.
  { split; [done|]. intros Hnone. destruct (Hnone objectInfo); [left|by left]. }
  destruct (EqualFold objectType (Plural _)) eqn:Hplural.
  { split; [done|]. intros Hnone. destruct (Hnone objectInfo); [left|by right]. }
  rewrite IH. split.
  - intros Hnone other [->|Hin]%elem_of_cons; [|by apply Hnone].
    intros [Hs|Hp].
    + unfold singularOf in Hs. congruence.
    + unfold pluralOf in Hp. congruence.
  - intros Hnone other Hin. apply Hnone. by right.
Qed.


(** C6 (amended): after discovery, [Singulars] returns the lower-cased
    names of the discovered object types, one entry for each of them (two
    object types with the same name give two equal entries), in ascending
    order. *)
Theorem Singulars_sorted_names w w' :
  scanIfNeeded w = Done (tt, w') ->
  ∃ names,
    Singulars w = Done (names, w')
    ∧ names ≡ₚ singularOf <$> helpers (this w')
    ∧ length names = length (helpers (this w'))
    ∧ StronglySorted string_le names.
Proof.
  intros Hscan. eexists. split; [by apply Singulars_run|].
  split; [apply sort_Strings_Permutation|].
  split; [|apply sort_Strings_Sorted].
  by rewrite sort_Strings_Permutation, length_fmap.
Qed.

Lemma StronglySorted_fmap_monotone (f : string -> string) (l : list string) :
  (∀ a b, a ∈ l -> b ∈ l -> string_le a b -> string_le (f a) (f b)) ->
  StronglySorted string_le l -> StronglySorted string_le (f <$> l).
Proof.
  intros Hmono Hsorted. induction Hsorted as [|a l Hl IH Hall]; cbn.
  { constructor. }
  constructor.
  - apply IH. intros x y Hx Hy. apply Hmono; by right.
  - apply Forall_fmap. rewrite Forall_forall in Hall |- *.
    intros b Hb. cbn. apply Hmono; [by left|by right|by apply Hall].
Qed.

Lemma StronglySorted_fmap_monotone_inv (f : string -> string)
      (l : list string) :
  StronglySorted string_le l ->
  StronglySorted string_le (f <$> l) ->
  ∀ a b, a ∈ l -> b ∈ l -> string_le a b -> string_le (f a) (f b).
Proof.
  induction l as [|x l IH]; intros Hl Hfl a b Ha Hb Hab.
  { by apply elem_of_nil in Ha. }
  apply StronglySorted_inv in Hl as [Hl Hx].
  cbn in Hfl. apply StronglySorted_inv in Hfl as [Hfl Hfx].
  rewrite Forall_forall in Hx. rewrite Forall_fmap, Forall_forall in Hfx.
  apply elem_of_cons in Ha as [->|Ha], Hb as [->|Hb].
  - reflexivity.
  - by apply Hfx.
  - assert (a = x) as -> by (apply (anti_symm string_le); [done|by apply Hx]).
    reflexivity.
  - by apply IH.
Qed.

(** C7 (amended): after discovery, [Plurals] returns the plurals of the
    entries of [Singulars], sorted on their own in ascending order: the two
    results correspond up to the order. They correspond position by
    position exactly when pluralization preserves the order of the names
    that [Singulars] returns. *)
Theorem Plurals_sorted_plurals w w' :
  scanIfNeeded w = Done (tt, w') ->
  ∃ singulars plurals,
    Singulars w = Done (singulars, w')
    ∧ Plurals w = Done (plurals, w')
    ∧ plurals ≡ₚ Plural <$> singulars
    ∧ StronglySorted string_le plurals
    ∧ ((∀ a b, a ∈ singulars -> b ∈ singulars -> string_le a b ->
               string_le (Plural a) (Plural b))
       ↔ plurals = Plural <$> singulars).
Proof.
  intros Hscan. eexists _, _.
  split; [by apply Singulars_run|]. split; [by apply Plurals_run|].
  assert (sort_Strings (pluralOf <$> helpers (this w'))
          ≡ₚ Plural <$> sort_Strings (singularOf <$> helpers (this w')))
    as Hperm.
  { rewrite !sort_Strings_Permutation, <- list_fmap_compose. done. }
  split; [done|]. split; [apply sort_Strings_Sorted|].
  split.
  - intros Hmono. apply (StronglySorted_unique string_le); [| |done].
    + apply sort_Strings_Sorted.
    + apply StronglySorted_fmap_monotone; [done|apply sort_Strings_Sorted].
  - intros Heq. apply StronglySorted_fmap_monotone_inv.
    + apply sort_Strings_Sorted.
    + rewrite <- Heq. apply sort_Strings_Sorted.
Qed.
End EnumerationFacts.

(** ** The steps of an operation *)

Section Steps.
Context `{!Transport}.

Lemma lookup_last {A} (hp : list A) (a : A) :
  (hp ++ [a]) !! length hp = Some a.
Proof. by rewrite list_lookup_middle. Qed.

Lemma insert_last {A} (hp : list A) (a a' : A) :
  <[length hp := a']> (hp ++ [a]) = hp ++ [a'].
Proof.
  rewrite insert_app_r_alt by lia. by rewrite Nat.sub_diag.
Qed.

Lemma lookup_template {A} (hp extra : list A) (l : nat) (a : A) :
  hp !! l = Some a -> (hp ++ extra) !! l = Some a.
Proof. intros Hl. by apply lookup_app_l_Some. Qed.

Lemma Clone_run l m w :
  heap w !! l = Some m ->
  Clone l w = Done (length (heap w), withHeap w (heap w ++ [m])).
Proof.
  intros Hl. unfold Clone, mbind, M_bind, load. by rewrite Hl.
Qed.

(** Setting a field of the message that was allocated last. *)
Lemma Set_run w hp m fd v :
  heap w = hp ++ [m] ->
  (∀ o, v = ValueOfMessage o ->
        FieldDescriptor_Message fd = Some (msg_type o)) ->
  Set_ (length hp) fd v w
  = Done (tt, withHeap w (hp ++ [Message_Set m fd v])).
Proof.
  intros Hheap Htyped. unfold Set_, mbind, M_bind, load, store.
  rewrite Hheap, lookup_last. unfold withHeap.
  destruct v as [s|z|o|items]; cbn; rewrite ?Hheap, ?insert_last; try done.
  rewrite bool_decide_eq_true_2 by (by apply Htyped).
  cbn. by rewrite Hheap, insert_last.
Qed.

Lemma Invoke_run w hp request blank path srv response err :
  heap w = hp ++ [request; blank] ->
  Invoke (server w) path request blank = (srv, response, err) ->
  connection_Invoke path (length hp) (S (length hp)) w
  = Done (err,
          {| heap := hp ++ [request; response];
             server := srv;
             calls := calls w ++ [{| call_path := path;
                                     call_request := request;
                                     call_response := blank |}];
             this := this w |}).
Proof.
  intros Hheap Hinvoke. unfold connection_Invoke.
  rewrite Hheap.
  replace ((hp ++ [request; blank]) !! length hp) with (Some request)
    by (by rewrite list_lookup_middle).
  replace ((hp ++ [request; blank]) !! S (length hp)) with (Some blank).
  2:{ change [request; blank] with ([request] ++ [blank]).
      rewrite app_assoc.
      replace (S (length hp)) with (length (hp ++ [request]))
        by (rewrite length_app; cbn; lia).
      by rewrite list_lookup_middle. }
  rewrite Hinvoke. do 3 f_equal.
  change [request; blank] with ([request] ++ [blank]).
  change [request; response] with ([request] ++ [response]).
  rewrite !app_assoc.
  replace (S (length hp)) with (length (hp ++ [request]))
    by (rewrite length_app; cbn; lia).
  apply insert_last.
Qed.

Lemma messagesOf_run (items : list Message) w :
  messagesOf (ValueOfMessage <$> items) w = Done (items, w).
Proof.
  revert w. induction items as [|m items IH]; intros w; cbn; [done|].
  unfold mbind, M_bind. cbn. by rewrite IH.
Qed.

Lemma getObject_run w hp request response fd result :
  heap w = hp ++ [request; response] ->
  objectOf response fd = Some result ->
  getObject (S (length hp)) fd w = Done (result, w).
Proof.
  intros Hheap Hresult. unfold getObject, Get_, mbind, M_bind, load.
  rewrite Hheap.
  replace ((hp ++ [request; response]) !! S (length hp))
    with (Some response).
  2:{ change [request; response] with ([request] ++ [response]).
      rewrite app_assoc.
      replace (S (length hp)) with (length (hp ++ [request]))
        by (rewrite length_app; cbn; lia).
      by rewrite list_lookup_middle. }
  cbn. unfold objectOf in Hresult.
  destruct (Message_Get response fd); try done. by injection Hresult as ->.
Qed.

(** The messages that were in the heap before an operation are still
    there after it: the templates are not changed. *)
Lemma invoked_preserves w path request blank srv response l m :
  heap w !! l = Some m ->
  heap (invoked w path request blank srv response) !! l = Some m.
Proof. intros Hl. cbn. by apply lookup_app_l_Some. Qed.
End Steps.

(** ** The operations, step by step *)

Section Runs.
Context `{!Transport}.

(** The two first steps shared by the operations that set one field of
    the request: the request template is cloned and the field is set in
    the clone, then the response template is cloned. *)
Lemma prepare_run w requestLoc responseLoc requestTemplate blank fd v :
  heap w !! requestLoc = Some requestTemplate ->
  heap w !! responseLoc = Some blank ->
  (∀ o, v = ValueOfMessage o ->
        FieldDescriptor_Message fd = Some (msg_type o)) ->
  (request ← Clone requestLoc;
   Set_ request fd v;;
   response ← Clone responseLoc;
   mret (request, response)) w
  = Done ((length (heap w), S (length (heap w))),
          withHeap w (heap w ++ [Message_Set requestTemplate fd v; blank])).
Proof.
  intros Hrequest Hresponse Htyped. unfold mbind at 1, M_bind at 1.
  rewrite (Clone_run _ _ _ Hrequest). unfold mbind at 1, M_bind at 1.
  rewrite (Set_run _ (heap w) requestTemplate) by done.
  unfold mbind at 1, M_bind at 1.
  rewrite (Clone_run _ blank) by (by apply lookup_template).
  cbn. rewrite length_app, <- app_assoc. cbn.
  by replace (length (heap w) + 1) with (S (length (heap w))) by lia.
Qed.

Lemma List_run h options w requestTemplate blank srv response err items :
  heap w !! mi_request (li_methodInfo (oh_list h)) = Some requestTemplate ->
  heap w !! mi_response (li_methodInfo (oh_list h)) = Some blank ->
  let request :=
    if bool_decide (Filter options ≠ "")
    then Message_Set requestTemplate (li_filter (oh_list h))
                     (ValueOfString (Filter options))
    else requestTemplate in
  Invoke (server w) (mi_path (li_methodInfo (oh_list h))) request blank
  = (srv, response, err) ->
  (err = None ->
   Message_Get response (li_items (oh_list h))
   = ValueOfList (ValueOfMessage <$> items)) ->
  List_ h options w
  = Done (match err with
          | Some e => (None, Some e)
          | None => (Some items, None)
          end,
          invoked w (mi_path (li_methodInfo (oh_list h)))
                  request blank srv response).
Proof.
  intros Hrequest Hresponse request Hinvoke Hitems.
  unfold List_. unfold mbind at 1, M_bind at 1.
  rewrite (Clone_run _ _ _ Hrequest).
  assert ((if bool_decide (Filter options ≠ "")
           then Set_ (length (heap w)) (li_filter (oh_list h))
                     (ValueOfString (Filter options))
           else mret tt)
            (withHeap w (heap w ++ [requestTemplate]))
          = Done (tt, withHeap w (heap w ++ [request]))) as Hset.
  { subst request. case_bool_decide; [|done].
    by rewrite (Set_run _ (heap w) requestTemplate). }
  unfold mbind at 1, M_bind at 1. rewrite Hset.
  unfold mbind at 1, M_bind at 1.
  rewrite (Clone_run _ blank) by (by apply lookup_template).
  unfold mbind at 1, M_bind at 1. cbn [heap withHeap].
  rewrite length_app. cbn [length].
  replace (length (heap w) + 1) with (S (length (heap w))) by lia.
  rewrite (Invoke_run _ (heap w) request blank _ srv response err);
    [|by rewrite <- app_assoc|done].
  destruct err as [e|]; [done|].
  unfold mbind at 1, M_bind at 1, Get_, mbind at 1, M_bind at 1, load.
  cbn [heap].
  replace ((heap w ++ [request; response]) !! S (length (heap w)))
    with (Some response).
  2:{ change [request; response] with ([request] ++ [response]).
      rewrite app_assoc.
      replace (S (length (heap w))) with (length (heap w ++ [request]))
        by (rewrite length_app; cbn; lia).
      by rewrite list_lookup_middle. }
  cbn [mret M_ret]. rewrite Hitems by done.
  unfold mbind at 1, M_bind at 1. cbn [Value_List mret M_ret].
  unfold mbind at 1, M_bind at 1. by rewrite messagesOf_run.
Qed.

(** The steps shared by [Get], [Update], [Delete] and [Create]: the request
    template is cloned, one field of the clone is set, the response
    template is cloned and the method is invoked. *)
Lemma exchange_run {A} w requestLoc responseLoc requestTemplate blank fd v
      path srv response err (k : loc -> option Error -> M A) :
  heap w !! requestLoc = Some requestTemplate ->
  heap w !! responseLoc = Some blank ->
  (∀ o, v = ValueOfMessage o ->
        FieldDescriptor_Message fd = Some (msg_type o)) ->
  Invoke (server w) path (Message_Set requestTemplate fd v) blank
  = (srv, response, err) ->
  (request ← Clone requestLoc;
   Set_ request fd v;;
   response ← Clone responseLoc;
   err ← connection_Invoke path request response;
   k response err) w
  = k (S (length (heap w))) err
      (invoked w path (Message_Set requestTemplate fd v) blank srv response).
Proof.
  intros Hrequest Hresponse Htyped Hinvoke.
  unfold mbind at 1, M_bind at 1. rewrite (Clone_run _ _ _ Hrequest).
  unfold mbind at 1, M_bind at 1.
  rewrite (Set_run _ (heap w) requestTemplate) by done.
  unfold mbind at 1, M_bind at 1.
  rewrite (Clone_run _ blank) by (by apply lookup_template).
  unfold mbind at 1, M_bind at 1. cbn [heap withHeap].
  rewrite length_app. cbn [length].
  replace (length (heap w) + 1) with (S (length (heap w))) by lia.
  by rewrite (Invoke_run _ (heap w) (Message_Set requestTemplate fd v)
                blank _ srv response err);
    [|by rewrite <- app_assoc|done].
Qed.

Lemma Get_run c id w requestTemplate blank srv response err result :
  heap w !! mi_request (gi_methodInfo (oh_get c)) = Some requestTemplate ->
  heap w !! mi_response (gi_methodInfo (oh_get c)) = Some blank ->
  let request :=
    Message_Set requestTemplate (gi_id (oh_get c)) (ValueOfString id) in
  Invoke (server w) (mi_path (gi_methodInfo (oh_get c))) request blank
  = (srv, response, err) ->
  (err = None -> objectOf response (gi_object (oh_get c)) = Some result) ->
  Get c id w
  = Done (match err with
          | Some e => (None, Some e)
          | None => (Some result, None)
          end,
          invoked w (mi_path (gi_methodInfo (oh_get c)))
                  request blank srv response).
Proof.
  intros Hrequest Hresponse request Hinvoke Hresult.
  unfold Get, setId.
  rewrite (exchange_run w _ _ requestTemplate blank _ _ _ srv response err)
    by done.
  destruct err as [e|]; [done|].
  unfold mbind at 1, M_bind at 1.
  rewrite (getObject_run _ (heap w) request response _ result);
    [done|done|by apply Hresult].
Qed.

Lemma Update_run c object w requestTemplate blank srv response err result :
  heap w !! mi_request (ui_methodInfo (oh_update c)) = Some requestTemplate ->
  heap w !! mi_response (ui_methodInfo (oh_update c)) = Some blank ->
  FieldDescriptor_Message (ui_in (oh_update c)) = Some (msg_type object) ->
  let request :=
    Message_Set requestTemplate (ui_in (oh_update c))
                (ValueOfMessage object) in
  Invoke (server w) (mi_path (ui_methodInfo (oh_update c))) request blank
  = (srv, response, err) ->
  objectOf response (ui_out (oh_update c)) = Some result ->
  Update c object w
  = Done ((Some result, wrapUpdate err),
          invoked w (mi_path (ui_methodInfo (oh_update c)))
                  request blank srv response).
Proof.
  intros Hrequest Hresponse Htyped request Hinvoke Hresult.
  unfold Update, setObject.
  rewrite (exchange_run w _ _ requestTemplate blank _ _ _ srv response err);
    [|done|done|by intros o [= <-]|done].
  unfold mbind at 1, M_bind at 1.
  by rewrite (getObject_run _ (heap w) request response _ result).
Qed.

(** Without the type of the object being that of the [object] field of
    the request, [Update] panics before it invokes anything. *)
Lemma Update_wrong_type c object w requestTemplate :
  heap w !! mi_request (ui_methodInfo (oh_update c)) = Some requestTemplate ->
  FieldDescriptor_Message (ui_in (oh_update c)) ≠ Some (msg_type object) ->
  Update c object w = Panic "invalid type".
Proof.
  intros Hrequest Htyped. unfold Update, setObject.
  unfold mbind at 1, M_bind at 1. rewrite (Clone_run _ _ _ Hrequest).
  unfold mbind at 1, M_bind at 1, Set_, mbind at 1, M_bind at 1, load.
  cbn [heap withHeap]. rewrite lookup_last.
  by rewrite bool_decide_eq_false_2.
Qed.
End Runs.

Section RunsOfDeleteAndCreate.
Context `{!Transport} `{!Registry}.

Lemma Delete_run c id w requestTemplate blank srv response err :
  heap w !! mi_request (di_methodInfo (oh_delete c)) = Some requestTemplate ->
  heap w !! mi_response (di_methodInfo (oh_delete c)) = Some blank ->
  let request :=
    Message_Set requestTemplate (di_id (oh_delete c)) (ValueOfString id) in
  Invoke (server w) (mi_path (di_methodInfo (oh_delete c))) request blank
  = (srv, response, err) ->
  Delete c id w
  = Done (err,
          invoked w (mi_path (di_methodInfo (oh_delete c)))
                  request blank srv response).
Proof.
  intros Hrequest Hresponse request Hinvoke.
  unfold Delete, setId.
  transitivity
    ((request ← Clone (mi_request (di_methodInfo (oh_delete c)));
      Set_ request (di_id (oh_delete c)) (ValueOfString id);;
      response ← Clone (mi_response (di_methodInfo (oh_delete c)));
      err ← connection_Invoke (mi_path (di_methodInfo (oh_delete c)))
                              request response;
      (fun _ err => mret err) response err) w).
  { unfold mbind, M_bind. repeat case_match; try done.
    all: by simplify_eq. }
  by rewrite (exchange_run w _ _ requestTemplate blank _ _ _ srv response err).
Qed.

Lemma Create_run (c : createInfo) object w requestTemplate blank srv
      response err result :
  heap w !! mi_request (ci_methodInfo c) = Some requestTemplate ->
  heap w !! mi_response (ci_methodInfo c) = Some blank ->
  FieldDescriptor_Message (ci_in c) = Some (msg_type object) ->
  let request :=
    Message_Set requestTemplate (ci_in c) (ValueOfMessage object) in
  Invoke (server w) (mi_path (ci_methodInfo c)) request blank
  = (srv, response, err) ->
  objectOf response (ci_out c) = Some result ->
  ∃ err',
    Create c object w
    = Done ((Some result, err'),
            invoked w (mi_path (ci_methodInfo c)) request blank srv response)
    ∧ (err' = None ↔ err = None).
Proof.
  intros Hrequest Hresponse Htyped request Hinvoke Hresult.
  unfold Create, setObject.
  rewrite (exchange_run w _ _ requestTemplate blank _ _ _ srv response err);
    [|done|done|by intros o [= <-]|done].
  unfold mbind at 1, M_bind at 1.
  rewrite (getObject_run _ (heap w) request response _ result) by done.
  eexists. split; [done|]. by destruct err.
Qed.
End RunsOfDeleteAndCreate.

(** ** The operations of the object helper *)

Lemma Message_Get_Set m fd v : Message_Get (Message_Set m fd v) fd = v.
Proof.
  unfold Message_Get, Message_Set. destruct m as [type fields]. cbn.
  by rewrite lookup_insert_eq.
Qed.

(** A singular message field that is not populated reads as a blank
    message of the type of the field. *)
Lemma objectOf_blank m fd object :
  msg_fields m !! fd_name fd = None ->
  singularMessage object fd ->
  objectOf m fd = Some (Message_New object).
Proof.
  intros Hunset (Hcardinality & Hkind & <-).
  unfold objectOf, Message_Get, Value_default, FieldDescriptor_Message.
  by rewrite Hunset, Hcardinality, Hkind.
Qed.

Section OperationsFacts.
Context `{!Transport}.

(** C5: [List] clones the request template of the [List] method, sets the
    [filter] field of the clone exactly when the filter of the options is
    not empty, performs one remote invocation on the path of the method,
    and on success returns the messages of the [items] field of the
    response in the order of the response; on failure it returns the error
    of the transport and no items. The templates are not changed. *)
Theorem List_behaviour h options w requestTemplate blank srv response err
        items :
  heap w !! mi_request (li_methodInfo (oh_list h)) = Some requestTemplate ->
  heap w !! mi_response (li_methodInfo (oh_list h)) = Some blank ->
  let request :=
    if bool_decide (Filter options ≠ "")
    then Message_Set requestTemplate (li_filter (oh_list h))
                     (ValueOfString (Filter options))
    else requestTemplate in
  Invoke (server w) (mi_path (li_methodInfo (oh_list h))) request blank
  = (srv, response, err) ->
  (err = None ->
   Message_Get response (li_items (oh_list h))
   = ValueOfList (ValueOfMessage <$> items)) ->
  ∃ w',
    List_ h options w
    = Done (match err with
            | Some e => (None, Some e)
            | None => (Some items, None)
            end, w')
    ∧ calls w'
      = calls w ++ [{| call_path := mi_path (li_methodInfo (oh_list h));
                       call_request := request;
                       call_response := blank |}]
    ∧ (Filter options = "" -> request = requestTemplate)
    ∧ (Filter options ≠ "" ->
       Message_Get request (li_filter (oh_list h))
       = ValueOfString (Filter options))
    ∧ (∀ l m, heap w !! l = Some m -> heap w' !! l = Some m)
    ∧ this w' = this w.
Proof.
  intros Hrequest Hresponse request Hinvoke Hitems.
  eexists. split; [by eapply List_run|].
  split; [done|]. subst request. split; [|split; [|split; [|done]]].
  - intros Hempty. by rewrite bool_decide_eq_false_2 by (by intros []).
  - intros Hfilter. rewrite bool_decide_eq_true_2 by done.
    apply Message_Get_Set.
  - intros l m. apply invoked_preserves.
Qed.

(** C8: when the remote invocation fails with the error [e], [Update]
    returns [e] wrapped with the text that tells that the update failed,
    and [Get] and [List] return [e] itself. Each of them has then invoked
    the transport once. *)
Theorem failure_is_wrapped_by_Update_only c w e :
  (∀ object requestTemplate blank srv response result,
      heap w !! mi_request (ui_methodInfo (oh_update c))
      = Some requestTemplate ->
      heap w !! mi_response (ui_methodInfo (oh_update c)) = Some blank ->
      FieldDescriptor_Message (ui_in (oh_update c))
      = Some (msg_type object) ->
      Invoke (server w) (mi_path (ui_methodInfo (oh_update c)))
             (Message_Set requestTemplate (ui_in (oh_update c))
                          (ValueOfMessage object)) blank
      = (srv, response, Some e) ->
      objectOf response (ui_out (oh_update c)) = Some result ->
      ∃ result' err w',
        Update c object w = Done ((result', Some err), w')
        ∧ err = Wrapped updateFailure e
        ∧ Error_Error err
          = String.append "failed to update object: " (Error_Error e)
        ∧ Error_Unwrap err = Some e
        ∧ length (calls w') = S (length (calls w)))
  ∧ (∀ id requestTemplate blank srv response,
        heap w !! mi_request (gi_methodInfo (oh_get c))
        = Some requestTemplate ->
        heap w !! mi_response (gi_methodInfo (oh_get c)) = Some blank ->
        Invoke (server w) (mi_path (gi_methodInfo (oh_get c)))
               (Message_Set requestTemplate (gi_id (oh_get c))
                            (ValueOfString id)) blank
        = (srv, response, Some e) ->
        ∃ result' w',
          Get c id w = Done ((result', Some e), w')
          ∧ length (calls w') = S (length (calls w)))
  ∧ (∀ options requestTemplate blank srv response,
        heap w !! mi_request (li_methodInfo (oh_list c))
        = Some requestTemplate ->
        heap w !! mi_response (li_methodInfo (oh_list c)) = Some blank ->
        Invoke (server w) (mi_path (li_methodInfo (oh_list c)))
               (if bool_decide (Filter options ≠ "")
                then Message_Set requestTemplate (li_filter (oh_list c))
                                 (ValueOfString (Filter options))
                else requestTemplate) blank
        = (srv, response, Some e) ->
        ∃ results' w',
          List_ c options w = Done ((results', Some e), w')
          ∧ length (calls w') = S (length (calls w))).
Proof.
  split; [|split].
  - intros object requestTemplate blank srv response result
           Hrequest Hresponse Htyped Hinvoke Hresult.
    eexists _, _, _. split.
    { by rewrite (Update_run c object w requestTemplate blank srv response
                            (Some e) result). }
    cbn. rewrite length_app. cbn. repeat split. lia.
  - intros id requestTemplate blank srv response Hrequest Hresponse Hinvoke.
    eexists _, _. split.
    + by eapply (Get_run c id w requestTemplate blank srv response (Some e)
                         (Message_New "")).
    + cbn. rewrite length_app. cbn. lia.
  - intros options requestTemplate blank srv response
           Hrequest Hresponse Hinvoke.
    eexists _, _. split.
    + by eapply (List_run c options w requestTemplate blank srv response
                          (Some e) []).
    + cbn. rewrite length_app. cbn. lia.
Qed.

(** C10: when the remote invocation fails, [Update] still returns a
    message with the wrapped error: the [object] field of the response as
    the transport left it, which is a blank object when the transport did
    not touch the clone of the blank response template. [Get] returns no
    message and [List] no items, with the error. *)
Theorem failed_Update_returns_a_message c w e :
  (∀ object requestTemplate blank srv response result,
      heap w !! mi_request (ui_methodInfo (oh_update c))
      = Some requestTemplate ->
      heap w !! mi_response (ui_methodInfo (oh_update c)) = Some blank ->
      FieldDescriptor_Message (ui_in (oh_update c))
      = Some (msg_type object) ->
      Invoke (server w) (mi_path (ui_methodInfo (oh_update c)))
             (Message_Set requestTemplate (ui_in (oh_update c))
                          (ValueOfMessage object)) blank
      = (srv, response, Some e) ->
      objectOf response (ui_out (oh_update c)) = Some result ->
      (∃ err w', Update c object w = Done ((Some result, Some err), w'))
      ∧ (∀ type,
            response = blank ->
            msg_fields blank !! fd_name (ui_out (oh_update c)) = None ->
            singularMessage type (ui_out (oh_update c)) ->
            result = Message_New type))
  ∧ (∀ id requestTemplate blank srv response,
        heap w !! mi_request (gi_methodInfo (oh_get c))
        = Some requestTemplate ->
        heap w !! mi_response (gi_methodInfo (oh_get c)) = Some blank ->
        Invoke (server w) (mi_path (gi_methodInfo (oh_get c)))
               (Message_Set requestTemplate (gi_id (oh_get c))
                            (ValueOfString id)) blank
        = (srv, response, Some e) ->
        ∃ err w', Get c id w = Done ((None, Some err), w'))
  ∧ (∀ options requestTemplate blank srv response,
        heap w !! mi_request (li_methodInfo (oh_list c))
        = Some requestTemplate ->
        heap w !! mi_response (li_methodInfo (oh_list c)) = Some blank ->
        Invoke (server w) (mi_path (li_methodInfo (oh_list c)))
               (if bool_decide (Filter options ≠ "")
                then Message_Set requestTemplate (li_filter (oh_list c))
                                 (ValueOfString (Filter options))
                else requestTemplate) blank
        = (srv, response, Some e) ->
        ∃ err w', List_ c options w = Done ((None, Some err), w')).
Proof.
  split; [|split].
  - intros object requestTemplate blank srv response result
           Hrequest Hresponse Htyped Hinvoke Hresult.
    split.
    + eexists _, _.
      by rewrite (Update_run c object w requestTemplate blank srv response
                             (Some e) result).
    + intros type -> Hunset Hshape.
      rewrite (objectOf_blank _ _ type) in Hresult by done.
      by injection Hresult as <-.
  - intros id requestTemplate blank srv response Hrequest Hresponse Hinvoke.
    eexists _, _.
    by eapply (Get_run c id w requestTemplate blank srv response (Some e)
                       (Message_New "")).
  - intros options requestTemplate blank srv response
           Hrequest Hresponse Hinvoke.
    eexists _, _.
    by eapply (List_run c options w requestTemplate blank srv response
                        (Some e) []).
Qed.
End OperationsFacts.

(** ** Delete and Create *)

Section DeleteAndCreateFacts.
Context `{!Transport} `{!Registry}.

Lemma scanCreate_absent s object w :
  Methods_ByName (svc_methods s) "Create" = None ->
  scanCreate s object w = Done (None, w).
Proof. intros Habsent. unfold scanCreate, createMethodName. by rewrite Habsent. Qed.

Lemma scanCreate_run s object createDesc w :
  Methods_ByName (svc_methods s) "Create" = Some createDesc ->
  hasField (mth_input createDesc) "object" (singularMessage object) ->
  hasField (mth_output createDesc) "object" (singularMessage object) ->
  md_full_name (mth_input createDesc) ∈ GlobalTypes ->
  md_full_name (mth_output createDesc) ∈ GlobalTypes ->
  ∃ c,
    scanCreate s object w
    = Done (Some c,
            withHeap w
              (heap w
                 ++ [Message_New (md_full_name (mth_input createDesc));
                     Message_New (md_full_name (mth_output createDesc))]))
    ∧ mi_path (ci_methodInfo c) = makeMethodPath createDesc
    ∧ mi_request (ci_methodInfo c) = length (heap w)
    ∧ mi_response (ci_methodInfo c) = S (length (heap w))
    ∧ singularMessage object (ci_in c)
    ∧ singularMessage object (ci_out c).
Proof.
  intros Hcreate (fin & Hin) (fout & Hout) Htin Htout.
  pose proof Hin as [_ Hshapein]. pose proof Hout as [_ Hshapeout].
  apply getObjectField_typed in Hin as [Hin Hmin], Hout as [Hout Hmout].
  unfold scanCreate, createMethodName.
  rewrite Hcreate, Hin, Hmin, Hout, Hmout.
  rewrite !bool_decide_eq_false_2 by (by intros []).
  unfold makeMethodTemplates, mbind, M_bind.
  rewrite makeTemplate_found by done.
  rewrite makeTemplate_found by done.
  eexists. split.
  - cbn. unfold withHeap. rewrite length_app, <- app_assoc. cbn.
    by replace (length (heap w) + 1) with (S (length (heap w))) by lia.
  - cbn. tauto.
Qed.

(** C2: [Delete] clones the request template of the [Delete] method, sets
    its [id] field and invokes the method once, as [Get] does with the
    [Get] method, and returns the error of the invocation. When the
    service declares a [Create] method whose request and response have an
    [object] field of the object type, the method is recorded, and
    [Create] then clones its request template, sets the [object] field,
    invokes the method once and returns the [object] field of the
    response, as [Update] does: whether the invocation succeeds or fails,
    and in the second case together with the error of the invocation,
    wrapped. A service without [Create] is still a resource: nothing is
    recorded for [Create] and the object helper is appended all the
    same. *)
Theorem Delete_and_Create s object w :
  (∀ c id requestTemplate blank srv response err,
      heap w !! mi_request (di_methodInfo (oh_delete c))
      = Some requestTemplate ->
      heap w !! mi_response (di_methodInfo (oh_delete c)) = Some blank ->
      Invoke (server w) (mi_path (di_methodInfo (oh_delete c)))
             (Message_Set requestTemplate (di_id (oh_delete c))
                          (ValueOfString id)) blank
      = (srv, response, err) ->
      Delete c id w
      = Done (err,
              invoked w (mi_path (di_methodInfo (oh_delete c)))
                      (Message_Set requestTemplate (di_id (oh_delete c))
                                   (ValueOfString id))
                      blank srv response))
  ∧ (∀ createDesc,
        Methods_ByName (svc_methods s) "Create" = Some createDesc ->
        hasField (mth_input createDesc) "object" (singularMessage object) ->
        hasField (mth_output createDesc) "object" (singularMessage object) ->
        md_full_name (mth_input createDesc) ∈ GlobalTypes ->
        md_full_name (mth_output createDesc) ∈ GlobalTypes ->
        ∃ c w',
          scanCreate s object w = Done (Some c, w')
          ∧ mi_path (ci_methodInfo c) = makeMethodPath createDesc
          ∧ heap w' !! mi_request (ci_methodInfo c)
            = Some (Message_New (md_full_name (mth_input createDesc)))
          ∧ heap w' !! mi_response (ci_methodInfo c)
            = Some (Message_New (md_full_name (mth_output createDesc)))
          ∧ singularMessage object (ci_in c)
          ∧ singularMessage object (ci_out c))
  ∧ (∀ (c : createInfo) value requestTemplate blank srv response err
       result,
        heap w !! mi_request (ci_methodInfo c) = Some requestTemplate ->
        heap w !! mi_response (ci_methodInfo c) = Some blank ->
        FieldDescriptor_Message (ci_in c) = Some (msg_type value) ->
        Invoke (server w) (mi_path (ci_methodInfo c))
               (Message_Set requestTemplate (ci_in c)
                            (ValueOfMessage value)) blank
        = (srv, response, err) ->
        objectOf response (ci_out c) = Some result ->
        Create c value w
        = Done ((Some result, wrapCreate err),
                invoked w (mi_path (ci_methodInfo c))
                        (Message_Set requestTemplate (ci_in c)
                                     (ValueOfMessage value))
                        blank srv response))
  ∧ (Methods_ByName (svc_methods s) "Create" = None ->
     scanCreate s object w = Done (None, w)
     ∧ ∀ ms, declares s ms -> wellShaped ms object -> resolves ms object ->
             appends s w object).
Proof.
  split; [|split; [|split]].
  - intros c id requestTemplate blank srv response err
           Hrequest Hresponse Hinvoke.
    by apply Delete_run.
  - intros createDesc Hcreate Hin Hout Htin Htout.
    destruct (scanCreate_run s object createDesc w Hcreate Hin Hout Htin Htout)
      as (c & Hscan & Hpath & Hrequest & Hresponse & Hshapes).
    eexists c, _. split; [done|]. split; [done|].
    rewrite Hrequest, Hresponse. cbn.
    split; [by rewrite list_lookup_middle|]. split; [|done].
    change [Message_New (md_full_name (mth_input createDesc));
            Message_New (md_full_name (mth_output createDesc))]
      with ([Message_New (md_full_name (mth_input createDesc))]
              ++ [Message_New (md_full_name (mth_output createDesc))]).
    rewrite app_assoc.
    replace (S (length (heap w)))
      with (length
              (heap w ++ [Message_New (md_full_name (mth_input createDesc))]))
      by (rewrite length_app; cbn; lia).
    by rewrite list_lookup_middle.
  - intros c value requestTemplate blank srv response err result
           Hrequest Hresponse Htyped Hinvoke Hresult.
    unfold Create, setObject.
    rewrite (exchange_run w _ _ requestTemplate blank _ _ _ srv response err);
      [|done|done|by intros o [= <-]|done].
    unfold mbind at 1, M_bind at 1.
    by rewrite (getObject_run _ (heap w)
                  (Message_Set requestTemplate (ci_in c)
                               (ValueOfMessage value)) response _ result).
  - intros Habsent. split; [by apply scanCreate_absent|].
    intros ms Hd Hw Hr.
    destruct (followsConvention_inspect s ms object Hd Hw)
      as (sh & Hs & <- & <-).
    exists (helperOf sh (length (heap w))), (registered sh w).
    rewrite scanService_inspect, Hs. by rewrite register_resolves.
Qed.
End DeleteAndCreateFacts.

(** * More properties of the discovery *)

Section DiscoveryFacts.
Context `{!Transport} `{!Registry}.

Lemma bind_Done {A B} (m : M A) (f : A -> M B) w b w' :
  (m ≫= f) w = Done (b, w') ↔
  ∃ a w1, m w = Done (a, w1) ∧ f a w1 = Done (b, w').
Proof.
  unfold mbind, M_bind. destruct (m w) as [[a w1]|reason]; split.
  - intros Hf. by exists a, w1.
  - by intros (a' & w1' & [= <- <-] & Hf).
  - done.
  - by intros (a' & w1' & Hm & _).
Qed.

Lemma lookup_offset {A} (l1 l2 : list A) (i : nat) :
  (l1 ++ l2) !! (length l1 + i) = l2 !! i.
Proof. rewrite lookup_app_r by lia. f_equal. lia. Qed.

(** The helpers of a state after one more service. *)
Lemma scanService_helpers s w w' :
  scanService s w = Done (tt, w') ->
  oh_descriptor <$> helpers (this w')
  = (oh_descriptor <$> helpers (this w)) ++ option_list (objectTypeOf s).
Proof.
  rewrite scanService_inspect. unfold objectTypeOf.
  destruct (inspect s) as [| |sh] eqn:Hs; [|done|].
  - intros [= <-]. cbn. by rewrite app_nil_r.
  - destruct (decide (resolves (methodsOf sh) (sh_object sh))) as [Hr|Hr].
    + rewrite register_resolves by done. intros [= <-]. cbn.
      by rewrite fmap_app.
    + by rewrite register_unresolved.
Qed.

Lemma scanServices_helpers ss w w' :
  scanServices ss w = Done (tt, w') ->
  oh_descriptor <$> helpers (this w')
  = (oh_descriptor <$> helpers (this w)) ++ omap objectTypeOf ss.
Proof.
  revert w. induction ss as [|s ss IH]; intros w; cbn.
  - intros [= <-]. by rewrite app_nil_r.
  - intros Hscan. apply bind_Done in Hscan as ([] & w1 & Hs & Hss).
    apply scanService_helpers in Hs. apply IH in Hss.
    rewrite Hss, Hs, <- app_assoc. f_equal.
    by destruct (objectTypeOf s).
Qed.

Lemma RangeFiles_scanFile files w w' :
  RangeFiles files scanFile w = Done (tt, w') ->
  oh_descriptor <$> helpers (this w')
  = (oh_descriptor <$> helpers (this w))
      ++ omap objectTypeOf (files ≫= file_services).
Proof.
  revert w. induction files as [|f files IH]; intros w; cbn.
  - intros [= <-]. by rewrite app_nil_r.
  - intros Hscan. apply bind_Done in Hscan as (continue & w1 & Hf & Hrest).
    unfold scanFile in Hf.
    apply bind_Done in Hf as ([] & w2 & Hss & [= <- <-]).
    apply scanServices_helpers in Hss. apply IH in Hrest.
    rewrite Hrest, Hss, <- app_assoc. f_equal.
    by rewrite omap_app.
Qed.

(** X1: a discovery that returns has appended one helper for each
    service that passes the tests of [scanService], in the order in which
    the files and their services are visited, and none for the other
    services. *)
Theorem scan_appends_in_order w w' :
  scan w = Done (tt, w') ->
  oh_descriptor <$> helpers (this w')
  = (oh_descriptor <$> helpers (this w)) ++ omap objectTypeOf allServices
  ∧ ∀ s object, objectTypeOf s = Some object ↔ followsConvention s object.
Proof.
  intros Hscan. split; [by apply RangeFiles_scanFile|].
  intros s object. unfold objectTypeOf. split.
  - destruct (inspect s) as [| |sh] eqn:Hs; try done.
    intros [= <-]. apply inspect_Accepted in Hs as [Hd Hw].
    by exists (methodsOf sh).
  - intros (ms & Hd & Hw).
    by destruct (followsConvention_inspect s ms object Hd Hw)
      as (sh & -> & _ & <-).
Qed.

Lemma scanService_returns s w :
  (∃ w', scanService s w = Done (tt, w')) ↔ scannable s.
Proof.
  rewrite scanService_inspect. unfold scannable. split.
  - intros (w' & Hscan).
    destruct (inspect s) as [| |sh] eqn:Hs; [|done|].
    + split.
      * intros Hu. apply inspect_Crashes in Hu. congruence.
      * intros ms object Hd Hw.
        destruct (followsConvention_inspect s ms object Hd Hw)
          as (sh & Hsh & _). congruence.
    + split.
      * intros Hu. apply inspect_Crashes in Hu. congruence.
      * intros ms object Hd Hw.
        destruct (followsConvention_inspect s ms object Hd Hw)
          as (sh' & Hsh & <- & <-).
        assert (sh' = sh) as -> by congruence.
        destruct (decide (resolves (methodsOf sh) (sh_object sh)));
          [done|].
        by rewrite register_unresolved in Hscan.
  - intros [Hguarded Hresolves].
    destruct (inspect s) as [| |sh] eqn:Hs.
    + by eexists.
    + by apply inspect_Crashes in Hs.
    + apply inspect_Accepted in Hs as [Hd Hw].
      eexists. apply register_resolves. by apply Hresolves.
Qed.

Lemma scanServices_returns ss w :
  (∃ w', scanServices ss w = Done (tt, w')) ↔ Forall scannable ss.
Proof.
  revert w. induction ss as [|s ss IH]; intros w; cbn.
  { split; [by constructor|]. by eexists. }
  rewrite Forall_cons, <- (scanService_returns s w). split.
  - intros (w' & Hscan). apply bind_Done in Hscan as ([] & w1 & Hs & Hss).
    split; [by eexists|]. apply (IH w1). by eexists.
  - intros [(w1 & Hs) Hss]. apply (IH w1) in Hss as (w' & Hss).
    exists w'. apply bind_Done. by exists tt, w1.
Qed.

(** X2: the discovery returns, instead of aborting with a panic, exactly
    when every service of the registry can be handled: none of them
    reaches the unguarded use of the [object] field of the response of
    [Get], and the message types of the templates of every service that
    follows the convention resolve. *)
Theorem scan_returns_iff w :
  (∃ w', scan w = Done (tt, w')) ↔ Forall scannable allServices.
Proof.
  unfold scan, allServices. generalize GlobalFiles as files.
  intros files. revert w. induction files as [|f files IH]; intros w; cbn.
  { split; [by constructor|]. by eexists. }
  rewrite Forall_app, <- (scanServices_returns (file_services f) w). split.
  - intros (w' & Hscan).
    apply bind_Done in Hscan as (continue & w1 & Hf & Hrest).
    unfold scanFile in Hf.
    apply bind_Done in Hf as ([] & w2 & Hss & [= <- <-]).
    split; [by eexists|]. apply (IH w2). by eexists.
  - intros [(w1 & Hss) Hrest]. apply (IH w1) in Hrest as (w' & Hrest).
    exists w'. apply bind_Done. exists true, w1. split; [|done].
    unfold scanFile. apply bind_Done. by exists tt, w1.
Qed.

(** X3: in every helper that [scanService] appends, the [object] field of
    the response of [Get], the [items] field of the response of [List] and
    the [object] fields of the request and of the response of [Update] all
    have the object type of the helper as message type; the [id] fields
    are singular strings and the [filter] field is a string that is not
    repeated. *)
Theorem appended_helper_fields s w w' h :
  scanService s w = Done (tt, w') ->
  helpers (this w') = helpers (this w) ++ [h] ->
  singularMessage (oh_descriptor h) (gi_object (oh_get h))
  ∧ repeatedMessage (oh_descriptor h) (li_items (oh_list h))
  ∧ singularMessage (oh_descriptor h) (ui_in (oh_update h))
  ∧ singularMessage (oh_descriptor h) (ui_out (oh_update h))
  ∧ singularString (gi_id (oh_get h))
  ∧ singularString (di_id (oh_delete h))
  ∧ nonRepeatedString (li_filter (oh_list h)).
Proof.
  rewrite scanService_inspect.
  destruct (inspect s) as [| |sh] eqn:Hs; [|done|].
  { intros [= <-] Hhelpers. by apply not_appended in Hhelpers. }
  destruct (decide (resolves (methodsOf sh) (sh_object sh))) as [Hr|Hr];
    [|by rewrite register_unresolved].
  rewrite register_resolves by done. intros [= <-]. cbn.
  intros [= <-]%app_inv_head. cbn.
  clear Hr. revert Hs.
  unfold inspect, getMethodName, listMethodName, updateMethodName,
    deleteMethodName.
  intros Hs. repeat case_match; try discriminate.
  repeat case_bool_decide; try discriminate.
  injection Hs as <-. cbn.
  repeat match goal with
         | Hnn : ¬ _ ≠ _ |- _ => apply dec_stable in Hnn
         end.
  repeat match goal with
         | Hf : getIdField _ = Some _ |- _ =>
             apply getIdField_Some in Hf as [_ Hf]
         | Hf : getFilterField _ = Some _ |- _ =>
             apply getFilterField_Some in Hf as [_ Hf]
         end.
  repeat split; try done.
  all: try (eapply getObjectField_typed; split; eassumption).
  all: try (eapply getItemsField_typed; split; eassumption).
  all: match goal with
       | Hs : singularString _ |- _ => by destruct Hs
       | Hs : nonRepeatedString _ |- _ => by destruct Hs
       end.
Qed.

(** X4: when [scanService] appends a helper, its nine templates are nine
    different new locations of the heap. They hold blank messages: the
    object template one of the object type, and the request and response
    templates those of the input and output types of the four methods.
    The messages that were in the heap before are not changed. *)
Theorem appended_helper_templates s w w' h :
  scanService s w = Done (tt, w') ->
  helpers (this w') = helpers (this w) ++ [h] ->
  NoDup (templatesOfHelper h)
  ∧ Forall (fun l => length (heap w) ≤ l < length (heap w'))
           (templatesOfHelper h)
  ∧ (∃ ms,
        declares s ms
        ∧ (fun l => heap w' !! l) <$> templatesOfHelper h
          = (fun type => Some (Message_New type))
              <$> templateTypes ms (oh_descriptor h))
  ∧ ∀ l m, heap w !! l = Some m -> heap w' !! l = Some m.
Proof.
  rewrite scanService_inspect.
  destruct (inspect s) as [| |sh] eqn:Hs; [|done|].
  { intros [= <-] Hhelpers. by apply not_appended in Hhelpers. }
  destruct (decide (resolves (methodsOf sh) (sh_object sh))) as [Hr|Hr];
    [|by rewrite register_unresolved].
  rewrite register_resolves by done. intros [= <-]. cbn.
  intros [= <-]%app_inv_head.
  apply inspect_Accepted in Hs as [Hd _].
  unfold templatesOfHelper. cbn. rewrite length_app. cbn.
  split; [|split; [|split]].
  - repeat (apply NoDup_cons; split;
            [intros Hin;
             repeat (apply elem_of_cons in Hin as [Hin|Hin]; [lia|]);
             by apply elem_of_nil in Hin|]).
    apply NoDup_nil_2.
  - repeat (apply Forall_cons_2; [lia|]). apply Forall_nil_2.
  - exists (methodsOf sh). split; [done|]. cbn.
    rewrite <- (Nat.add_0_r (length (heap w))) at 1.
    by rewrite !lookup_offset.
  - intros l m Hl. by apply lookup_app_l_Some.
Qed.
End DiscoveryFacts.

(** * More properties of the enumeration and of the lookup *)

Section EnumerationMore.
Context `{!Transport} `{!Registry} `{!Pluralizer} `{!Strings}.

(** X5: after the first use of the helper, [Singulars], [Plurals] and
    [Lookup] do not scan again: they leave the state as it is and give the
    answers of the first use. *)
Theorem enumeration_is_stable w w' :
  scanIfNeeded w = Done (tt, w') ->
  ∃ singulars plurals,
    Singulars w = Done (singulars, w')
    ∧ Plurals w = Done (plurals, w')
    ∧ Singulars w' = Done (singulars, w')
    ∧ Plurals w' = Done (plurals, w')
    ∧ ∀ objectType, Lookup objectType w' = Lookup objectType w.
Proof.
  intros Hscan. pose proof (scanIfNeeded_idempotent _ _ Hscan) as Hagain.
  eexists _, _.
  split; [by apply Singulars_run|]. split; [by apply Plurals_run|].
  split; [by apply Singulars_run|]. split; [by apply Plurals_run|].
  intros objectType.
  by rewrite (Lookup_run _ _ _ Hscan), (Lookup_run _ _ _ Hagain).
Qed.

(** X6: every name that [Singulars] or [Plurals] lists is found by
    [Lookup], provided that a string is equal to itself under
    [EqualFold]. *)
Theorem Lookup_finds_listed_names w w' singulars plurals name :
  (∀ s, EqualFold s s = true) ->
  scanIfNeeded w = Done (tt, w') ->
  Singulars w = Done (singulars, w') ->
  Plurals w = Done (plurals, w') ->
  name ∈ singulars ++ plurals ->
  ∃ j found,
    Lookup name w = Done (Some j, w')
    ∧ helpers (this w') !! j = Some found
    ∧ designates name found.
Proof.
  intros Hrefl Hscan Hsingulars Hplurals Hname.
  rewrite (Singulars_run _ _ Hscan) in Hsingulars.
  rewrite (Plurals_run _ _ Hscan) in Hplurals.
  injection Hsingulars as <-. injection Hplurals as <-.
  rewrite (Lookup_run _ _ _ Hscan).
  assert (∃ h, h ∈ helpers (this w') ∧ designates name h) as (h & Hh & Hd).
  { apply elem_of_app in Hname as [Hname|Hname];
      rewrite sort_Strings_Permutation in Hname;
      apply list_elem_of_fmap in Hname as (h & -> & Hh);
      exists h; (split; [done|]); [left|right]; apply Hrefl. }
  destruct (lookupFrom name 0 (helpers (this w'))) as [j|] eqn:Hj.
  - apply lookupFrom_Some in Hj as (found & _ & Hfound & Hdf & _).
    rewrite Nat.sub_0_r in Hfound. by exists j, found.
  - by destruct (proj1 (lookupFrom_None _ _ _) Hj h).
Qed.
End EnumerationMore.

(** * More properties of the operations *)

Section OperationsMore.
Context `{!Transport}.

(** X7: when the remote invocation succeeds, [Get] has sent one request
    to the path of the [Get] method, which is the request template with
    its [id] field set to the identifier, and returns the [object] field
    of the response with no error. The templates are not changed. *)
Theorem Get_returns_object c id w requestTemplate blank srv response result :
  heap w !! mi_request (gi_methodInfo (oh_get c)) = Some requestTemplate ->
  heap w !! mi_response (gi_methodInfo (oh_get c)) = Some blank ->
  Invoke (server w) (mi_path (gi_methodInfo (oh_get c)))
         (Message_Set requestTemplate (gi_id (oh_get c)) (ValueOfString id))
         blank
  = (srv, response, None) ->
  objectOf response (gi_object (oh_get c)) = Some result ->
  ∃ request w',
    Get c id w = Done ((Some result, None), w')
    ∧ calls w'
      = calls w ++ [{| call_path := mi_path (gi_methodInfo (oh_get c));
                       call_request := request;
                       call_response := blank |}]
    ∧ Message_Get request (gi_id (oh_get c)) = ValueOfString id
    ∧ (∀ name, name ≠ fd_name (gi_id (oh_get c)) ->
               msg_fields request !! name = msg_fields requestTemplate !! name)
    ∧ (∀ l m, heap w !! l = Some m -> heap w' !! l = Some m).
Proof.
  intros Hrequest Hresponse Hinvoke Hresult.
  eexists _, _. split.
  { by apply (Get_run c id w requestTemplate blank srv response None result). }
  split; [done|]. split; [apply Message_Get_Set|]. split.
  - intros name Hname. destruct requestTemplate as [type fields]. cbn.
    by rewrite lookup_insert_ne.
  - intros l m. apply invoked_preserves.
Qed.

(** X8: when the remote invocation succeeds, [Update] has sent one
    request to the path of the [Update] method, whose [object] field is
    the object given by the caller, and returns the [object] field of the
    response as it is, with no error. *)
Theorem Update_returns_object c object w requestTemplate blank srv response
        result :
  heap w !! mi_request (ui_methodInfo (oh_update c)) = Some requestTemplate ->
  heap w !! mi_response (ui_methodInfo (oh_update c)) = Some blank ->
  FieldDescriptor_Message (ui_in (oh_update c)) = Some (msg_type object) ->
  Invoke (server w) (mi_path (ui_methodInfo (oh_update c)))
         (Message_Set requestTemplate (ui_in (oh_update c))
                      (ValueOfMessage object)) blank
  = (srv, response, None) ->
  objectOf response (ui_out (oh_update c)) = Some result ->
  ∃ request w',
    Update c object w = Done ((Some result, None), w')
    ∧ calls w'
      = calls w ++ [{| call_path := mi_path (ui_methodInfo (oh_update c));
                       call_request := request;
                       call_response := blank |}]
    ∧ Message_Get request (ui_in (oh_update c)) = ValueOfMessage object
    ∧ Message_Get response (ui_out (oh_update c)) = ValueOfMessage result
    ∧ (∀ l m, heap w !! l = Some m -> heap w' !! l = Some m).
Proof.
  intros Hrequest Hresponse Htyped Hinvoke Hresult.
  eexists _, _. split.
  { by apply (Update_run c object w requestTemplate blank srv response None
                         result). }
  split; [done|]. split; [apply Message_Get_Set|]. split.
  - unfold objectOf in Hresult.
    destruct (Message_Get response (ui_out (oh_update c))); try done.
    by injection Hresult as ->.
  - intros l m. apply invoked_preserves.
Qed.

(** X9: two calls of [Instance] give two different new messages with the
    content of the template, and setting a field of the first one changes
    neither the second one nor the template. *)
Theorem Instance_is_independent h w m fd v :
  heap w !! oh_template h = Some m ->
  ∃ first second w1 w2 w3,
    Instance_ h w = Done (first, w1)
    ∧ Instance_ h w1 = Done (second, w2)
    ∧ Set_ first fd (ValueOfString v) w2 = Done (tt, w3)
    ∧ first ≠ second
    ∧ first ≠ oh_template h ∧ second ≠ oh_template h
    ∧ heap w2 !! first = Some m
    ∧ heap w2 !! second = Some m
    ∧ heap w3 !! first = Some (Message_Set m fd (ValueOfString v))
    ∧ heap w3 !! second = Some m
    ∧ heap w3 !! oh_template h = Some m.
Proof.
  intros Htemplate.
  pose proof (lookup_lt_Some _ _ _ Htemplate) as Hlt.
  exists (length (heap w)), (S (length (heap w))).
  eexists _, _, _. unfold Instance_.
  split; [by apply Clone_run|]. split.
  { rewrite (Clone_run _ m) by (by apply lookup_template).
    cbn. rewrite length_app. cbn.
    by replace (length (heap w) + 1) with (S (length (heap w))) by lia. }
  split.
  { unfold Set_, mbind, M_bind, load, store. cbn.
    rewrite <- app_assoc. cbn. by rewrite list_lookup_middle. }
  cbn. rewrite <- app_assoc. cbn.
  split; [lia|]. split; [lia|]. split; [lia|].
  split; [by rewrite list_lookup_middle|].
  assert (∀ a b, (heap w ++ [a; b]) !! S (length (heap w)) = Some b) as Hsnd.
  { intros a b. change [a; b] with ([a] ++ [b]). rewrite app_assoc.
    replace (S (length (heap w))) with (length (heap w ++ [a]))
      by (rewrite length_app; cbn; lia).
    by rewrite list_lookup_middle. }
  split; [done|]. split.
  { rewrite list_lookup_insert_eq; [done|]. rewrite length_app. cbn. lia. }
  split.
  - rewrite list_lookup_insert_ne by lia. done.
  - rewrite list_lookup_insert_ne by lia. by apply lookup_template.
Qed.

(** X10: the calls do not interfere. The second of two calls of [Get]
    sends the request template with only its own identifier set, and
    hands the same blank response to the transport, whatever the first call
    did. *)
Theorem Get_twice c id1 id2 w requestTemplate blank srv1 response1 err1
        result1 srv2 response2 err2 result2 :
  heap w !! mi_request (gi_methodInfo (oh_get c)) = Some requestTemplate ->
  heap w !! mi_response (gi_methodInfo (oh_get c)) = Some blank ->
  Invoke (server w) (mi_path (gi_methodInfo (oh_get c)))
         (Message_Set requestTemplate (gi_id (oh_get c)) (ValueOfString id1))
         blank
  = (srv1, response1, err1) ->
  (err1 = None -> objectOf response1 (gi_object (oh_get c)) = Some result1) ->
  Invoke srv1 (mi_path (gi_methodInfo (oh_get c)))
         (Message_Set requestTemplate (gi_id (oh_get c)) (ValueOfString id2))
         blank
  = (srv2, response2, err2) ->
  (err2 = None -> objectOf response2 (gi_object (oh_get c)) = Some result2) ->
  ∃ out1 w1 out2 w2,
    Get c id1 w = Done (out1, w1)
    ∧ Get c id2 w1 = Done (out2, w2)
    ∧ calls w2
      = calls w
          ++ [{| call_path := mi_path (gi_methodInfo (oh_get c));
                 call_request :=
                   Message_Set requestTemplate (gi_id (oh_get c))
                               (ValueOfString id1);
                 call_response := blank |};
              {| call_path := mi_path (gi_methodInfo (oh_get c));
                 call_request :=
                   Message_Set requestTemplate (gi_id (oh_get c))
                               (ValueOfString id2);
                 call_response := blank |}].
Proof.
  intros Hrequest Hresponse Hinvoke1 Hresult1 Hinvoke2 Hresult2.
  eexists _, _, _, _. split.
  { by apply (Get_run c id1 w requestTemplate blank srv1 response1 err1
                      result1). }
  split.
  { apply (Get_run c id2 _ requestTemplate blank srv2 response2 err2 result2);
      [by apply invoked_preserves..|done|done]. }
  cbn. by rewrite <- app_assoc.
Qed.
End OperationsMore.

(** * The path of a method *)

Lemma hasDot_append (a b : string) :
  hasDot (a +:+ b) = hasDot a || hasDot b.
Proof.
  induction a as [|c a IH]; simpl; [done|]. by rewrite IH, orb_assoc.
Qed.

Lemma FullName_Name_qualified (parent : FullName) (name : Name) :
  hasDot name = false ->
  FullName_Name (parent +:+ String "." name) = name.
Proof.
  intros Hname. induction parent as [|c parent IH]; simpl.
  - by rewrite Hname.
  - rewrite hasDot_append. simpl. by rewrite orb_true_r.
Qed.

Lemma FullName_Parent_qualified (parent : FullName) (name : Name) :
  hasDot name = false ->
  FullName_Parent (parent +:+ String "." name) = parent.
Proof.
  intros Hname. induction parent as [|c parent IH]; simpl.
  - by rewrite Hname.
  - rewrite hasDot_append. simpl. rewrite orb_true_r. by rewrite IH.
Qed.

(** X11: the path of the method [name] of the service [service] is
    [/service/name], where [service] is the full name of the service with
    its package. *)
Theorem makeMethodPath_convention (service : FullName) (name : Name)
        (input output : MessageDescriptor) :
  hasDot name = false ->
  makeMethodPath {| mth_full_name := service +:+ "." +:+ name;
                    mth_input := input; mth_output := output |}
  = "/" +:+ service +:+ "/" +:+ name.
Proof.
  intros Hname. unfold makeMethodPath, MethodDescriptor_Name.
  cbn [mth_full_name].
  change (service +:+ "." +:+ name) with (service +:+ String "." name).
  by rewrite FullName_Name_qualified, FullName_Parent_qualified.
Qed.

(** * The command that reads objects *)

Section GetCommandFacts.
Context `{!Transport}.

Lemma getFrom_run c requestTemplate blank ids : ∀ i objects w,
  heap w !! mi_request (gi_methodInfo (oh_get (rc_helper c)))
  = Some requestTemplate ->
  heap w !! mi_response (gi_methodInfo (oh_get (rc_helper c))) = Some blank ->
  (∀ srv id srv' response,
      Invoke srv (mi_path (gi_methodInfo (oh_get (rc_helper c))))
             (requestFor c requestTemplate id) blank
      = (srv', response, None) ->
      is_Some (objectOf response (gi_object (oh_get (rc_helper c))))) ->
  i + length ids ≤ length objects ->
  ∃ out w',
    getFrom c i ids objects w = Done (out, w')
    ∧ match out with
      | (Some results, None) =>
          answerAll c requestTemplate blank (server w) ids = Some (server w')
          ∧ call_request <$> calls w'
            = (call_request <$> calls w)
                ++ (requestFor c requestTemplate <$> ids)
          ∧ length results = length objects
          ∧ (∀ j, j < i -> results !! j = objects !! j)
          ∧ (∀ j, i ≤ j < i + length ids ->
                  ∃ object, results !! j = Some (Some object))
      | (None, Some e) =>
          ∃ earlier id later srv response,
            ids = earlier ++ id :: later
            ∧ answerAll c requestTemplate blank (server w) earlier = Some srv
            ∧ Invoke srv (mi_path (gi_methodInfo (oh_get (rc_helper c))))
                     (requestFor c requestTemplate id) blank
              = (server w', response, Some e)
            ∧ call_request <$> calls w'
              = (call_request <$> calls w)
                  ++ (requestFor c requestTemplate <$> earlier ++ [id])
      | _ => False
      end.
Proof.
  induction ids as [|id ids IH]; intros i objects w Hrequest Hresponse
                                        Htyped Hlength; cbn.
  { exists (Some objects, None), w. cbn.
    rewrite app_nil_r. repeat split; try done. intros j Hj. lia. }
  destruct (Invoke (server w)
              (mi_path (gi_methodInfo (oh_get (rc_helper c))))
              (requestFor c requestTemplate id) blank)
    as [[srv response] err] eqn:Hinvoke.
  unfold mbind at 1, M_bind at 1.
  destruct err as [e|].
  - rewrite (Get_run _ id w requestTemplate blank srv response (Some e)
               (Message_New "")) by done.
    eexists (None, Some e), _. split; [done|]. cbn.
    exists [], id, ids, (server w), response. cbn.
    split; [done|]. split; [done|]. split; [done|].
    by rewrite fmap_app.
  - destruct (Htyped _ _ _ _ Hinvoke) as [result Hresult].
    rewrite (Get_run _ id w requestTemplate blank srv response None result)
      by done.
    cbn in Hlength.
    destruct (IH (S i) (<[i := Some result]> objects)
                 (invoked w (mi_path (gi_methodInfo (oh_get (rc_helper c))))
                          (requestFor c requestTemplate id) blank srv
                          response))
      as (out & w' & Hrun & Hout);
      [by apply invoked_preserves..|done|rewrite length_insert; lia|].
    exists out, w'. split; [done|].
    destruct out as [[results|] [e|]]; try done.
    + destruct Hout as (Hall & Hcalls & Hlen & Hbefore & Hfilled).
      cbn in Hall. rewrite length_insert in Hlen.
      split; [done|]. split.
      { rewrite Hcalls. cbn. by rewrite fmap_app, <- app_assoc. }
      split; [done|]. split.
      * intros j Hj. rewrite Hbefore by lia.
        by rewrite list_lookup_insert_ne by lia.
      * intros j Hj. destruct (decide (j = i)) as [->|Hne].
        -- exists result. rewrite Hbefore by lia.
           apply list_lookup_insert_eq. lia.
        -- apply Hfilled. lia.
    + destruct Hout as (earlier & id' & later & srv1 & response1 & -> & Hall
                        & Hfail & Hcalls).
      cbn in Hall.
      exists (id :: earlier), id', later, srv1, response1. cbn.
      rewrite Hinvoke.
      split; [done|]. split; [done|]. split; [done|].
      rewrite Hcalls. cbn. by rewrite fmap_app, <- app_assoc.
Qed.

(** X12: the function [get] of the command asks for the objects one by
    one in the order of the identifiers and stops at the first failure. If
    all the calls succeed it has sent one request for each identifier and
    returns one object for each of them. If one fails it returns the error
    of that call and no object at all; all the calls before it had
    succeeded, and it is the last call that was made, so the identifiers
    after the failed one are not asked for. *)
Theorem get_all_or_nothing c ids w requestTemplate blank :
  heap w !! mi_request (gi_methodInfo (oh_get (rc_helper c)))
  = Some requestTemplate ->
  heap w !! mi_response (gi_methodInfo (oh_get (rc_helper c))) = Some blank ->
  (∀ srv id srv' response,
      Invoke srv (mi_path (gi_methodInfo (oh_get (rc_helper c))))
             (requestFor c requestTemplate id) blank
      = (srv', response, None) ->
      is_Some (objectOf response (gi_object (oh_get (rc_helper c))))) ->
  ∃ out w',
    runnerContext_get c ids w = Done (out, w')
    ∧ match out with
      | (Some results, None) =>
          answerAll c requestTemplate blank (server w) ids = Some (server w')
          ∧ call_request <$> calls w'
            = (call_request <$> calls w)
                ++ (requestFor c requestTemplate <$> ids)
          ∧ length results = length ids
          ∧ Forall is_Some results
      | (None, Some e) =>
          ∃ earlier id later srv response,
            ids = earlier ++ id :: later
            ∧ answerAll c requestTemplate blank (server w) earlier = Some srv
            ∧ Invoke srv (mi_path (gi_methodInfo (oh_get (rc_helper c))))
                     (requestFor c requestTemplate id) blank
              = (server w', response, Some e)
            ∧ call_request <$> calls w'
              = (call_request <$> calls w)
                  ++ (requestFor c requestTemplate <$> earlier ++ [id])
      | _ => False
      end.
Proof.
  intros Hrequest Hresponse Htyped.
  destruct (getFrom_run c requestTemplate blank ids 0
              (replicate (length ids) None) w Hrequest Hresponse Htyped)
    as (out & w' & Hrun & Hout).
  { by rewrite length_replicate. }
  exists out, w'. split; [done|].
  destruct out as [[results|] [e|]]; try done.
  destruct Hout as (Hall & Hcalls & Hlen & _ & Hfilled).
  rewrite length_replicate in Hlen.
  split; [done|]. split; [done|]. split; [done|].
  apply Forall_lookup_2. intros j object Hj.
  destruct (Hfilled j) as [found Hfound].
  { apply lookup_lt_Some in Hj. lia. }
  rewrite Hfound in Hj. by injection Hj as <-.
Qed.

(** X13: the function [list] of the command always sends a filter unless
    the deleted objects are asked for. The filter then starts with the
    condition that the object is not deleted, and the filter of the user,
    if there is one, follows it between parentheses. When the deleted
    objects are asked for, the filter of the user is sent as it is, and no
    filter at all if there is none. *)
Theorem list_filter c w requestTemplate blank srv response err items :
  heap w !! mi_request (li_methodInfo (oh_list (rc_helper c)))
  = Some requestTemplate ->
  heap w !! mi_response (li_methodInfo (oh_list (rc_helper c)))
  = Some blank ->
  let sent (filter : string) :=
    Message_Set requestTemplate (li_filter (oh_list (rc_helper c)))
                (ValueOfString filter) in
  let request :=
    if rc_includeDeleted c then
      if bool_decide (rc_filter c = "") then requestTemplate
      else sent (rc_filter c)
    else
      if bool_decide (rc_filter c = "") then sent notDeletedFilter
      else sent (notDeletedFilter +:+ " && (" +:+ rc_filter c +:+ ")") in
  Invoke (server w) (mi_path (li_methodInfo (oh_list (rc_helper c))))
         request blank
  = (srv, response, err) ->
  (err = None ->
   Message_Get response (li_items (oh_list (rc_helper c)))
   = ValueOfList (ValueOfMessage <$> items)) ->
  runnerContext_list c w
  = Done (match err with
          | Some e => (None, Some e)
          | None => (Some items, None)
          end,
          invoked w (mi_path (li_methodInfo (oh_list (rc_helper c))))
                  request blank srv response).
Proof.
  intros Hrequest Hresponse sent request Hinvoke Hitems.
  unfold runnerContext_list.
  assert ((if bool_decide (Filter (listOptions c) ≠ "")
           then Message_Set requestTemplate
                  (li_filter (oh_list (rc_helper c)))
                  (ValueOfString (Filter (listOptions c)))
           else requestTemplate) = request) as Hsame.
  { subst request sent. unfold listOptions, notDeletedFilter.
    destruct (rc_includeDeleted c); cbn;
      repeat case_bool_decide; cbn in *; try done. }
  clearbody request. subst request. by apply List_run.
Qed.
End GetCommandFacts.
(** * The token source that runs a script *)

Section ScriptTokenSourceFacts.
Context `{!TokenEnvironment}.

Lemma generateToken_runs script w :
  ∃ out w',
    generateToken script w = Done (out, w')
    ∧ tw_runs w' = S (tw_runs w) ∧ tw_saved w' = tw_saved w
    ∧ (out.2 = None ->
       ∃ st text,
         runScript script (tw_store w) = (st, (text, None))
         ∧ out.1 = TrimSpace text).
Proof.
  unfold generateToken.
  destruct (runScript script (tw_store w)) as [st [text [e|]]];
    eexists _, _; (split; [done|]); (split; [done|]); (split; [done|]);
    cbn; [done|].
  intros _. by exists st, text.
Qed.

Lemma loadToken_keeps w :
  ∃ out w',
    loadToken w = Done (out, w')
    ∧ tw_runs w' = tw_runs w ∧ tw_saved w' = tw_saved w
    ∧ ∃ st, loadTokenFunc (tw_store w) = (st, out).
Proof.
  unfold loadToken. destruct (loadTokenFunc (tw_store w)) as [st result].
  eexists _, _. split; [done|]. split; [done|]. split; [done|].
  by exists st.
Qed.

Lemma saveToken_saves token w :
  ∃ err w',
    saveToken token w = Done (err, w')
    ∧ tw_runs w' = tw_runs w ∧ tw_saved w' = tw_saved w ++ [token].
Proof.
  unfold saveToken. destruct (saveTokenFunc token (tw_store w)) as [st e].
  by eexists _, _.
Qed.

(** [parseToken] panics exactly on the tokens whose claims hold no
    expiration time. *)
Lemma parseToken_Panic text reason :
  parseToken text = Panic reason
  ↔ reason = nilDereference
    ∧ ∃ claims,
        ParseUnverified text = inl claims
        ∧ GetExpirationTime claims = inl None.
Proof.
  unfold parseToken. split.
  - destruct (ParseUnverified text) as [claims|e]; [|done].
    destruct (GetExpirationTime claims) as [[t|]|e] eqn:Hexp; try done.
    intros [= <-]. split; [done|]. by exists claims.
  - intros (-> & claims & -> & ->). done.
Qed.

(** X14: one call of [Token] either panics or returns. It panics only
    with a nil dereference in [parseToken], on a text that it parses: the
    stored token or what the script printed, when the claims of that
    text hold no expiration time. When it returns it has run the script
    at most twice and saved at most one token; a token that it saves has
    been parsed as a JSON web token, so that the text of a token that
    cannot be parsed is never saved; and it returns either a token or an
    error, never both and never neither. *)
Theorem Token_runs_and_saves script w :
  (Token_ script w = Panic nilDereference
   ∧ ∃ text,
       parseToken text = Panic nilDereference
       ∧ ((∃ st, loadTokenFunc (tw_store w) = (st, (text, None)))
          ∨ ∃ st st' out,
              runScript script st = (st', (out, None))
              ∧ text = TrimSpace out))
  ∨ ∃ result err w',
      Token_ script w = Done ((result, err), w')
      ∧ tw_runs w ≤ tw_runs w' ≤ tw_runs w + 2
      ∧ (tw_saved w' = tw_saved w
         ∨ ∃ text parsed,
             tw_saved w' = tw_saved w ++ [text]
             ∧ parseToken text = Done (inl parsed)
             ∧ (result = Some parsed ∨ result = None))
      ∧ (is_Some result ↔ err = None).
Proof.
  unfold Token_, mbind, T_bind, mret, T_ret, outcome.
  destruct (loadToken_keeps w)
    as ([raw [e|]] & w1 & -> & Hr1 & Hs1 & st0 & Hload).
  { right. eexists _, _, _. split; [done|]. rewrite Hr1, Hs1.
    split; [lia|]. split; [by left|]. split; [by intros [? ?]|done]. }
  assert (∃ raw2 err2 w2,
             (if bool_decide (raw = "")
              then generateToken script
              else (fun w => Done ((raw, None), w))) w1
             = Done ((raw2, err2), w2)
             ∧ tw_runs w1 ≤ tw_runs w2 ≤ tw_runs w1 + 1
             ∧ tw_saved w2 = tw_saved w1
             ∧ (err2 = None ->
                (∃ st, loadTokenFunc (tw_store w) = (st, (raw2, None)))
                ∨ ∃ st st' out,
                    runScript script st = (st', (out, None))
                    ∧ raw2 = TrimSpace out))
    as (raw2 & err2 & w2 & Hfirst & Hr2 & Hs2 & Hfrom2).
  { case_bool_decide.
    - destruct (generateToken_runs script w1)
        as ([raw2 err2] & w2 & Hg & Hr & Hs & Hout).
      eexists _, _, _. split; [done|]. split; [lia|]. split; [done|].
      intros ->. destruct (Hout eq_refl) as (st & text & Hrun & Heq).
      right. by exists (tw_store w1), st, text.
    - eexists _, _, _. split; [done|]. split; [lia|]. split; [done|].
      intros _. left. by exists st0. }
  rewrite Hfirst. clear Hfirst.
  destruct err2 as [e|].
  { right. eexists _, _, _. split; [done|]. rewrite Hs2, Hs1.
    split; [lia|]. split; [by left|]. split; [by intros [? ?]|done]. }
  specialize (Hfrom2 eq_refl).
  destruct (parseToken raw2) as [[parsed|e]|reason] eqn:Hparse;
    cbv beta iota.
  - destruct (expired parsed).
    + destruct (generateToken_runs script w2)
        as ([raw3 [e|]] & w3 & -> & Hr3 & Hs3 & Hout3).
      { right. eexists _, _, _. split; [done|]. rewrite Hs3, Hs2, Hs1.
        split; [lia|]. split; [by left|]. split; [by intros [? ?]|done]. }
      destruct (Hout3 eq_refl) as (st3 & text3 & Hrun3 & Hraw3).
      cbn in Hraw3. subst raw3.
      destruct (parseToken (TrimSpace text3)) as [[parsed3|e3]|reason3]
        eqn:Hparse3; cbv beta iota.
      * right.
        destruct (saveToken_saves (TrimSpace text3) w3)
          as ([e|] & w4 & -> & Hr4 & Hs4);
          (eexists _, _, _; split; [done|]); rewrite Hs4, Hs3, Hs2, Hs1;
          (split; [lia|]);
          (split; [right; exists (TrimSpace text3), parsed3; eauto|]).
        -- split; [by intros [? ?]|done].
        -- split; [done|by eexists].
      * right. eexists _, _, _. split; [done|]. rewrite Hs3, Hs2, Hs1.
        split; [lia|]. split; [by left|]. split; [done|by eexists].
      * left. pose proof Hparse3 as Hpanic.
        apply parseToken_Panic in Hpanic as (-> & _).
        split; [done|]. exists (TrimSpace text3). split; [done|].
        right. by exists (tw_store w2), st3, text3.
    + right.
      destruct (saveToken_saves raw2 w2) as ([e|] & w3 & -> & Hr3 & Hs3);
        (eexists _, _, _; split; [done|]); rewrite Hs3, Hs2, Hs1;
        (split; [lia|]); (split; [right; exists raw2, parsed; eauto|]).
      * split; [by intros [? ?]|done].
      * split; [done|by eexists].
  - right.
    destruct (generateToken_runs script w2)
      as ([raw3 [e3|]] & w3 & -> & Hr3 & Hs3 & _);
      (eexists _, _, _; split; [done|]); rewrite Hs3, Hs2, Hs1;
      (split; [lia|]); (split; [by left|]).
    + split; [by intros [? ?]|done].
    + split; [done|by eexists].
  - left. pose proof Hparse as Hpanic.
    apply parseToken_Panic in Hpanic as (-> & _).
    split; [done|]. by exists raw2.
Qed.

(** X15: when the stored token is a JSON web token that has not expired,
    [Token] returns it without running the script, and saves it again. *)
Theorem Token_reuses_valid_token script w st raw parsed st' :
  loadTokenFunc (tw_store w) = (st, (raw, None)) ->
  raw ≠ "" ->
  parseToken raw = Done (inl parsed) ->
  expired parsed = false ->
  saveTokenFunc raw st = (st', None) ->
  Token_ script w
  = Done ((Some parsed, None),
          {| tw_store := st'; tw_saved := tw_saved w ++ [raw];
             tw_runs := tw_runs w |}).
Proof.
  intros Hload Hraw Hparse Hexpired Hsave.
  unfold Token_, mbind, T_bind, mret, T_ret, loadToken, outcome.
  rewrite Hload. rewrite bool_decide_eq_false_2 by done.
  rewrite Hparse, Hexpired. unfold saveToken. cbn. by rewrite Hsave.
Qed.

(** X16: when nothing is stored and the script prints something that is
    not a JSON web token, [Token] runs the script a second time and
    returns what the second run prints, without an expiry and without
    saving it; the output of the first run is dropped. *)
Theorem Token_of_opaque_script script w st st1 out1 e st2 out2 :
  loadTokenFunc (tw_store w) = (st, ("", None)) ->
  runScript script st = (st1, (out1, None)) ->
  parseToken (TrimSpace out1) = Done (inr e) ->
  runScript script st1 = (st2, (out2, None)) ->
  Token_ script w
  = Done ((Some {| AccessToken := TrimSpace out2; Expiry := None |}, None),
          {| tw_store := st2; tw_saved := tw_saved w;
             tw_runs := S (S (tw_runs w)) |}).
Proof.
  intros Hload Hrun1 Hparse Hrun2.
  unfold Token_, mbind, T_bind, mret, T_ret, loadToken, outcome.
  rewrite Hload. rewrite bool_decide_eq_true_2 by done.
  unfold generateToken at 1. cbn. rewrite Hrun1. cbn. rewrite Hparse.
  unfold generateToken. cbn. by rewrite Hrun2.
Qed.

End ScriptTokenSourceFacts.

(** ** The cells of enumerated types *)

Section EnumCellFacts.
Context `{!Writer}.

Lemma LastIndex_absent s sep :
  sep ∉ list_ascii_of_string s -> LastIndex s sep = None.
Proof.
  induction s as [|c s IH]; [done|]. cbn [list_ascii_of_string LastIndex].
  rewrite not_elem_of_cons. intros [Hc Hs]. rewrite (IH Hs).
  by rewrite bool_decide_eq_false_2.
Qed.

Lemma LastIndex_append p sep tail :
  sep ∉ list_ascii_of_string tail ->
  LastIndex (p +:+ String sep tail) sep = Some (String.length p).
Proof.
  intros Htail. induction p as [|c p IH]; simpl.
  - rewrite (LastIndex_absent _ _ Htail). by rewrite bool_decide_eq_true_2.
  - by rewrite IH.
Qed.

Lemma sliceTo_append p s : sliceTo (String.length p) (p +:+ s) = Some p.
Proof.
  induction p as [|c p IH]; simpl; [by destruct s|].
  by rewrite IH.
Qed.

Lemma HasPrefix_append p s : HasPrefix (p +:+ s) p = true.
Proof.
  unfold HasPrefix. induction p as [|c p IH]; simpl.
  - change ("" +:+ s) with s. by destruct s.
  - destruct (ascii_dec c c); [exact IH|done].
Qed.

Lemma HasPrefix_refl p : HasPrefix p p = true.
Proof.
  unfold HasPrefix. induction p as [|c p IH]; simpl; [done|].
  destruct (ascii_dec c c); [exact IH|done].
Qed.

Lemma sliceFrom_append p c rest :
  sliceFrom (String.length p + 1) (p +:+ String c rest) = Some rest.
Proof. induction p as [|a p IH]; cbn; [done|]. apply IH. Qed.

Lemma sliceFrom_short p : sliceFrom (String.length p + 1) p = None.
Proof. induction p as [|a p IH]; cbn; [done|]. apply IH. Qed.

Lemma EnumNumber_periodic val k :
  EnumNumber (val + k * 2 ^ 32) = EnumNumber val.
Proof.
  unfold EnumNumber. f_equal.
  replace (val + k * 2 ^ 32 + 2 ^ 31)%Z with (val + 2 ^ 31 + k * 2 ^ 32)%Z
    by lia.
  by rewrite Z.mod_add.
Qed.

(** X17: for an enum that follows the style guide, whose value with the
    number zero is named with a prefix, an underscore and a last word, the
    cell of a value whose name starts with the prefix is the name without
    the prefix and without the character after it, whatever that character
    is; the cell of a value whose name does not start with the prefix is
    its whole name. *)
Theorem enum_cell_strips_prefix writer val valueDescs valueDesc
        unspecifiedDesc prefix tail :
  ByNumber valueDescs (EnumNumber val) = Some valueDesc ->
  ByNumber valueDescs 0 = Some unspecifiedDesc ->
  ev_name unspecifiedDesc = prefix +:+ String "_" tail ->
  "_"%char ∉ list_ascii_of_string tail ->
  (∀ c rest,
      ev_name valueDesc = prefix +:+ String c rest ->
      renderTableCellEnumType writer val valueDescs = written writer rest)
  ∧ (HasPrefix (ev_name valueDesc) prefix = false ->
     renderTableCellEnumType writer val valueDescs
     = written writer (ev_name valueDesc)).
Proof.
  intros Hvalue Hzero Hname Htail. unfold renderTableCellEnumType.
  rewrite Hvalue, Hzero, Hname, (LastIndex_append _ _ _ Htail),
    sliceTo_append.
  split.
  - intros c rest ->. by rewrite HasPrefix_append, sliceFrom_append.
  - by intros ->.
Qed.

(** X18: the cell is not rendered when the number is not one of the enum,
    when the enum has no value with the number zero, or when the name of
    the value is the bare prefix of the name of the value zero. The
    function then panics, except that for an unknown number it returns the
    error of the writer when writing [UNKNOWN:] and the number failed. *)
Theorem enum_cell_fails writer val valueDescs :
  ByNumber valueDescs (EnumNumber val) = None
  ∨ ByNumber valueDescs 0 = None
  ∨ (∃ valueDesc unspecifiedDesc tail,
        ByNumber valueDescs (EnumNumber val) = Some valueDesc
        ∧ ByNumber valueDescs 0 = Some unspecifiedDesc
        ∧ ev_name unspecifiedDesc = ev_name valueDesc +:+ String "_" tail
        ∧ "_"%char ∉ list_ascii_of_string tail) ->
  (∃ reason, renderTableCellEnumType writer val valueDescs = Panic reason)
  ∨ (∃ e writer',
        ByNumber valueDescs (EnumNumber val) = None
        ∧ Fprintf ("UNKNOWN:" +:+ pretty val) writer = (writer', Some e)
        ∧ renderTableCellEnumType writer val valueDescs
          = Done (Some e, writer')).
Proof.
  unfold renderTableCellEnumType.
  intros [Hvalue|[Hzero|(valueDesc & unspecifiedDesc & tail & Hvalue & Hzero
                          & Hname & Htail)]].
  - rewrite Hvalue.
    destruct (Fprintf ("UNKNOWN:" +:+ pretty val) writer) as [writer' [e|]].
    + right. by exists e, writer'.
    + left. by eexists.
  - rewrite Hzero. destruct (ByNumber valueDescs (EnumNumber val)).
    + left. by eexists.
    + destruct (Fprintf ("UNKNOWN:" +:+ pretty val) writer) as [writer' [e|]].
      * right. by exists e, writer'.
      * left. by eexists.
  - left. rewrite Hvalue, Hzero, Hname, (LastIndex_append _ _ _ Htail),
      sliceTo_append.
    rewrite HasPrefix_refl, sliceFrom_short. by eexists.
Qed.

(** X19: the number of the value is the 64 bit integer cut to 32 bits, so
    two integers that differ by a multiple of two to the power 32 give the
    same cell when the number they are cut to is one of the enum. *)
Theorem enum_cell_wraps writer val k valueDescs valueDesc :
  ByNumber valueDescs (EnumNumber val) = Some valueDesc ->
  renderTableCellEnumType writer (val + k * 2 ^ 32) valueDescs
  = renderTableCellEnumType writer val valueDescs.
Proof.
  intros Hvalue. unfold renderTableCellEnumType.
  by rewrite EnumNumber_periodic, Hvalue.
Qed.

End EnumCellFacts.

(** * The properties in concrete registries *)

#[local] Existing Instance Fulfillment.transport.
#[local] Existing Instance Fulfillment.registry.
#[local] Existing Instance Fulfillment.pluralizer.
#[local] Existing Instance Fulfillment.asciiStrings.

(** ** Discovery of one service *)

Lemma users_unguarded : unguarded Registries.users.
Proof. apply inspect_Crashes. reflexivity. Defined.

Lemma scanService_panics_without_object_witness :
unguarded Registries.users
∧ @scanService Fulfillment.transport Registries.accounts
    Registries.users reachable
  = Panic nilDereference.
Proof.
split; [exact users_unguarded|].
exact (@scanService_panics_without_object Fulfillment.transport
         Registries.accounts Registries.users reachable
         users_unguarded).
Defined.

(** The panic reaches the caller of [Singulars]: with the service [Users]
  in the registry, the first use of the helper panics. *)
Example Singulars_panics_with_users :
@Singulars Fulfillment.transport Registries.accounts
  Fulfillment.asciiStrings reachable
= Panic nilDereference.
Proof. by_computation. Qed.

Example scanService_untyped_clusters :
  @scanService Fulfillment.transport Registries.untyped
    Fulfillment.clusters reachable
  = Panic "proto: not found".
Proof. by_computation. Qed.

Lemma clusters_declares : declares Fulfillment.clusters clustersMethods.
Proof. repeat split. Defined.

Lemma clusters_wellShaped :
wellShaped clustersMethods "fulfillment.v1.Cluster".
Proof. repeat split; field_shape. Defined.

Lemma clusters_resolves :
@resolves Fulfillment.registry clustersMethods "fulfillment.v1.Cluster".
Proof.
  unfold resolves, templateTypes.
  repeat (apply Forall_cons_2; [in_registry|]). apply Forall_nil_2.
Defined.

Lemma clusters_unresolved :
¬ @resolves Registries.untyped clustersMethods "fulfillment.v1.Cluster".
Proof.
unfold resolves. cbn. intros Hall. apply Forall_cons in Hall as [Hin _].
by apply not_elem_of_nil in Hin.
Defined.

Lemma events_guarded : ¬ unguarded Fulfillment.eventsService.
Proof. intros Hu. by apply inspect_Crashes in Hu. Defined.

Lemma events_no_convention object :
¬ followsConvention Fulfillment.eventsService object.
Proof. intros (ms & (Hget & _) & _). discriminate Hget. Defined.

Lemma scanService_characterisation_witness :
@appends Fulfillment.transport Fulfillment.registry
   Fulfillment.clusters reachable "fulfillment.v1.Cluster"
∧ @scanService Fulfillment.transport Registries.untyped
    Fulfillment.clusters reachable
  = Panic "proto: not found"
∧ @scanService Fulfillment.transport Fulfillment.registry
    Fulfillment.eventsService reachable
  = Done (tt, reachable).
Proof.
split; [|split].
- apply (proj1 (@scanService_characterisation Fulfillment.transport
                  Fulfillment.registry Fulfillment.clusters
                  reachable)).
  exists clustersMethods.
  exact (conj clusters_declares
              (conj clusters_wellShaped clusters_resolves)).
- exact (proj1 (proj2 (@scanService_characterisation
                         Fulfillment.transport Registries.untyped
                         Fulfillment.clusters reachable))
               clustersMethods "fulfillment.v1.Cluster"
               clusters_declares clusters_wellShaped clusters_unresolved).
- exact (proj2 (proj2 (@scanService_characterisation
                         Fulfillment.transport Fulfillment.registry
                         Fulfillment.eventsService reachable))
               events_guarded events_no_convention).
Defined.

(** Without the consistency of the schema the service [Clusters] follows
    the convention and yet gets no descriptor: when its message types are
    not in the type registry the scan panics. This is the inconsistent
    schema on which the discovery is meant to abort. *)
Lemma appendsIffConvention_fails :
¬ @appendsIffConvention Fulfillment.transport Registries.untyped
    Fulfillment.clusters reachable.
Proof.
intros Hiff.
destruct (proj2 (Hiff "fulfillment.v1.Cluster")) as (helper & w' & Hscan & _).
- exists clustersMethods.
  exact (conj clusters_declares clusters_wellShaped).
- rewrite scanService_untyped_clusters in Hscan. discriminate Hscan.
Qed.

Lemma events_consistent :
  @consistent Fulfillment.registry Fulfillment.eventsService.
Proof.
  intros ms object Hd Hw.
  destruct (events_no_convention object). by exists ms.
Defined.

Lemma users_consistent : @consistent Registries.accounts Registries.users.
Proof.
  intros ms object Hd Hw.
  destruct (unguarded_not_followsConvention Registries.users object
              users_unguarded).
  by exists ms.
Defined.

Lemma clusters_consistent :
  @consistent Fulfillment.registry Fulfillment.clusters.
Proof.
  intros ms object Hd Hw.
  rewrite <- (declares_unique _ _ _ clusters_declares Hd) in *.
  destruct Hw as (_ & (f & Hf & _ & _ & Hobject) & _).
  injection Hf as <-. rewrite <- Hobject.
  exact clusters_resolves.
Defined.

Lemma scanService_exclusion_witness :
  (@appendsIffConvention Fulfillment.transport Registries.accounts
     Registries.users reachable
   ∧ (∀ object, ¬ followsConvention Registries.users object)
   ∧ @scanService Fulfillment.transport Registries.accounts
       Registries.users reachable
     = Panic nilDereference)
  ∧ (@appendsIffConvention Fulfillment.transport Fulfillment.registry
       Fulfillment.clusters reachable
     ∧ @scanService Fulfillment.transport Fulfillment.registry
         Fulfillment.eventsService reachable
       = Done (tt, reachable)).
Proof.
  split.
  - destruct (@scanService_exclusion Fulfillment.transport
                Registries.accounts Registries.users reachable
                users_consistent)
      as (Hiff & _ & Hpanics).
    split; [exact Hiff|]. exact (Hpanics users_unguarded).
  - split.
    + exact (proj1 (@scanService_exclusion Fulfillment.transport
                      Fulfillment.registry Fulfillment.clusters reachable
                      clusters_consistent)).
    + apply (proj1 (proj2 (@scanService_exclusion Fulfillment.transport
                             Fulfillment.registry Fulfillment.eventsService
                             reachable events_consistent)));
        [exact events_guarded|exact events_no_convention].
Defined.

(** ** Enumeration and lookup in the registry of the API *)


Lemma reachable_scanned : scanIfNeeded reachable = Done (tt, scanned).
Proof. by_computation. Defined.

Lemma unreachable_scanned : scanIfNeeded unreachable = Done (tt, scannedDown).
Proof. by_computation. Defined.



Lemma scannedDown_clusterHelper :
  helpers (this scannedDown) !! 2 = Some clusterHelper.
Proof. by_computation. Defined.

Example Singulars_of_the_API :
  Singulars reachable
  = Done (["cluster"; "clusterorder"; "clustertemplate"; "hostclass"],
          scanned).
Proof. by_computation. Qed.

Example Plurals_of_the_API :
  Plurals reachable
  = Done (["clusterorders"; "clusters"; "clustertemplates"; "hostclasses"],
          scanned).
Proof. by_computation. Qed.

(** The names of the test of [Lookup]. *)
Example Lookup_of_the_API :
  Lookup "cluster" reachable = Done (Some 2, scanned)
  ∧ Lookup "clusters" reachable = Done (Some 2, scanned)
  ∧ Lookup "CLUSTER" reachable = Done (Some 2, scanned)
  ∧ Lookup "ClusterOrders" reachable = Done (Some 0, scanned)
  ∧ Lookup "hostclasses" reachable = Done (Some 3, scanned)
  ∧ Lookup "events" reachable = Done (None, scanned).
Proof. do 5 (split; [by_computation|]). by_computation. Qed.


Lemma Singulars_sorted_names_witness :
  ∃ names,
    Singulars reachable = Done (names, scanned)
    ∧ names ≡ₚ singularOf <$> helpers (this scanned)
    ∧ length names = length (helpers (this scanned))
    ∧ StronglySorted string_le names.
Proof.
  exact (Singulars_sorted_names reachable scanned reachable_scanned).
Defined.

Lemma Plurals_sorted_plurals_witness :
  ∃ singulars plurals,
    Singulars reachable = Done (singulars, scanned)
    ∧ Plurals reachable = Done (plurals, scanned)
    ∧ plurals ≡ₚ Plural <$> singulars
    ∧ StronglySorted string_le plurals
    ∧ ((∀ a b, a ∈ singulars -> b ∈ singulars -> string_le a b ->
               string_le (Plural a) (Plural b))
       ↔ plurals = Plural <$> singulars).
Proof.
  exact (Plurals_sorted_plurals reachable scanned reachable_scanned).
Defined.

(** C7 (as stated) fails in the registry of the API: [Singulars] starts
    with [cluster] and [Plurals] starts with [clusterorders], which is not
    the plural of [cluster]. *)
Lemma pluralsFollowSingulars_fails : ¬ pluralsFollowSingulars reachable.
Proof.
  intros Hfollow.
  specialize (Hfollow _ _ _ _ Singulars_of_the_API Plurals_of_the_API 0).
  discriminate Hfollow.
Qed.

Example Singulars_of_two_packages :
  @Singulars _ Registries.twoPackages _ reachable
  = Done (["cluster"; "cluster"], scannedTwoPackages).
Proof. by_computation. Qed.

Example descriptors_of_two_packages :
  oh_descriptor <$> helpers (this scannedTwoPackages)
  = ["fulfillment.v1.Cluster"; "private.v1.Cluster"].
Proof. by_computation. Qed.

(** C6 (as stated) fails when two packages have a message called
    [Cluster]: both object types are discovered and [Singulars] returns
    [cluster] twice. *)
Lemma singularsDeduplicated_fails :
  ¬ @singularsDeduplicated _ Registries.twoPackages _ reachable.
Proof.
  intros Hnodup.
  pose proof Singulars_of_two_packages as Hnames.
  apply Hnodup in Hnames. apply NoDup_cons in Hnames as [Hnotin _].
  apply Hnotin. by left.
Qed.

(** ** The operations on the clusters of the API *)

Lemma scanned_list_templates :
  heap scanned !! mi_request (li_methodInfo (oh_list clusterHelper))
  = Some listRequest
  ∧ heap scanned !! mi_response (li_methodInfo (oh_list clusterHelper))
    = Some listResponse.
Proof. split; by_computation. Defined.

Lemma scanned_get_templates :
  heap scanned !! mi_request (gi_methodInfo (oh_get clusterHelper))
  = Some getRequest
  ∧ heap scanned !! mi_response (gi_methodInfo (oh_get clusterHelper))
    = Some getResponse.
Proof. split; by_computation. Defined.

Lemma scanned_update_templates :
  heap scanned !! mi_request (ui_methodInfo (oh_update clusterHelper))
  = Some updateRequest
  ∧ heap scanned !! mi_response (ui_methodInfo (oh_update clusterHelper))
    = Some updateResponse.
Proof. split; by_computation. Defined.

Lemma scanned_delete_templates :
  heap scanned !! mi_request (di_methodInfo (oh_delete clusterHelper))
  = Some deleteRequest
  ∧ heap scanned !! mi_response (di_methodInfo (oh_delete clusterHelper))
    = Some deleteResponse.
Proof. split; by_computation. Defined.

Lemma scannedDown_list_templates :
  heap scannedDown !! mi_request (li_methodInfo (oh_list clusterHelper))
  = Some listRequest
  ∧ heap scannedDown !! mi_response (li_methodInfo (oh_list clusterHelper))
    = Some listResponse.
Proof. split; by_computation. Defined.

Lemma scannedDown_get_templates :
  heap scannedDown !! mi_request (gi_methodInfo (oh_get clusterHelper))
  = Some getRequest
  ∧ heap scannedDown !! mi_response (gi_methodInfo (oh_get clusterHelper))
    = Some getResponse.
Proof. split; by_computation. Defined.

Lemma scannedDown_update_templates :
  heap scannedDown !! mi_request (ui_methodInfo (oh_update clusterHelper))
  = Some updateRequest
  ∧ heap scannedDown !! mi_response (ui_methodInfo (oh_update clusterHelper))
    = Some updateResponse.
Proof. split; by_computation. Defined.

Lemma server_scanned : server scanned = true.
Proof. by_computation. Defined.

Lemma server_scannedDown : server scannedDown = false.
Proof. by_computation. Defined.

(** The test of [List]: the two clusters come back in the order of the
    server, and the filter [x] is in the request that is sent. *)
Lemma List_behaviour_witness :
  ∃ w',
    List_ clusterHelper {| Filter := "x" |} scanned
    = Done ((Some [Fulfillment.cluster "123"; Fulfillment.cluster "456"],
             None), w')
    ∧ calls w'
      = calls scanned
          ++ [{| call_path := "/fulfillment.v1.Clusters/List";
                 call_request :=
                   Message_Set listRequest
                     (li_filter (oh_list clusterHelper)) (ValueOfString "x");
                 call_response := listResponse |}].
Proof.
  destruct scanned_list_templates as [Hrequest Hresponse].
  pose proof (List_behaviour clusterHelper {| Filter := "x" |} scanned
                listRequest listResponse true
                (Fulfillment.respond "/fulfillment.v1.Clusters/List"
                   (Message_Set listRequest
                      (li_filter (oh_list clusterHelper))
                      (ValueOfString "x"))
                   listResponse)
                None
                [Fulfillment.cluster "123"; Fulfillment.cluster "456"]
                Hrequest Hresponse) as Hlist.
  cbv zeta in Hlist.
  destruct Hlist as (w' & Hrun & Hcalls & _).
  - by_computation.
  - intros _. by_computation.
  - exists w'. split; [exact Hrun|exact Hcalls].
Defined.

Example List_without_filter :
  List_ clusterHelper {| Filter := "" |} scanned
  = Done ((Some [Fulfillment.cluster "123"; Fulfillment.cluster "456"], None),
          invoked scanned "/fulfillment.v1.Clusters/List" listRequest
                  listResponse true
                  (Fulfillment.respond "/fulfillment.v1.Clusters/List"
                     listRequest listResponse)).
Proof. by_computation. Qed.

Example Get_of_the_test :
  Get clusterHelper "123" scanned
  = Done ((Some (Fulfillment.cluster "123"), None),
          invoked scanned "/fulfillment.v1.Clusters/Get"
                  (Message_Set getRequest Fulfillment.idField
                               (ValueOfString "123"))
                  getResponse true
                  (Message_Set getResponse
                     (Fulfillment.objectField "fulfillment.v1.Cluster")
                     (ValueOfMessage (Fulfillment.cluster "123")))).
Proof. by_computation. Qed.

Lemma failure_is_wrapped_by_Update_only_witness :
  (∃ result err w',
      Update clusterHelper (Fulfillment.cluster "123") scannedDown
      = Done ((result, Some err), w')
      ∧ err = Wrapped updateFailure Fulfillment.unavailable
      ∧ Error_Error err
        = String.append "failed to update object: "
            (Error_Error Fulfillment.unavailable)
      ∧ Error_Unwrap err = Some Fulfillment.unavailable
      ∧ length (calls w') = S (length (calls scannedDown)))
  ∧ (∃ result w',
        Get clusterHelper "123" scannedDown
        = Done ((result, Some Fulfillment.unavailable), w')
        ∧ length (calls w') = S (length (calls scannedDown)))
  ∧ (∃ results w',
        List_ clusterHelper {| Filter := "" |} scannedDown
        = Done ((results, Some Fulfillment.unavailable), w')
        ∧ length (calls w') = S (length (calls scannedDown))).
Proof.
  destruct (failure_is_wrapped_by_Update_only clusterHelper scannedDown
              Fulfillment.unavailable) as (Hupdate & Hget & Hlist).
  destruct scannedDown_update_templates as [Hur Hus].
  destruct scannedDown_get_templates as [Hgr Hgs].
  destruct scannedDown_list_templates as [Hlr Hls].
  split; [|split].
  - apply (Hupdate (Fulfillment.cluster "123") updateRequest updateResponse
                   false updateResponse
                   (Message_New "fulfillment.v1.Cluster") Hur Hus);
      by_computation.
  - apply (Hget "123" getRequest getResponse false getResponse Hgr Hgs).
    by_computation.
  - apply (Hlist {| Filter := "" |} listRequest listResponse false
                 listResponse Hlr Hls).
    by_computation.
Defined.

Lemma clusters_out_shape :
  singularMessage "fulfillment.v1.Cluster" (ui_out (oh_update clusterHelper)).
Proof. repeat split. Defined.

Lemma failed_Update_returns_a_message_witness :
  (∃ err w',
      Update clusterHelper (Fulfillment.cluster "123") scannedDown
      = Done ((Some (Message_New "fulfillment.v1.Cluster"), Some err), w'))
  ∧ (∃ err w',
        Get clusterHelper "123" scannedDown = Done ((None, Some err), w'))
  ∧ (∃ err w',
        List_ clusterHelper {| Filter := "" |} scannedDown
        = Done ((None, Some err), w')).
Proof.
  destruct (failed_Update_returns_a_message clusterHelper scannedDown
              Fulfillment.unavailable) as (Hupdate & Hget & Hlist).
  destruct scannedDown_update_templates as [Hur Hus].
  destruct scannedDown_get_templates as [Hgr Hgs].
  destruct scannedDown_list_templates as [Hlr Hls].
  split; [|split].
  - destruct (Hupdate (Fulfillment.cluster "123") updateRequest updateResponse
                      false updateResponse
                      (Message_New "fulfillment.v1.Cluster") Hur Hus)
      as [Hrun Hblank]; [by_computation..|].
    exact Hrun.
  - apply (Hget "123" getRequest getResponse false getResponse Hgr Hgs).
    by_computation.
  - apply (Hlist {| Filter := "" |} listRequest listResponse false
                 listResponse Hlr Hls).
    by_computation.
Defined.

Example Update_of_the_test :
  Update clusterHelper (Fulfillment.cluster "123") scanned
  = Done ((Some (Fulfillment.cluster "123"), None),
          invoked scanned "/fulfillment.v1.Clusters/Update"
                  (Message_Set updateRequest
                     (Fulfillment.objectField "fulfillment.v1.Cluster")
                     (ValueOfMessage (Fulfillment.cluster "123")))
                  updateResponse true
                  (Message_Set updateResponse
                     (Fulfillment.objectField "fulfillment.v1.Cluster")
                     (ValueOfMessage (Fulfillment.cluster "123")))).
Proof. by_computation. Qed.

(** An object of another type than the one of the helper makes [Update]
    panic before anything is sent. *)
Example Update_of_another_type :
  Update clusterHelper (Message_New "fulfillment.v1.HostClass") scanned
  = Panic "invalid type".
Proof. by_computation. Qed.

(** ** Delete and Create on the clusters of the API *)

Lemma scannedWithCreate_templates :
  heap scannedWithCreate !! mi_request (ci_methodInfo clustersCreate)
  = Some createRequest
  ∧ heap scannedWithCreate !! mi_response (ci_methodInfo clustersCreate)
    = Some createResponse.
Proof. split; by_computation. Defined.

Lemma scannedDownWithCreate_templates :
  heap scannedDownWithCreate !! mi_request (ci_methodInfo clustersCreate)
  = Some createRequest
  ∧ heap scannedDownWithCreate !! mi_response (ci_methodInfo clustersCreate)
    = Some createResponse.
Proof. split; by_computation. Defined.

Lemma clustersWithoutCreate_declares :
  declares Registries.clustersWithoutCreate clustersMethods.
Proof. repeat split. Defined.

Lemma clusters_Create_shapes :
  hasField (mth_input (Fulfillment.createMethod "fulfillment.v1" "Clusters"
                         "fulfillment.v1.Cluster"))
    "object" (singularMessage "fulfillment.v1.Cluster")
  ∧ hasField (mth_output (Fulfillment.createMethod "fulfillment.v1" "Clusters"
                            "fulfillment.v1.Cluster"))
      "object" (singularMessage "fulfillment.v1.Cluster").
Proof. split; field_shape. Defined.

Lemma Delete_and_Create_witness :
  Delete clusterHelper "123" scanned
  = Done (None,
          invoked scanned "/fulfillment.v1.Clusters/Delete"
                  (Message_Set deleteRequest Fulfillment.idField
                               (ValueOfString "123"))
                  deleteResponse true deleteResponse)
  ∧ (∃ c w',
        scanCreate Fulfillment.clusters "fulfillment.v1.Cluster" scanned
        = Done (Some c, w')
        ∧ mi_path (ci_methodInfo c) = "/fulfillment.v1.Clusters/Create"
        ∧ heap w' !! mi_request (ci_methodInfo c) = Some createRequest
        ∧ heap w' !! mi_response (ci_methodInfo c) = Some createResponse)
  ∧ Create clustersCreate (Fulfillment.cluster "123") scannedWithCreate
    = Done ((Some (Fulfillment.cluster "123"), None),
            invoked scannedWithCreate "/fulfillment.v1.Clusters/Create"
                    (Message_Set createRequest (ci_in clustersCreate)
                       (ValueOfMessage (Fulfillment.cluster "123")))
                    createResponse true
                    (Message_Set createResponse (ci_out clustersCreate)
                       (ValueOfMessage (Fulfillment.cluster "123"))))
  ∧ Create clustersCreate (Fulfillment.cluster "123") scannedDownWithCreate
    = Done ((Some (Message_New "fulfillment.v1.Cluster"),
             Some (Wrapped "failed to create object: "
                           Fulfillment.unavailable)),
            invoked scannedDownWithCreate "/fulfillment.v1.Clusters/Create"
                    (Message_Set createRequest (ci_in clustersCreate)
                       (ValueOfMessage (Fulfillment.cluster "123")))
                    createResponse false createResponse)
  ∧ scanCreate Registries.clustersWithoutCreate "fulfillment.v1.Cluster"
      reachable
    = Done (None, reachable)
  ∧ appends Registries.clustersWithoutCreate reachable
      "fulfillment.v1.Cluster".
Proof.
  destruct scanned_delete_templates as [Hdr Hds].
  destruct scannedWithCreate_templates as [Hcr Hcs].
  destruct scannedDownWithCreate_templates as [Hdcr Hdcs].
  destruct clusters_Create_shapes as [Hin Hout].
  split; [|split; [|split; [|split]]].
  - apply (proj1 (Delete_and_Create Fulfillment.clusters
                    "fulfillment.v1.Cluster" scanned)
             clusterHelper "123" deleteRequest deleteResponse true
             deleteResponse None Hdr Hds).
    by_computation.
  - destruct (proj1 (proj2 (Delete_and_Create Fulfillment.clusters
                              "fulfillment.v1.Cluster" scanned))
                (Fulfillment.createMethod "fulfillment.v1" "Clusters"
                   "fulfillment.v1.Cluster"))
      as (c & w' & Hscan & Hpath & Hrequest & Hresponse & _);
      [reflexivity|exact Hin|exact Hout|in_registry|in_registry|].
    exists c, w'. split; [exact Hscan|]. split; [|split].
    + rewrite Hpath. by_computation.
    + exact Hrequest.
    + exact Hresponse.
  - apply (proj1 (proj2 (proj2 (Delete_and_Create Fulfillment.clusters
                                  "fulfillment.v1.Cluster"
                                  scannedWithCreate)))
             clustersCreate (Fulfillment.cluster "123") createRequest
             createResponse true
             (Message_Set createResponse (ci_out clustersCreate)
                (ValueOfMessage (Fulfillment.cluster "123")))
             None (Fulfillment.cluster "123") Hcr Hcs);
      by_computation.
  - apply (proj1 (proj2 (proj2 (Delete_and_Create Fulfillment.clusters
                                  "fulfillment.v1.Cluster"
                                  scannedDownWithCreate)))
             clustersCreate (Fulfillment.cluster "123") createRequest
             createResponse false createResponse
             (Some Fulfillment.unavailable)
             (Message_New "fulfillment.v1.Cluster") Hdcr Hdcs);
      by_computation.
  - destruct (proj2 (proj2 (proj2 (Delete_and_Create
                                     Registries.clustersWithoutCreate
                                     "fulfillment.v1.Cluster" reachable))))
      as [Habsent Happends]; [reflexivity|].
    split; [exact Habsent|].
    exact (Happends clustersMethods clustersWithoutCreate_declares
                    clusters_wellShaped clusters_resolves).
Defined.

(** ** More properties in the registry of the API *)

Lemma reachable_scannedOnly : scan reachable = Done (tt, scannedOnly).
Proof. by_computation. Defined.

Lemma scan_appends_in_order_witness :
  oh_descriptor <$> helpers (this scannedOnly)
  = (oh_descriptor <$> helpers (this reachable))
      ++ omap objectTypeOf allServices
  ∧ ∀ s object, objectTypeOf s = Some object ↔ followsConvention s object.
Proof.
  exact (scan_appends_in_order reachable scannedOnly reachable_scannedOnly).
Defined.

Example object_types_of_the_API :
  omap objectTypeOf allServices
  = ["fulfillment.v1.ClusterOrder"; "fulfillment.v1.ClusterTemplate";
     "fulfillment.v1.Cluster"; "fulfillment.v1.HostClass"].
Proof. by_computation. Qed.

Lemma scan_returns_iff_witness : Forall scannable allServices.
Proof.
  apply (scan_returns_iff reachable).
  exists scannedOnly. exact reachable_scannedOnly.
Defined.

Lemma clusters_registered :
  scanService Fulfillment.clusters reachable
  = Done (tt, registered clustersShape reachable).
Proof. by_computation. Defined.

Lemma appended_helper_fields_witness :
  singularMessage "fulfillment.v1.Cluster"
    (gi_object (oh_get (helperOf clustersShape 0)))
  ∧ repeatedMessage "fulfillment.v1.Cluster"
      (li_items (oh_list (helperOf clustersShape 0)))
  ∧ singularMessage "fulfillment.v1.Cluster"
      (ui_in (oh_update (helperOf clustersShape 0)))
  ∧ singularMessage "fulfillment.v1.Cluster"
      (ui_out (oh_update (helperOf clustersShape 0)))
  ∧ singularString (gi_id (oh_get (helperOf clustersShape 0)))
  ∧ singularString (di_id (oh_delete (helperOf clustersShape 0)))
  ∧ nonRepeatedString (li_filter (oh_list (helperOf clustersShape 0))).
Proof.
  exact (appended_helper_fields Fulfillment.clusters reachable
           (registered clustersShape reachable) (helperOf clustersShape 0)
           clusters_registered eq_refl).
Defined.

Lemma appended_helper_templates_witness :
  NoDup (templatesOfHelper (helperOf clustersShape 0))
  ∧ Forall (fun l => length (heap reachable) ≤ l
                     < length (heap (registered clustersShape reachable)))
           (templatesOfHelper (helperOf clustersShape 0))
  ∧ (∃ ms,
        declares Fulfillment.clusters ms
        ∧ (fun l => heap (registered clustersShape reachable) !! l)
            <$> templatesOfHelper (helperOf clustersShape 0)
          = (fun type => Some (Message_New type))
              <$> templateTypes ms
                    (oh_descriptor (helperOf clustersShape 0)))
  ∧ ∀ l m, heap reachable !! l = Some m ->
           heap (registered clustersShape reachable) !! l = Some m.
Proof.
  exact (appended_helper_templates Fulfillment.clusters reachable
           (registered clustersShape reachable) (helperOf clustersShape 0)
           clusters_registered eq_refl).
Defined.

Lemma enumeration_is_stable_witness :
  ∃ singulars plurals,
    Singulars reachable = Done (singulars, scanned)
    ∧ Plurals reachable = Done (plurals, scanned)
    ∧ Singulars scanned = Done (singulars, scanned)
    ∧ Plurals scanned = Done (plurals, scanned)
    ∧ ∀ objectType, Lookup objectType scanned = Lookup objectType reachable.
Proof.
  exact (enumeration_is_stable reachable scanned reachable_scanned).
Defined.

Lemma asciiStrings_reflexive s : @EqualFold Fulfillment.asciiStrings s s = true.
Proof. apply String.eqb_refl. Defined.

Lemma hostclasses_listed :
  "hostclasses"
  ∈ ["cluster"; "clusterorder"; "clustertemplate"; "hostclass"]
      ++ ["clusterorders"; "clusters"; "clustertemplates"; "hostclasses"].
Proof. apply elem_of_app. right. do 3 right. left. Defined.

Lemma Lookup_finds_listed_names_witness :
  ∃ j found,
    Lookup "hostclasses" reachable = Done (Some j, scanned)
    ∧ helpers (this scanned) !! j = Some found
    ∧ designates "hostclasses" found.
Proof.
  exact (Lookup_finds_listed_names reachable scanned _ _ "hostclasses"
           asciiStrings_reflexive reachable_scanned Singulars_of_the_API
           Plurals_of_the_API hostclasses_listed).
Defined.

(** ** More properties of the operations on the clusters *)

Lemma Get_returns_object_witness :
  ∃ request w',
    Get clusterHelper "123" scanned
    = Done ((Some (Fulfillment.cluster "123"), None), w')
    ∧ calls w'
      = calls scanned
          ++ [{| call_path := mi_path (gi_methodInfo (oh_get clusterHelper));
                 call_request := request;
                 call_response := getResponse |}]
    ∧ Message_Get request (gi_id (oh_get clusterHelper))
      = ValueOfString "123"
    ∧ (∀ name, name ≠ fd_name (gi_id (oh_get clusterHelper)) ->
               msg_fields request !! name = msg_fields getRequest !! name)
    ∧ (∀ l m, heap scanned !! l = Some m -> heap w' !! l = Some m).
Proof.
  destruct scanned_get_templates as [Hrequest Hresponse].
  apply (Get_returns_object clusterHelper "123" scanned getRequest
           getResponse true
           (Fulfillment.respond "/fulfillment.v1.Clusters/Get"
              (Message_Set getRequest Fulfillment.idField
                 (ValueOfString "123"))
              getResponse)
           (Fulfillment.cluster "123") Hrequest Hresponse);
    by_computation.
Defined.

Lemma Update_returns_object_witness :
  ∃ request w',
    Update clusterHelper (Fulfillment.cluster "123") scanned
    = Done ((Some (Fulfillment.cluster "123"), None), w')
    ∧ calls w'
      = calls scanned
          ++ [{| call_path :=
                   mi_path (ui_methodInfo (oh_update clusterHelper));
                 call_request := request;
                 call_response := updateResponse |}]
    ∧ Message_Get request (ui_in (oh_update clusterHelper))
      = ValueOfMessage (Fulfillment.cluster "123")
    ∧ Message_Get
        (Fulfillment.respond "/fulfillment.v1.Clusters/Update"
           (Message_Set updateRequest
              (Fulfillment.objectField "fulfillment.v1.Cluster")
              (ValueOfMessage (Fulfillment.cluster "123")))
           updateResponse)
        (ui_out (oh_update clusterHelper))
      = ValueOfMessage (Fulfillment.cluster "123")
    ∧ (∀ l m, heap scanned !! l = Some m -> heap w' !! l = Some m).
Proof.
  destruct scanned_update_templates as [Hrequest Hresponse].
  apply (Update_returns_object clusterHelper (Fulfillment.cluster "123")
           scanned updateRequest updateResponse true
           (Fulfillment.respond "/fulfillment.v1.Clusters/Update"
              (Message_Set updateRequest
                 (Fulfillment.objectField "fulfillment.v1.Cluster")
                 (ValueOfMessage (Fulfillment.cluster "123")))
              updateResponse)
           (Fulfillment.cluster "123") Hrequest Hresponse);
    by_computation.
Defined.

Lemma scanned_object_template :
  heap scanned !! oh_template clusterHelper
  = Some (Message_New "fulfillment.v1.Cluster").
Proof. by_computation. Defined.

Lemma Instance_is_independent_witness :
  ∃ first second w1 w2 w3,
    Instance_ clusterHelper scanned = Done (first, w1)
    ∧ Instance_ clusterHelper w1 = Done (second, w2)
    ∧ Set_ first Fulfillment.idField (ValueOfString "123") w2 = Done (tt, w3)
    ∧ first ≠ second
    ∧ first ≠ oh_template clusterHelper
    ∧ second ≠ oh_template clusterHelper
    ∧ heap w2 !! first = Some (Message_New "fulfillment.v1.Cluster")
    ∧ heap w2 !! second = Some (Message_New "fulfillment.v1.Cluster")
    ∧ heap w3 !! first
      = Some (Message_Set (Message_New "fulfillment.v1.Cluster")
                Fulfillment.idField (ValueOfString "123"))
    ∧ heap w3 !! second = Some (Message_New "fulfillment.v1.Cluster")
    ∧ heap w3 !! oh_template clusterHelper
      = Some (Message_New "fulfillment.v1.Cluster").
Proof.
  exact (Instance_is_independent clusterHelper scanned
           (Message_New "fulfillment.v1.Cluster") Fulfillment.idField "123"
           scanned_object_template).
Defined.

Lemma Get_twice_witness :
  ∃ out1 w1 out2 w2,
    Get clusterHelper "123" scanned = Done (out1, w1)
    ∧ Get clusterHelper "456" w1 = Done (out2, w2)
    ∧ calls w2
      = calls scanned
          ++ [{| call_path := mi_path (gi_methodInfo (oh_get clusterHelper));
                 call_request :=
                   Message_Set getRequest (gi_id (oh_get clusterHelper))
                               (ValueOfString "123");
                 call_response := getResponse |};
              {| call_path := mi_path (gi_methodInfo (oh_get clusterHelper));
                 call_request :=
                   Message_Set getRequest (gi_id (oh_get clusterHelper))
                               (ValueOfString "456");
                 call_response := getResponse |}].
Proof.
  destruct scanned_get_templates as [Hrequest Hresponse].
  apply (Get_twice clusterHelper "123" "456" scanned getRequest getResponse
           true
           (Fulfillment.respond "/fulfillment.v1.Clusters/Get"
              (Message_Set getRequest Fulfillment.idField
                 (ValueOfString "123"))
              getResponse)
           None (Fulfillment.cluster "123")
           true
           (Fulfillment.respond "/fulfillment.v1.Clusters/Get"
              (Message_Set getRequest Fulfillment.idField
                 (ValueOfString "456"))
              getResponse)
           None (Fulfillment.cluster "456") Hrequest Hresponse);
    try by_computation; intros _; by_computation.
Defined.

Lemma makeMethodPath_convention_witness :
  makeMethodPath (Fulfillment.getMethod "fulfillment.v1" "Clusters"
                    "fulfillment.v1.Cluster")
  = "/fulfillment.v1.Clusters/Get".
Proof.
  exact (makeMethodPath_convention "fulfillment.v1.Clusters" "Get" _ _
           eq_refl).
Defined.

(** The server of the tests answers every [Get] with a cluster. *)
Lemma Get_is_answered srv id srv' response :
  Invoke srv (mi_path (gi_methodInfo (oh_get clusterHelper)))
         (requestFor (getClusters "" false) getRequest id) getResponse
  = (srv', response, None) ->
  is_Some (objectOf response (gi_object (oh_get clusterHelper))).
Proof.
  destruct srv; [|discriminate]. intros [= <- <-].
  exists (Fulfillment.cluster id). reflexivity.
Defined.

Lemma get_all_or_nothing_witness :
  (∃ out w',
      runnerContext_get (getClusters "" false) ["123"; "456"] scanned
      = Done (out, w')
      ∧ match out with
        | (Some results, None) =>
            answerAll (getClusters "" false) getRequest getResponse
                      (server scanned) ["123"; "456"]
            = Some (server w')
            ∧ call_request <$> calls w'
              = (call_request <$> calls scanned)
                  ++ (requestFor (getClusters "" false) getRequest
                        <$> ["123"; "456"])
            ∧ length results = 2
            ∧ Forall is_Some results
        | (None, Some e) =>
            ∃ earlier id later srv response,
              ["123"; "456"] = earlier ++ id :: later
              ∧ answerAll (getClusters "" false) getRequest getResponse
                          (server scanned) earlier
                = Some srv
              ∧ Invoke srv (mi_path (gi_methodInfo (oh_get clusterHelper)))
                       (requestFor (getClusters "" false) getRequest id)
                       getResponse
                = (server w', response, Some e)
              ∧ call_request <$> calls w'
                = (call_request <$> calls scanned)
                    ++ (requestFor (getClusters "" false) getRequest
                          <$> earlier ++ [id])
        | _ => False
        end)
  ∧ (∃ out w',
      runnerContext_get (getClusters "" false) ["123"; "456"] scannedDown
      = Done (out, w')
      ∧ match out with
        | (Some results, None) =>
            answerAll (getClusters "" false) getRequest getResponse
                      (server scannedDown) ["123"; "456"]
            = Some (server w')
            ∧ call_request <$> calls w'
              = (call_request <$> calls scannedDown)
                  ++ (requestFor (getClusters "" false) getRequest
                        <$> ["123"; "456"])
            ∧ length results = 2
            ∧ Forall is_Some results
        | (None, Some e) =>
            ∃ earlier id later srv response,
              ["123"; "456"] = earlier ++ id :: later
              ∧ answerAll (getClusters "" false) getRequest getResponse
                          (server scannedDown) earlier
                = Some srv
              ∧ Invoke srv (mi_path (gi_methodInfo (oh_get clusterHelper)))
                       (requestFor (getClusters "" false) getRequest id)
                       getResponse
                = (server w', response, Some e)
              ∧ call_request <$> calls w'
                = (call_request <$> calls scannedDown)
                    ++ (requestFor (getClusters "" false) getRequest
                          <$> earlier ++ [id])
        | _ => False
        end).
Proof.
  destruct scanned_get_templates as [Hrequest Hresponse].
  destruct scannedDown_get_templates as [Hrequest' Hresponse'].
  split.
  - exact (get_all_or_nothing (getClusters "" false) ["123"; "456"] scanned
             getRequest getResponse Hrequest Hresponse Get_is_answered).
  - exact (get_all_or_nothing (getClusters "" false) ["123"; "456"]
             scannedDown getRequest getResponse Hrequest' Hresponse'
             Get_is_answered).
Defined.

Example get_two_clusters :
  fst <$> fst_of (runnerContext_get (getClusters "" false) ["123"; "456"]
                    scanned)
  = Some (Some [Some (Fulfillment.cluster "123");
                Some (Fulfillment.cluster "456")]).
Proof. by_computation. Qed.

Example get_stops_at_the_first_failure :
  fst_of (runnerContext_get (getClusters "" false) ["123"; "456"]
            scannedDown)
  = Some (None, Some Fulfillment.unavailable)
  ∧ (length ∘ calls)
      <$> (match runnerContext_get (getClusters "" false) ["123"; "456"]
                   scannedDown with
           | Done (_, w') => Some w'
           | Panic _ => None
           end)
    = Some 1.
Proof. split; by_computation. Qed.

Lemma list_filter_witness :
  runnerContext_list (getClusters "this.id == '123'" false) scanned
  = Done ((Some [Fulfillment.cluster "123"; Fulfillment.cluster "456"],
           None),
          invoked scanned "/fulfillment.v1.Clusters/List"
                  (Message_Set listRequest
                     (li_filter (oh_list clusterHelper))
                     (ValueOfString
                        "!has(this.metadata.deletion_timestamp) && (this.id == '123')"))
                  listResponse true
                  (Fulfillment.respond "/fulfillment.v1.Clusters/List"
                     (Message_Set listRequest
                        (li_filter (oh_list clusterHelper))
                        (ValueOfString
                           "!has(this.metadata.deletion_timestamp) && (this.id == '123')"))
                     listResponse)).
Proof.
  destruct scanned_list_templates as [Hrequest Hresponse].
  pose proof (list_filter (getClusters "this.id == '123'" false) scanned
                listRequest listResponse true
                (Fulfillment.respond "/fulfillment.v1.Clusters/List"
                   (Message_Set listRequest
                      (li_filter (oh_list clusterHelper))
                      (ValueOfString
                         "!has(this.metadata.deletion_timestamp) && (this.id == '123')"))
                   listResponse)
                None
                [Fulfillment.cluster "123"; Fulfillment.cluster "456"]
                Hrequest Hresponse) as Hlist.
  cbv zeta in Hlist. apply Hlist.
  - by_computation.
  - intros _. by_computation.
Defined.

(** ** The token source with the concrete environment *)

Lemma Token_reuses_valid_token_witness :
  @Token_ Tokens.environment "mint" (Tokens.holding "jwt-until-200")
  = Done ((Some {| AccessToken := "jwt-until-200"; Expiry := Some 200%Z |},
           None),
          @Build_TokenWorld Tokens.environment
            ("jwt-until-200", 0) ["jwt-until-200"] 0).
Proof.
  exact (@Token_reuses_valid_token Tokens.environment "mint"
           (Tokens.holding "jwt-until-200") ("jwt-until-200", 0)
           "jwt-until-200"
           {| AccessToken := "jwt-until-200"; Expiry := Some 200%Z |}
           ("jwt-until-200", 0) eq_refl ltac:(discriminate) eq_refl eq_refl
           eq_refl).
Defined.

Lemma Token_of_opaque_script_witness :
  @Token_ Tokens.environment "whoami" (Tokens.holding "")
  = Done ((Some {| AccessToken := "opaque"; Expiry := None |}, None),
          @Build_TokenWorld Tokens.environment ("", 2) [] 2).
Proof.
  exact (@Token_of_opaque_script Tokens.environment "whoami"
           (Tokens.holding "") ("", 0) ("", 1) "opaque"
           (TransportError "token is malformed") ("", 2) "opaque"
           eq_refl eq_refl eq_refl eq_refl).
Defined.


(** An expired stored token is replaced by the one that the script
    prints, which is saved. *)
Example Token_replaces_expired_token :
  @Token_ Tokens.environment "mint" (Tokens.holding "jwt-until-50")
  = Done ((Some {| AccessToken := "jwt-until-200"; Expiry := Some 200%Z |},
           None),
          @Build_TokenWorld Tokens.environment
            ("jwt-until-200", 1) ["jwt-until-200"] 1).
Proof. reflexivity. Qed.

(** ** The cells of the states of a cluster *)

Lemma unspecified_last_word : "_"%char ∉ list_ascii_of_string "UNSPECIFIED".
Proof. apply (bool_decide_unpack _). reflexivity. Qed.

Lemma enum_cell_strips_prefix_witness :
  @renderTableCellEnumType Cells.buffer "" 2 Cells.clusterStates
  = Done (None, "READY").
Proof.
  exact (proj1
           (@enum_cell_strips_prefix Cells.buffer "" 2 Cells.clusterStates
              {| ev_name := "CLUSTER_STATE_READY"; ev_number := 2 |}
              {| ev_name := "CLUSTER_STATE_UNSPECIFIED"; ev_number := 0 |}
              "CLUSTER_STATE" "UNSPECIFIED" eq_refl eq_refl eq_refl
              unspecified_last_word)
           "_"%char "READY" eq_refl).
Defined.

Lemma enum_cell_fails_witness :
  (∃ reason,
      @renderTableCellEnumType Cells.buffer "" 3 Cells.clusterStates
      = Panic reason)
  ∨ (∃ e writer',
        ByNumber Cells.clusterStates (EnumNumber 3) = None
        ∧ @Fprintf Cells.buffer ("UNKNOWN:" +:+ pretty 3%Z) "" = (writer', Some e)
        ∧ @renderTableCellEnumType Cells.buffer "" 3 Cells.clusterStates
          = Done (Some e, writer')).
Proof.
  apply (@enum_cell_fails Cells.buffer "" 3 Cells.clusterStates).
  right. right.
  exists {| ev_name := "CLUSTER_STATE"; ev_number := 3 |},
    {| ev_name := "CLUSTER_STATE_UNSPECIFIED"; ev_number := 0 |},
    "UNSPECIFIED".
  split; [reflexivity|]. split; [reflexivity|]. split; [reflexivity|].
  exact unspecified_last_word.
Defined.

Lemma enum_cell_wraps_witness :
  @renderTableCellEnumType Cells.buffer "" (1 + 1 * 2 ^ 32) Cells.clusterStates
  = @renderTableCellEnumType Cells.buffer "" 1 Cells.clusterStates.
Proof.
  exact (@enum_cell_wraps Cells.buffer "" 1 1 Cells.clusterStates
           {| ev_name := "CLUSTER_STATE_PROGRESSING"; ev_number := 1 |}
           eq_refl).
Defined.

(** A number that is not one of the enum makes the function panic after
    it has written [UNKNOWN:7]; the number one plus two to the power 32 is
    shown as the state with the number one; the state whose name is the
    bare prefix makes the function panic. *)
Example unknown_state_panics :
  @renderTableCellEnumType Cells.buffer "" 7 Cells.clusterStates
  = Panic nilDereference
  ∧ @renderTableCellEnumType Cells.buffer "" 4294967297 Cells.clusterStates
    = Done (None, "PROGRESSING")
  ∧ @renderTableCellEnumType Cells.buffer "" 3 Cells.clusterStates
    = Panic sliceOutOfRange.
Proof. split; [reflexivity|]. split; reflexivity. Qed.
